(** * RandWire: random DAG generation and liveness-driven execution

    A shallow embedding of [graph.py] and [randomnet.py].  Graphs follow the
    networkx containers the code manipulates: nodes and edges are kept in
    insertion order because the code observes that order ([pred] iteration,
    [list.index], [enumerate]).  Python exceptions are explicit results. *)

From Stdlib Require Import List Arith Bool Lia ZArith QArith Permutation Sorted.
From Stdlib Require String.
Import String.StringSyntax.
Delimit Scope string_scope with string.
Import ListNotations.

Close Scope Q_scope.
Open Scope nat_scope.

Set Implicit Arguments.

(** ** Python prelude *)

Module Py.

Inductive exn : Type :=
| AssertionError
| NotImplementedError
| IndexError
| ValueError
| KeyError
| AttributeError
| RuntimeError
| NetworkXError
| NetworkXUnfeasible
| NetworkXPointlessConcept.

Inductive result (A : Type) : Type :=
| Ok (a : A)
| Raise (e : exn).

Arguments Ok {A} a.
Arguments Raise {A} e.

Definition bind {A B} (m : result A) (f : A -> result B) : result B :=
  match m with
  | Ok a => f a
  | Raise e => Raise e
  end.

(** [for a in l: acc = f(acc, a)], stopping at the first exception. *)
Fixpoint foldM {A S} (f : S -> A -> result S) (l : list A) (s : S) : result S :=
  match l with
  | [] => Ok s
  | a :: l' => bind (f s a) (foldM f l')
  end.

(** [[f(a) for a in l]]. *)
Fixpoint mapM {A B} (f : A -> result B) (l : list A) : result (list B) :=
  match l with
  | [] => Ok []
  | a :: l' =>
      bind (f a) (fun b => bind (mapM f l') (fun bs => Ok (b :: bs)))
  end.

(** [l.index(x)]: position of the first occurrence, [ValueError] if absent. *)
Fixpoint find_index (x : nat) (l : list nat) : option nat :=
  match l with
  | [] => None
  | y :: l' => if y =? x then Some 0 else option_map S (find_index x l')
  end.

Definition index (x : nat) (l : list nat) : result nat :=
  match find_index x l with
  | Some i => Ok i
  | None => Raise ValueError
  end.

(** [l[i]] for a non-negative [i]. *)
Definition getitem {A} (l : list A) (i : nat) : result A :=
  match nth_error l i with
  | Some a => Ok a
  | None => Raise IndexError
  end.

(** The list after [del l[i]], when [i] is in range. *)
Fixpoint remove_at {A} (i : nat) (l : list A) : list A :=
  match l, i with
  | [], _ => []
  | _ :: l', 0 => l'
  | a :: l', S i' => a :: remove_at i' l'
  end.

Definition delitem {A} (l : list A) (i : nat) : result (list A) :=
  if i <? length l then Ok (remove_at i l) else Raise IndexError.

(** [max(l)] on a list of naturals, [ValueError] on the empty list. *)
Definition max (l : list nat) : result nat :=
  match l with
  | [] => Raise ValueError
  | a :: l' => Ok (fold_left Nat.max l' a)
  end.

(** [x in l]. *)
Definition mem (x : nat) (l : list nat) : bool := existsb (Nat.eqb x) l.

(** [enumerate(l)]. *)
Definition enumerate {A} (l : list A) : list (nat * A) :=
  combine (seq 0 (length l)) l.

(** [l.sort(reverse=True)] on naturals. *)
Fixpoint insert_desc (x : nat) (l : list nat) : list nat :=
  match l with
  | [] => [x]
  | y :: l' => if y <=? x then x :: l else y :: insert_desc x l'
  end.

Fixpoint sort_desc (l : list nat) : list nat :=
  match l with
  | [] => []
  | x :: l' => insert_desc x (sort_desc l')
  end.

(** Largest first, as [sort(reverse=True)] leaves a list. *)
Definition descending : list nat -> Prop :=
  StronglySorted (fun a b => b <= a).

(** CPython answers [a is b] on two ints by object identity.  Only the ints of
    the small-int cache (up to 256) are shared objects; larger ints coming out
    of [enumerate] and of an arithmetic expression are distinct objects, equal
    or not. *)
Definition small_int_max : nat := 256.

Definition int_is (a b : nat) : bool := (a =? b) && (a <=? small_int_max).

Definition int_is_not (a b : nat) : bool := negb (int_is a b).

End Py.

Import Py.

Notation "x <- m ;; k" := (Py.bind m (fun x => k))
  (at level 61, m at next level, right associativity).

(** ** The networkx containers used by the code *)

Module Nx.

(** An undirected [nx.Graph]: nodes in insertion order, each edge once, as it
    was added. *)
Record Graph : Type := { gnodes : list nat; gedges : list (nat * nat) }.

(** [G.adj[u]]: the neighbours of [u], in the order their edges were added. *)
Definition adj (G : Graph) (u : nat) : list nat :=
  flat_map (fun e =>
              if fst e =? u then [snd e]
              else if snd e =? u then [fst e] else [])
           (gedges G).

(** A [nx.DiGraph]: nodes and directed edges in insertion order. *)
Record DiGraph : Type := { nodes : list nat; edges : list (nat * nat) }.

(** [G.succ[n]] and [G.pred[n]], each in the order the edges were added. *)
Definition succ (G : DiGraph) (n : nat) : list nat :=
  map snd (filter (fun e => fst e =? n) (edges G)).

Definition pred (G : DiGraph) (n : nat) : list nat :=
  map fst (filter (fun e => snd e =? n) (edges G)).

Definition in_degree (G : DiGraph) (n : nat) : nat := length (pred G n).
Definition out_degree (G : DiGraph) (n : nat) : nat := length (succ G n).
Definition number_of_nodes (G : DiGraph) : nat := length (nodes G).

(** Iterating [G.edges]: node by node, then along the successors. *)
Definition edges_view (G : DiGraph) : list (nat * nat) :=
  flat_map (fun u => map (pair u) (succ G u)) (nodes G).

(** [nx.DiGraph(G)] of an undirected [G]: both directions of every edge. *)
Definition to_directed (G : Graph) : DiGraph :=
  {| nodes := gnodes G;
     edges := flat_map (fun u => map (pair u) (adj G u)) (gnodes G) |}.

Definition edge_eqb (e1 e2 : nat * nat) : bool :=
  (fst e1 =? fst e2) && (snd e1 =? snd e2).

Definition remove_edge (G : DiGraph) (e : nat * nat) : DiGraph :=
  {| nodes := nodes G;
     edges := filter (fun e' => negb (edge_eqb e' e)) (edges G) |}.

Definition remove_edges_from (G : DiGraph) (ebunch : list (nat * nat)) : DiGraph :=
  fold_left remove_edge ebunch G.

(** [nx.relabel_nodes(G, mapping)], which builds a fresh graph: the nodes in
    the order of [G], the edges in the order of [G.edges]. *)
Definition relabel_nodes (G : DiGraph) (mapping : nat -> nat) : DiGraph :=
  {| nodes := map mapping (nodes G);
     edges := map (fun e => (mapping (fst e), mapping (snd e))) (edges_view G) |}.

(** Invariants networkx maintains: a node or an edge is stored once, and the
    end points of an edge are nodes. *)
Definition wf (G : DiGraph) : Prop :=
  NoDup (nodes G) /\ NoDup (edges G) /\
  forall u v, In (u, v) (edges G) -> In u (nodes G) /\ In v (nodes G).

Fixpoint nodupb (l : list nat) : bool :=
  match l with
  | [] => true
  | x :: l' => negb (Py.mem x l') && nodupb l'
  end.

Fixpoint nodup_edgesb (l : list (nat * nat)) : bool :=
  match l with
  | [] => true
  | e :: l' => negb (existsb (edge_eqb e) l') && nodup_edgesb l'
  end.

Definition wfb (G : DiGraph) : bool :=
  nodupb (nodes G) && nodup_edgesb (edges G) &&
  forallb (fun e => Py.mem (fst e) (nodes G) && Py.mem (snd e) (nodes G)) (edges G).

(** [order] lists every node once and every edge goes forward in it. *)
Definition topological (G : DiGraph) (order : list nat) : Prop :=
  NoDup order /\
  (forall n, In n order <-> In n (nodes G)) /\
  forall u v, In (u, v) (edges G) ->
    exists i j, Py.find_index u order = Some i /\
                Py.find_index v order = Some j /\ i < j.

Definition topologicalb (G : DiGraph) (order : list nat) : bool :=
  nodupb order &&
  forallb (fun n => Py.mem n (nodes G)) order &&
  forallb (fun n => Py.mem n order) (nodes G) &&
  forallb (fun e =>
             match Py.find_index (fst e) order, Py.find_index (snd e) order with
             | Some i, Some j => i <? j
             | _, _ => false
             end) (edges G).

(** An undirected edge, whichever way round it was added. *)
Definition normal (e : nat * nat) : nat * nat :=
  (Nat.min (fst e) (snd e), Nat.max (fst e) (snd e)).

(** Invariants of an undirected networkx graph: a node is stored once, an
    edge is stored once whatever its direction, and its end points are
    nodes. *)
Definition simple (G : Graph) : Prop :=
  NoDup (gnodes G) /\ NoDup (map normal (gedges G)) /\
  forall u v, In (u, v) (gedges G) -> In u (gnodes G) /\ In v (gnodes G).

Definition simpleb (G : Graph) : bool :=
  nodupb (gnodes G) && nodup_edgesb (map normal (gedges G)) &&
  forallb (fun e => Py.mem (fst e) (gnodes G) && Py.mem (snd e) (gnodes G))
          (gedges G).

Definition loop_free (G : Graph) : Prop :=
  forall u v, In (u, v) (gedges G) -> u <> v.

Definition loop_freeb (G : Graph) : bool :=
  forallb (fun e => negb (fst e =? snd e)) (gedges G).

(** Every node has an edge. *)
Definition no_isolated (G : DiGraph) : Prop :=
  forall n, In n (nodes G) -> in_degree G n + out_degree G n <> 0.

Definition no_isolatedb (G : DiGraph) : bool :=
  forallb (fun n => negb (in_degree G n + out_degree G n =? 0)) (nodes G).

(** Node ids below the node count, as [range(n)] gives them. *)
Definition dense (G : DiGraph) : Prop :=
  forall n, In n (nodes G) -> n < number_of_nodes G.

Definition denseb (G : DiGraph) : bool :=
  forallb (fun n => n <? number_of_nodes G) (nodes G).

(** A directed path of at least one edge. *)
Inductive path (E : list (nat * nat)) : nat -> nat -> Prop :=
| path_edge : forall u v, In (u, v) E -> path E u v
| path_step : forall u w v, In (u, w) E -> path E w v -> path E u v.

Definition acyclic (G : DiGraph) : Prop := forall u, ~ path (edges G) u u.

(** *** Topological sorting

    [indegree_map] is a dict from node to remaining in-degree, kept here as an
    association list in insertion order. *)

Definition imap : Type := list (nat * nat).

Fixpoint lookup (m : imap) (k : nat) : option nat :=
  match m with
  | [] => None
  | (k', d) :: m' => if k' =? k then Some d else lookup m' k
  end.

Definition store (m : imap) (k d : nat) : imap :=
  map (fun kd => if fst kd =? k then (k, d) else kd) m.

Definition remove_key (m : imap) (k : nat) : imap :=
  filter (fun kd => negb (fst kd =? k)) m.

(** The body of [for _, child in G.edges(node)]: one in-degree less for the
    child, which becomes ready when none is left.  A child without an entry
    is the [KeyError] that networkx turns into a [RuntimeError]. *)
Definition visit_child (st : list nat * imap) (child : nat)
  : result (list nat * imap) :=
  let (zero_indegree, indegree_map) := st in
  match lookup indegree_map child with
  | None => Raise RuntimeError
  | Some d =>
      let indegree_map' := store indegree_map child (d - 1) in
      if d - 1 =? 0
      then Ok (zero_indegree ++ [child], remove_key indegree_map' child)
      else Ok (zero_indegree, indegree_map')
  end.

(** The [while zero_indegree] loop, for a given way [pop] of taking the next
    ready node.  Every node is popped at most once, so [fuel] beyond the
    number of nodes is never used up; [None] marks its exhaustion. *)
Fixpoint kahn_loop (pop : list nat -> option (nat * list nat)) (G : DiGraph)
  (fuel : nat) (zero_indegree : list nat) (indegree_map : imap)
  (out : list nat) : option (result (list nat * imap)) :=
  match pop zero_indegree with
  | None => Some (Ok (out, indegree_map))
  | Some (node, rest) =>
      match fuel with
      | 0 => None
      | S fuel' =>
          match Py.foldM visit_child (succ G node) (rest, indegree_map) with
          | Raise e => Some (Raise e)
          | Ok (zero', indeg') =>
              kahn_loop pop G fuel' zero' indeg' (out ++ [node])
          end
      end
  end.

Definition kahn (pop : list nat -> option (nat * list nat)) (G : DiGraph)
  : result (list nat) :=
  let indegree_map :=
    filter (fun vd => 0 <? snd vd)
           (map (fun v => (v, in_degree G v)) (nodes G)) in
  let zero_indegree :=
    filter (fun v => in_degree G v =? 0) (nodes G) in
  match kahn_loop pop G (number_of_nodes G) zero_indegree indegree_map [] with
  | None => Raise RuntimeError
  | Some (Raise e) => Raise e
  | Some (Ok (out, [])) => Ok out
  | Some (Ok (_, _ :: _)) => Raise NetworkXUnfeasible
  end.

(** [zero_indegree.pop()] of networkx 2.x up to 2.5: the last ready node. *)
Definition pop_last (l : list nat) : option (nat * list nat) :=
  match rev l with
  | [] => None
  | x :: r => Some (x, rev r)
  end.

(** networkx from 2.6 on walks a generation of ready nodes front to back and
    collects their ready children as the next generation, which is serving
    the ready nodes first in, first out. *)
Definition pop_first (l : list nat) : option (nat * list nat) :=
  match l with
  | [] => None
  | x :: r => Some (x, r)
  end.

Fixpoint remove_first (x : nat) (l : list nat) : list nat :=
  match l with
  | [] => []
  | y :: l' => if y =? x then l' else y :: remove_first x l'
  end.

(** [heapq.heappop] on the heap of [(node, insertion index, node)] tuples:
    the least node leaves the heap. *)
Definition pop_min (l : list nat) : option (nat * list nat) :=
  match l with
  | [] => None
  | x :: r => let m := fold_left Nat.min r x in Some (m, remove_first m l)
  end.

Inductive release : Type := Nx2 | Nx3.

(** [nx.topological_sort(G)], consumed to the end. *)
Definition topological_sort (v : release) (G : DiGraph) : result (list nat) :=
  match v with
  | Nx2 => kahn pop_last G
  | Nx3 => kahn pop_first G
  end.

(** [nx.lexicographical_topological_sort(G)], consumed to the end. *)
Definition lexicographical_topological_sort (G : DiGraph) : result (list nat) :=
  kahn pop_min G.

(** *** Vocabulary for the sorting proofs *)

(** A way of taking a ready node out of the ready list. *)
Definition fair (pop : list nat -> option (nat * list nat)) : Prop :=
  forall l, match pop l with
            | None => l = []
            | Some (a, r) => Permutation l (a :: r)
            end.

(** The predecessors of [v] that have not been yielded yet. *)
Definition remaining (G : DiGraph) (out : list nat) (v : nat) : nat :=
  length (filter (fun p => negb (Py.mem p out)) (pred G v)).

(** [u] comes before [v] in [l]. *)
Definition before (l : list nat) (u v : nat) : Prop :=
  exists i j, Py.find_index u l = Some i /\ Py.find_index v l = Some j /\ i < j.

(** What holds each time the [while] loop tests its condition: nothing is
    yielded or ready twice; the yielded and the ready nodes are those whose
    predecessors are all yielded; the map holds the other nodes with their
    count of predecessors still to come; an edge into a yielded node starts
    at a node yielded earlier. *)
Record kahn_inv (G : DiGraph) (zero_indegree : list nat) (indegree_map : imap)
  (out : list nat) : Prop :=
  { inv_nodup : NoDup (out ++ zero_indegree);
    inv_ready : forall v, In v (out ++ zero_indegree) <->
                          In v (nodes G) /\ remaining G out v = 0;
    inv_indeg : forall v, lookup indegree_map v =
                          if Py.mem v (nodes G) && (0 <? remaining G out v)
                          then Some (remaining G out v) else None;
    inv_prefix : forall u v, In (u, v) (edges G) -> In v out -> before out u v }.

(** Lexicographic comparison of node sequences. *)
Inductive lex_le : list nat -> list nat -> Prop :=
| lex_nil : forall l, lex_le [] l
| lex_lt : forall a b l1 l2, a < b -> lex_le (a :: l1) (b :: l2)
| lex_eq : forall a l1 l2, lex_le l1 l2 -> lex_le (a :: l1) (a :: l2).

(** *** Connectivity and the Erdos-Renyi generator *)

Fixpoint union (seen new : list nat) : list nat :=
  match new with
  | [] => seen
  | x :: new' => if Py.mem x seen then union seen new' else union (seen ++ [x]) new'
  end.

(** The nodes a breadth-first search has seen after [rounds] rounds. *)
Fixpoint bfs (G : Graph) (rounds : nat) (seen : list nat) : list nat :=
  match rounds with
  | 0 => seen
  | S r => bfs G r (union seen (flat_map (adj G) seen))
  end.

(** [nx.is_connected(G)]: the search from the first node reaches every node;
    undefined on the null graph. *)
Definition is_connected (G : Graph) : result bool :=
  match gnodes G with
  | [] => Raise NetworkXPointlessConcept
  | s :: _ =>
      Ok (length (bfs G (length (gnodes G)) [s]) =? length (gnodes G))
  end.

(** [itertools.combinations(range(n), 2)]. *)
Definition combinations2 (n : nat) : list (nat * nat) :=
  flat_map (fun u => map (pair u) (seq (S u) (n - S u))) (seq 0 n).

(** A random source: the floats [random()] is going to return, in order. *)
Definition rng : Type := nat -> Q.

Definition advance (k : nat) (r : rng) : rng := fun i => r (k + i).

(** [nx.erdos_renyi_graph(n, p)] for a node count [n >= 0], drawing from [r];
    the source comes back advanced by the draws made.  A negative count is
    outside this model: networkx raises [NetworkXError] on it. *)
Definition erdos_renyi_graph (n : nat) (p : Q) (r : rng) : Graph * rng :=
  let pairs := combinations2 n in
  if Qle_bool p 0 then ({| gnodes := seq 0 n; gedges := [] |}, r)
  else if Qle_bool 1 p then ({| gnodes := seq 0 n; gedges := pairs |}, r)
  else
    ({| gnodes := seq 0 n;
        gedges := map snd (filter (fun ie => negb (Qle_bool p (r (fst ie))))
                                  (Py.enumerate pairs)) |},
     advance (length pairs) r).

End Nx.

(** ** Live ranges

    [graph.py] (lines 117-127) and [randomnet.py] (lines 45-55) run the same
    code on the topological order [nxorder]. *)

Module Liveness.

(** [ispans]: for every node of the order, the largest order index among its
    successors, or the number of nodes when it has none. *)
Definition span_of (G : Nx.DiGraph) (nxorder : list nat) (nxnode : nat)
  : result nat :=
  nextnodes <- Py.mapM (fun n => Py.index n nxorder) (Nx.succ G nxnode) ;;
  if negb (length nextnodes =? 0) then Py.max nextnodes
  else Ok (Nx.number_of_nodes G).

Definition ispans_of (G : Nx.DiGraph) (nxorder : list nat) : result (list nat) :=
  Py.mapM (span_of G nxorder) nxorder.

(** [[inode for inode, ispan in enumerate(ispans)
      if ispan >= order and inode < order]]. *)
Definition live_at (ispans : list nat) (order : nat) : list nat :=
  map fst (filter (fun ii => (order <=? snd ii) && (fst ii <? order))
                  (Py.enumerate ispans)).

Definition live_sets (ispans : list nat) (nxorder : list nat) : list (list nat) :=
  map (fun on => live_at ispans (fst on)) (Py.enumerate nxorder).

(** [max([len(nodes) for nodes in live])]. *)
Definition peak (live : list (list nat)) : result nat :=
  Py.max (map (@length nat) live).

End Liveness.

(** ** graph.py *)

Module GraphPy.

Record Params : Type := { P : option Q; M : option Z; K : option Z }.

Record GraphGenerator : Type :=
  { model : String.string; params : Params; directed : bool }.

Inductive AnyGraph : Type :=
| Undirected (G : Nx.Graph)
| Directed (G : Nx.DiGraph).

Definition unit_interval (p : Q) : bool := Qle_bool p 1 && Qle_bool 0 p.

(** [GraphGenerator.__init__]. *)
Definition GraphGenerator_init (model : String.string) (params : Params)
  (directed : bool) : result GraphGenerator :=
  let self := {| model := model; params := params; directed := directed |} in
  if String.eqb model "ER" then
    match P params with
    | None => Raise AssertionError
    | Some p => if unit_interval p then Ok self else Raise AssertionError
    end
  else if String.eqb model "BA" then
    match M params with
    | None => Raise AssertionError
    | Some _ => Ok self
    end
  else if String.eqb model "WS" then
    match K params, P params with
    | Some k, Some p =>
        if (k mod 2 =? 0)%Z then
          if unit_interval p then Ok self else Raise AssertionError
        else Raise AssertionError
    | _, _ => Raise AssertionError
    end
  else Raise NotImplementedError.

(** Lines 50-56 of [generate]: both directions of every edge, then the edges
    with [e[0] >= e[1]] collected and removed. *)
Definition to_dag (G : Nx.Graph) : Nx.DiGraph :=
  let D := Nx.to_directed G in
  let ebunch := filter (fun e => snd e <=? fst e) (Nx.edges_view D) in
  Nx.remove_edges_from D ebunch.

Section Generators.

(** The draws of [random.Random(seed)] for an integer seed, and the two
    networkx generators the code calls besides Erdos-Renyi; each takes its
    random source and gives it back advanced. *)
Variable prng : Z -> Nx.rng.
Variable barabasi_albert_graph :
  Z -> Z -> Nx.rng -> result (Nx.Graph * Nx.rng).
Variable watts_strogatz_graph :
  Z -> Z -> Q -> Nx.rng -> result (Nx.Graph * Nx.rng).

(** networkx draws from a fresh [random.Random(seed)] when [seed] is an
    integer and from the global generator when it is [None]. *)
Definition source (seed : option Z) (global : Nx.rng) : Nx.rng :=
  match seed with
  | Some s => prng s
  | None => global
  end.

Definition settle (seed : option Z) (global used : Nx.rng) : Nx.rng :=
  match seed with
  | Some _ => global
  | None => used
  end.

(** Lines 36-39: [while True] around one draw and its connectivity test.
    [fuel] bounds the iterations the model follows; [None] says the loop is
    still running after that many draws.  The draw is modelled for
    [nnode >= 0] only, see [Nx.erdos_renyi_graph]. *)
Fixpoint er_loop (fuel : nat) (nnode : Z) (p : Q) (seed : option Z)
  (global : Nx.rng) : option (result (Nx.Graph * Nx.rng)) :=
  match fuel with
  | 0 => None
  | S fuel' =>
      let (G, used) :=
        Nx.erdos_renyi_graph (Z.to_nat nnode) p (source seed global) in
      let global' := settle seed global used in
      match Nx.is_connected G with
      | Raise e => Some (Raise e)
      | Ok true => Some (Ok (G, global'))
      | Ok false => er_loop fuel' nnode p seed global'
      end
  end.

(** The global source when the loop starts its iteration [k] (from 0), and
    the graph drawn in that iteration. *)
Fixpoint er_global (k : nat) (nnode : Z) (p : Q) (seed : option Z)
  (global : Nx.rng) : Nx.rng :=
  match k with
  | 0 => global
  | S k' =>
      er_global k' nnode p seed
        (settle seed global
           (snd (Nx.erdos_renyi_graph (Z.to_nat nnode) p (source seed global))))
  end.

Definition er_draw (k : nat) (nnode : Z) (p : Q) (seed : option Z)
  (global : Nx.rng) : Nx.Graph :=
  fst (Nx.erdos_renyi_graph (Z.to_nat nnode) p
         (source seed (er_global k nnode p seed global))).

(** What [generate] hands back for the undirected graph [G]. *)
Definition finish (self : GraphGenerator) (G : Nx.Graph) : AnyGraph :=
  if directed self then Directed (to_dag G) else Undirected G.

(** [GraphGenerator.generate]. *)
Definition generate (fuel : nat) (self : GraphGenerator) (nnode : Z)
  (seed : option Z) (global : Nx.rng)
  : option (result (AnyGraph * Nx.rng)) :=
  let undirected :=
    if String.eqb (model self) "ER" then
      match P (params self) with
      | None => Some (Raise KeyError)
      | Some p => er_loop fuel nnode p seed global
      end
    else if String.eqb (model self) "BA" then
      match M (params self) with
      | None => Some (Raise KeyError)
      | Some m =>
          if (m <? nnode)%Z then
            Some (r <- barabasi_albert_graph nnode m (source seed global) ;;
                  Ok (fst r, settle seed global (snd r)))
          else Some (Raise AssertionError)
      end
    else if String.eqb (model self) "WS" then
      match K (params self) with
      | None => Some (Raise KeyError)
      | Some k =>
          if (k <? nnode)%Z then
            match P (params self) with
            | None => Some (Raise KeyError)
            | Some p =>
                Some (r <- watts_strogatz_graph nnode k p (source seed global) ;;
                      Ok (fst r, settle seed global (snd r)))
            end
          else Some (Raise AssertionError)
      end
    else Some (Raise NotImplementedError) in
  match undirected with
  | None => None
  | Some (Raise e) => Some (Raise e)
  | Some (Ok (G, global')) =>
      Some (Ok (finish self G, global'))
  end.

(** Lines 87-89 of [get_graphs]: [for i in range(ngraphs)]. *)
Fixpoint generate_each (fuel : nat) (gen : GraphGenerator)
  (nnodes : list Z) (seeds : list (option Z)) (range : list nat)
  (Gs : list AnyGraph) (global : Nx.rng)
  : option (result (list AnyGraph * Nx.rng)) :=
  match range with
  | [] => Some (Ok (Gs, global))
  | i :: range' =>
      match Py.getitem nnodes i with
      | Raise e => Some (Raise e)
      | Ok nnode =>
          match Py.getitem seeds i with
          | Raise e => Some (Raise e)
          | Ok seed =>
              match generate fuel gen nnode seed global with
              | None => None
              | Some (Raise e) => Some (Raise e)
              | Some (Ok (G, global')) =>
                  generate_each fuel gen nnodes seeds range' (Gs ++ [G]) global'
              end
          end
      end
  end.

(** [get_graphs(model, params, ngraphs, nnodes, seeds)]: [nnodes] is an int
    or a list, [seeds] is [None], an int or a list. *)
Definition get_graphs (fuel : nat) (model : String.string) (params : Params)
  (ngraphs : Z) (nnodes : Z + list Z) (seeds : option (Z + list Z))
  (global : Nx.rng) : option (result (list AnyGraph * Nx.rng)) :=
  let nnodes' :=
    match nnodes with
    | inl n => repeat n (Z.to_nat ngraphs)
    | inr l => l
    end in
  let seeds' :=
    match seeds with
    | None => repeat None (Z.to_nat ngraphs)
    | Some (inl s) =>
        map (fun i => Some (s + Z.of_nat i)%Z)
            (seq 0 (Z.to_nat (ngraphs - 1)))
    | Some (inr l) => map Some l
    end in
  match GraphGenerator_init model params true with
  | Raise e => Some (Raise e)
  | Ok gen =>
      generate_each fuel gen nnodes' seeds' (seq 0 (Z.to_nat ngraphs)) [] global
  end.

End Generators.

(** Lines 107-144 of [test]: the reordering search.  [perms] holds the
    results of the successive [np.random.permutation] calls, one per trial. *)
Fixpoint reorder_loop (perms : list (list nat)) (G : Nx.DiGraph)
  (min_lives : nat) (Gopt : option Nx.DiGraph)
  : result (nat * option Nx.DiGraph) :=
  match perms with
  | [] => Ok (min_lives, Gopt)
  | new_order :: perms' =>
      nxorder <- Nx.lexicographical_topological_sort G ;;
      ispans <- Liveness.ispans_of G nxorder ;;
      let live := Liveness.live_sets ispans nxorder in
      mapping <- Py.mapM (Py.getitem new_order)
                         (seq 0 (Nx.number_of_nodes G)) ;;
      let G' := Nx.relabel_nodes G (fun n => nth n mapping n) in
      nlives <- Liveness.peak live ;;
      if nlives <? min_lives
      then reorder_loop perms' G' nlives (Some G')
      else reorder_loop perms' G' min_lives Gopt
  end.

(** The peak live count of [G] as lines 114-127 and 136 compute it. *)
Definition plan_peak (G : Nx.DiGraph) : result nat :=
  nxorder <- Nx.lexicographical_topological_sort G ;;
  ispans <- Liveness.ispans_of G nxorder ;;
  Liveness.peak (Liveness.live_sets ispans nxorder).

(** The search started on [G]; [Gopt.nodes] fails on [None]. *)
Definition search (G : Nx.DiGraph) (perms : list (list nat))
  : result (Nx.DiGraph * nat) :=
  r <- reorder_loop perms G (Nx.number_of_nodes G) None ;;
  match snd r with
  | None => Raise AttributeError
  | Some Gopt => Ok (Gopt, fst r)
  end.

(** Lines 131-133 of one trial: [G] relabelled along [new_order], whose
    entries below the node count make up the mapping. *)
Definition relabelled (G : Nx.DiGraph) (new_order : list nat) : Nx.DiGraph :=
  Nx.relabel_nodes G
    (fun n => nth n (firstn (Nx.number_of_nodes G) new_order) n).

(** The graphs the trials measure: [G], then each time the relabelling of
    the graph before. *)
Fixpoint trial_graphs (perms : list (list nat)) (G : Nx.DiGraph)
  : list Nx.DiGraph :=
  match perms with
  | [] => []
  | new_order :: perms' => G :: trial_graphs perms' (relabelled G new_order)
  end.

End GraphPy.

(** ** randomnet.py *)

Module RandomNet.

Record RandomNetwork : Type :=
  { nxgraph : Nx.DiGraph;
    bottom_layer : list nat;
    (** [len(self.nodes)], the number of modules in the [ModuleList] *)
    nmodules : nat;
    nxorder : list nat;
    live : list (list nat) }.

(** [RandomNetwork.__init__] once the topological order is known. *)
Definition init_from_order (G : Nx.DiGraph) (order : list nat)
  : result RandomNetwork :=
  ispans <- Liveness.ispans_of G order ;;
  Ok {| nxgraph := G;
        bottom_layer := filter (fun n => Nx.out_degree G n =? 0) (Nx.nodes G);
        nmodules := length (Nx.nodes G);
        nxorder := order;
        live := Liveness.live_sets ispans order |}.

(** [RandomNetwork.__init__], for the networkx release [v] installed. *)
Definition init (v : Nx.release) (G : Nx.DiGraph) : result RandomNetwork :=
  order <- Nx.topological_sort v G ;;
  init_from_order G order.

Section Forward.

(** Tensors, the forward pass of the [layer.Node] module stored at an index
    of [self.nodes] applied to the stack of its inputs, and
    [torch.mean(torch.stack(outs), 0)] on a non-empty list. *)
Variable Buf : Type.
Variable Node : nat -> list Buf -> Buf.
Variable mean : list Buf -> Buf.

Variable self : RandomNetwork.
Variable x : Buf.

(** Lines 79-85: one predecessor [p] of the node at position [order]. *)
Definition gather_pred (outs : list Buf) (order : nat)
  (acc : list Buf * list nat) (p : nat) : result (list Buf * list nat) :=
  let (y, to_delete) := acc in
  ipred <- Py.index p (nxorder self) ;;
  lv <- Py.getitem (live self) order ;;
  iout <- Py.index ipred lv ;;
  b <- Py.getitem outs iout ;;
  drop <- (if Py.int_is_not order (length (nxorder self) - 1) then
             lv' <- Py.getitem (live self) (order + 1) ;;
             Ok (negb (Py.mem ipred lv'))
           else Ok false) ;;
  Ok (y ++ [b], if drop then to_delete ++ [iout] else to_delete).

(** Lines 72-96: the body of the traversal loop. *)
Definition step (outs : list Buf) (on : nat * nat) : result (list Buf) :=
  let (order, nxnode) := on in
  if nxnode <? nmodules self then
    r <- (if Nx.in_degree (nxgraph self) nxnode =? 0
          then Ok (Node nxnode [x], [])
          else
            yd <- Py.foldM (gather_pred outs order)
                           (Nx.pred (nxgraph self) nxnode) ([], []) ;;
            Ok (Node nxnode (fst yd), snd yd)) ;;
    outs' <- (if Py.int_is_not (length (snd r)) 0
              then Py.foldM Py.delitem (Py.sort_desc (snd r)) outs
              else Ok outs) ;;
    Ok (outs' ++ [fst r])
  else Raise IndexError.

(** [outs] when the loop reaches position [k]. *)
Definition outs_at (k : nat) : result (list Buf) :=
  Py.foldM step (firstn k (Py.enumerate (nxorder self))) [].

(** [RandomNetwork.forward]; [torch.stack] refuses an empty list. *)
Definition forward : result Buf :=
  outs <- Py.foldM step (Py.enumerate (nxorder self)) [] ;;
  match outs with
  | [] => Raise RuntimeError
  | _ :: _ => Ok (mean outs)
  end.

(** The executor that frees nothing: the buffers of positions [0 .. k-1]. *)
Definition compute_at (prev : list Buf) (nxnode : nat) : Buf :=
  if Nx.in_degree (nxgraph self) nxnode =? 0 then Node nxnode [x]
  else Node nxnode
         (map (fun p => match Py.find_index p (nxorder self) with
                        | Some i => nth i prev x
                        | None => x
                        end)
              (Nx.pred (nxgraph self) nxnode)).

Fixpoint buffers (k : nat) : list Buf :=
  match k with
  | 0 => []
  | S k' => let prev := buffers k' in
            prev ++ [compute_at prev (nth k' (nxorder self) 0)]
  end.

(** The buffer of position [p]. *)
Definition buffer (p : nat) : Buf := nth p (buffers (S p)) x.

End Forward.

End RandomNet.

(** ** Graphs used as concrete inputs *)

Module Examples.

(** The star [0->1, 0->2, 0->3, 0->4]. *)
Definition star : Nx.DiGraph :=
  {| Nx.nodes := [0; 1; 2; 3; 4];
     Nx.edges := [(0, 1); (0, 2); (0, 3); (0, 4)] |}.

(** The undirected triangle [0 - 1 - 2 - 0], the last edge added backwards. *)
Definition triangle : Nx.Graph :=
  {| Nx.gnodes := [0; 1; 2]; Nx.gedges := [(0, 1); (1, 2); (2, 0)] |}.

(** An Erdos-Renyi generator, and a random source whose first float is 3/4
    and whose later floats are 0. *)
Definition er (p : Q) : GraphPy.GraphGenerator :=
  {| GraphPy.model := "ER"%string;
     GraphPy.params := {| GraphPy.P := Some p; GraphPy.M := None;
                          GraphPy.K := None |};
     GraphPy.directed := true |}.

(** The parameters [{'M': 4}]. *)
Definition m4 : GraphPy.Params :=
  {| GraphPy.P := None; GraphPy.M := Some 4%Z; GraphPy.K := None |}.

(** The Barabasi-Albert generator with [M = 4]. *)
Definition ba4 : GraphPy.GraphGenerator :=
  {| GraphPy.model := "BA"%string; GraphPy.params := m4;
     GraphPy.directed := true |}.

Definition late : Nx.rng := fun i => if i =? 0 then (3 # 4)%Q else 0%Q.

Definition zeros : Nx.rng := fun _ => 0%Q.

(** Stand-ins for the two networkx generators that are not modelled. *)
Definition no_graph (n m : Z) (r : Nx.rng) : Py.result (Nx.Graph * Nx.rng) :=
  Py.Raise Py.NetworkXError.

Definition no_graph' (n k : Z) (p : Q) (r : Nx.rng)
  : Py.result (Nx.Graph * Nx.rng) :=
  Py.Raise Py.NetworkXError.

(** The path [3 - 0 - 2 - 1] directed upwards, [0->2, 0->3, 1->2], and the
    same graph with the labels 2 and 3 exchanged. *)
Definition zigzag : Nx.DiGraph :=
  {| Nx.nodes := [0; 1; 2; 3]; Nx.edges := [(0, 2); (0, 3); (1, 2)] |}.

Definition zigzag' : Nx.DiGraph :=
  {| Nx.nodes := [0; 1; 3; 2]; Nx.edges := [(0, 3); (0, 2); (1, 3)] |}.

(** The chain [0->1->...->n-1]. *)
Definition chain (n : nat) : Nx.DiGraph :=
  {| Nx.nodes := seq 0 n;
     Nx.edges := map (fun i => (i, S i)) (seq 0 (n - 1)) |}.

(** The two-cycle [0->1->0]. *)
Definition cycle2 : Nx.DiGraph :=
  {| Nx.nodes := [0; 1]; Nx.edges := [(0, 1); (1, 0)] |}.

(** The chain [0->1]. *)
Definition chain2 : Nx.DiGraph :=
  {| Nx.nodes := [0; 1]; Nx.edges := [(0, 1)] |}.

(** A tree with two branches, [0->1->4] and [0->2->3]. *)
Definition fork : Nx.DiGraph :=
  {| Nx.nodes := [0; 1; 2; 3; 4];
     Nx.edges := [(0, 1); (0, 2); (1, 4); (2, 3)] |}.

End Examples.

Unset Implicit Arguments.

Import Py.

(** * Facts about the Python prelude *)

Module PyFacts.

Lemma mem_In (x : nat) (l : list nat) : Py.mem x l = true <-> In x l.
Proof.
  unfold Py.mem. rewrite existsb_exists. split.
  - intros [y [Hy Heq]]. apply Nat.eqb_eq in Heq. now subst.
  - intros H. exists x. split; [assumption | apply Nat.eqb_refl].
Qed.

Lemma mem_false (x : nat) (l : list nat) : Py.mem x l = false <-> ~ In x l.
Proof.
  rewrite <- mem_In. destruct (Py.mem x l); split; congruence.
Qed.

Lemma find_index_nth_error (x : nat) (l : list nat) (i : nat) :
  Py.find_index x l = Some i -> nth_error l i = Some x.
Proof.
  revert i. induction l as [|y l IH]; simpl; intros i H; [discriminate|].
  destruct (Nat.eqb_spec y x) as [->|Hne].
  - injection H as <-. reflexivity.
  - destruct (Py.find_index x l) as [j|]; simpl in H; [|discriminate].
    injection H as <-. simpl. now apply IH.
Qed.

Lemma find_index_lt (x : nat) (l : list nat) (i : nat) :
  Py.find_index x l = Some i -> i < length l.
Proof.
  intros H. apply find_index_nth_error in H.
  apply nth_error_Some. congruence.
Qed.

Lemma find_index_In (x : nat) (l : list nat) :
  In x l -> exists i, Py.find_index x l = Some i.
Proof.
  induction l as [|y l IH]; simpl; [tauto|]. intros H.
  destruct (Nat.eqb_spec y x) as [->|Hne]; [now exists 0|].
  destruct H as [H|H]; [congruence|].
  destruct (IH H) as [i Hi]. exists (S i). now rewrite Hi.
Qed.

Lemma find_index_of_nth (l : list nat) (i x : nat) :
  NoDup l -> nth_error l i = Some x -> Py.find_index x l = Some i.
Proof.
  revert i. induction l as [|y l IH]; intros i Hnd H.
  - destruct i; discriminate.
  - inversion Hnd as [|? ? Hnotin Hnd']; subst. simpl.
    destruct i as [|i]; simpl in H.
    + injection H as ->. now rewrite Nat.eqb_refl.
    + destruct (Nat.eqb_spec y x) as [->|Hne].
      * exfalso. apply Hnotin. eapply nth_error_In; eassumption.
      * now rewrite (IH i Hnd' H).
Qed.

Lemma filter_none {A} (f : A -> bool) (l : list A) :
  (forall a, In a l -> f a = false) -> filter f l = [].
Proof.
  induction l as [|a l IH]; simpl; intros H; [reflexivity|].
  rewrite (H a (or_introl eq_refl)). apply IH. intros b Hb. apply H. now right.
Qed.

Lemma filter_refine {A} (f g : A -> bool) (l : list A) :
  (forall a, f a = true -> g a = true) ->
  filter f (filter g l) = filter f l.
Proof.
  intros H. induction l as [|a l IH]; simpl; [reflexivity|].
  destruct (g a) eqn:Eg; simpl.
  - now rewrite IH.
  - destruct (f a) eqn:Ef; [|assumption].
    apply H in Ef. congruence.
Qed.

Lemma filter_all {A} (f : A -> bool) (l : list A) :
  (forall a, In a l -> f a = true) -> filter f l = l.
Proof.
  induction l as [|a l IH]; simpl; intros H; [reflexivity|].
  rewrite (H a (or_introl eq_refl)). f_equal. apply IH. intros b Hb.
  apply H. now right.
Qed.

Lemma filter_other (a : nat) (l : list nat) :
  ~ In a l -> filter (fun e => negb (e =? a)) l = l.
Proof.
  induction l as [|b l IH]; simpl; intros H; [reflexivity|].
  destruct (Nat.eqb_spec b a) as [->|Hne]; [tauto|].
  simpl. f_equal. apply IH. tauto.
Qed.

Lemma filter_and {A} (p q : A -> bool) (l : list A) :
  filter p (filter q l) = filter (fun a => q a && p a) l.
Proof.
  induction l as [|a l IH]; simpl; [reflexivity|].
  destruct (q a); simpl; [|assumption].
  destruct (p a); now rewrite IH.
Qed.

Lemma NoDup_app_disjoint {A} (l l' : list A) (a : A) :
  NoDup (l ++ l') -> In a l -> In a l' -> False.
Proof.
  induction l as [|b l IH]; simpl; intros Hnd Hl Hl'; [contradiction|].
  inversion Hnd as [|? ? Hnotin Hnd']; subst. destruct Hl as [->|Hl].
  - apply Hnotin. apply in_app_iff. now right.
  - now apply IH.
Qed.

Lemma mapM_ok {A B} (f : A -> result B) (g : A -> B) (l : list A) :
  (forall a, In a l -> f a = Ok (g a)) -> Py.mapM f l = Ok (map g l).
Proof.
  induction l as [|a l IH]; simpl; intros H; [reflexivity|].
  rewrite (H a (or_introl eq_refl)). simpl.
  rewrite IH; [reflexivity|]. intros b Hb. apply H. now right.
Qed.

Lemma max_spec (l : list nat) (m : nat) :
  Py.max l = Ok m -> In m l /\ forall y, In y l -> y <= m.
Proof.
  destruct l as [|a l]; simpl; [discriminate|]. intros H. injection H as <-.
  revert a. induction l as [|b l IH]; simpl; intros a.
  - split; [now left|]. intros y [<-|[]]. lia.
  - destruct (IH (Nat.max a b)) as [Hin Hle]. split.
    + destruct Hin as [Hin|Hin]; [|right; right; exact Hin].
      destruct (Nat.max_spec a b) as [[_ E]|[_ E]]; rewrite E in *;
        [right; left; exact Hin | left; exact Hin].
    + pose proof (Hle _ (or_introl eq_refl)) as Hm.
      intros y [<-|[<-|Hy]]; [lia | lia | apply Hle; now right].
Qed.

Lemma max_nonempty (l : list nat) : l <> [] -> exists m, Py.max l = Ok m.
Proof. destruct l as [|a l]; [congruence|]. intros _. now eexists. Qed.

Lemma combine_seq_nth_error {A} (l : list A) (b k : nat) (a : A) :
  nth_error l k = Some a ->
  nth_error (combine (seq b (length l)) l) k = Some (b + k, a).
Proof.
  revert b k. induction l as [|c l IH]; intros b k H.
  - destruct k; discriminate.
  - destruct k as [|k]; simpl in *.
    + injection H as ->. now rewrite Nat.add_0_r.
    + rewrite (IH (S b) k H). do 2 f_equal. lia.
Qed.

Lemma enumerate_nth_error {A} (l : list A) (k : nat) (a : A) :
  nth_error l k = Some a -> nth_error (Py.enumerate l) k = Some (k, a).
Proof. intros H. unfold Py.enumerate. now rewrite (combine_seq_nth_error l 0 k a H). Qed.

Lemma enumerate_length {A} (l : list A) : length (Py.enumerate l) = length l.
Proof. unfold Py.enumerate. rewrite length_combine, length_seq. lia. Qed.

End PyFacts.

Import Py PyFacts.

(** * Graph facts *)

Module NxFacts.

Lemma in_succ (G : Nx.DiGraph) (u v : nat) :
  In v (Nx.succ G u) <-> In (u, v) (Nx.edges G).
Proof.
  unfold Nx.succ. rewrite in_map_iff. split.
  - intros [[a b] [Hb Hin]]. apply filter_In in Hin as [Hin Ha].
    simpl in *. apply Nat.eqb_eq in Ha. now subst.
  - intros H. exists (u, v). split; [reflexivity|].
    apply filter_In. split; [assumption | apply Nat.eqb_refl].
Qed.

Lemma in_pred (G : Nx.DiGraph) (u v : nat) :
  In u (Nx.pred G v) <-> In (u, v) (Nx.edges G).
Proof.
  unfold Nx.pred. rewrite in_map_iff. split.
  - intros [[a b] [Ha Hin]]. apply filter_In in Hin as [Hin Hb].
    simpl in *. apply Nat.eqb_eq in Hb. now subst.
  - intros H. exists (u, v). split; [reflexivity|].
    apply filter_In. split; [assumption | apply Nat.eqb_refl].
Qed.

Lemma NoDup_pred (G : Nx.DiGraph) (v : nat) :
  NoDup (Nx.edges G) -> NoDup (Nx.pred G v).
Proof.
  unfold Nx.pred. induction (Nx.edges G) as [|[a b] l IH]; simpl; intros H.
  - constructor.
  - inversion H as [|? ? Hnotin Hnd]; subst.
    destruct (Nat.eqb_spec b v) as [->|Hne]; [|now apply IH].
    simpl. constructor; [|now apply IH].
    intros Hin. apply in_map_iff in Hin as [[a' b'] [Ha Hin]].
    apply filter_In in Hin as [Hin Hb]. simpl in *.
    apply Nat.eqb_eq in Hb. subst. contradiction.
Qed.

Lemma NoDup_succ (G : Nx.DiGraph) (u : nat) :
  NoDup (Nx.edges G) -> NoDup (Nx.succ G u).
Proof.
  unfold Nx.succ. induction (Nx.edges G) as [|[a b] l IH]; simpl; intros H.
  - constructor.
  - inversion H as [|? ? Hnotin Hnd]; subst.
    destruct (Nat.eqb_spec a u) as [->|Hne]; [|now apply IH].
    simpl. constructor; [|now apply IH].
    intros Hin. apply in_map_iff in Hin as [[a' b'] [Ha Hin]].
    apply filter_In in Hin as [Hin Hb]. simpl in *.
    apply Nat.eqb_eq in Hb. subst. contradiction.
Qed.

Lemma in_degree_zero (G : Nx.DiGraph) (v : nat) :
  Nx.in_degree G v = 0 <-> Nx.pred G v = [].
Proof. unfold Nx.in_degree. apply length_zero_iff_nil. Qed.

Lemma nodupb_sound (l : list nat) : Nx.nodupb l = true -> NoDup l.
Proof.
  induction l as [|a l IH]; simpl; intros H; [constructor|].
  apply andb_true_iff in H as [Ha Hl]. constructor; [|now apply IH].
  apply negb_true_iff in Ha. now apply mem_false.
Qed.

Lemma edge_eqb_eq (e1 e2 : nat * nat) : Nx.edge_eqb e1 e2 = true <-> e1 = e2.
Proof.
  destruct e1 as [a b], e2 as [c d]. unfold Nx.edge_eqb. simpl.
  rewrite andb_true_iff, !Nat.eqb_eq. split; [intros [-> ->] | intros [= -> ->]]; auto.
Qed.

Lemma nodup_edgesb_sound (l : list (nat * nat)) :
  Nx.nodup_edgesb l = true -> NoDup l.
Proof.
  induction l as [|e l IH]; simpl; intros H; [constructor|].
  apply andb_true_iff in H as [He Hl]. constructor; [|now apply IH].
  intros Hin. apply negb_true_iff in He.
  assert (existsb (Nx.edge_eqb e) l = true); [|congruence].
  apply existsb_exists. exists e. split; [assumption | now apply edge_eqb_eq].
Qed.

Lemma wfb_sound (G : Nx.DiGraph) : Nx.wfb G = true -> Nx.wf G.
Proof.
  unfold Nx.wfb, Nx.wf. rewrite !andb_true_iff. intros [[Hn He] Hin].
  split; [now apply nodupb_sound|]. split; [now apply nodup_edgesb_sound|].
  intros u v Huv. rewrite forallb_forall in Hin. specialize (Hin _ Huv).
  simpl in Hin. apply andb_true_iff in Hin as [Hu Hv].
  split; now apply mem_In.
Qed.

Lemma topologicalb_sound (G : Nx.DiGraph) (order : list nat) :
  Nx.topologicalb G order = true -> Nx.topological G order.
Proof.
  unfold Nx.topologicalb, Nx.topological. rewrite !andb_true_iff.
  intros [[[Hnd Hsub] Hsup] Hfwd].
  rewrite forallb_forall in Hsub, Hsup, Hfwd.
  split; [now apply nodupb_sound|]. split.
  - intros n. split; intros H; apply mem_In; auto.
  - intros u v Huv. specialize (Hfwd _ Huv). simpl in Hfwd.
    destruct (Py.find_index u order) as [i|]; [|discriminate].
    destruct (Py.find_index v order) as [j|]; [|discriminate].
    exists i, j. repeat split. now apply Nat.ltb_lt.
Qed.

Section Order.

Variable G : Nx.DiGraph.
Variable order : list nat.
Hypothesis Hwf : Nx.wf G.
Hypothesis Htopo : Nx.topological G order.

Lemma order_length : length order = Nx.number_of_nodes G.
Proof.
  destruct Hwf as [Hnd _]. destruct Htopo as [Hnd' [Hsame _]].
  apply Permutation_length. apply NoDup_Permutation; assumption.
Qed.

Lemma edge_positions (u v : nat) :
  In (u, v) (Nx.edges G) ->
  exists i j, nth_error order i = Some u /\ nth_error order j = Some v /\
              Py.find_index u order = Some i /\
              Py.find_index v order = Some j /\ i < j /\ j < length order.
Proof.
  intros H. destruct Htopo as [_ [_ Hfwd]].
  destruct (Hfwd u v H) as [i [j [Hi [Hj Hlt]]]].
  exists i, j. repeat split; auto using find_index_nth_error.
  eapply find_index_lt; eassumption.
Qed.

Lemma position_unique (i n : nat) :
  nth_error order i = Some n -> Py.find_index n order = Some i.
Proof. apply find_index_of_nth. apply Htopo. Qed.

End Order.

End NxFacts.

Import Py PyFacts NxFacts.

(** * Live ranges *)

Module LivenessFacts.

(** The comprehension over [enumerate(ispans)] is a filter on positions. *)
Lemma live_at_filter_from (ispans : list nat) (order b : nat) :
  map fst (filter (fun ii => (order <=? snd ii) && (fst ii <? order))
                  (combine (seq b (length ispans)) ispans)) =
  filter (fun i => (order <=? nth (i - b) ispans 0) && (i <? order))
         (seq b (length ispans)).
Proof.
  revert b. induction ispans as [|s l IH]; intros b; [reflexivity|].
  assert (E : filter (fun i => (order <=? nth (i - b) (s :: l) 0) && (i <? order))
                     (seq (S b) (length l)) =
              filter (fun i => (order <=? nth (i - S b) l 0) && (i <? order))
                     (seq (S b) (length l))).
  { apply filter_ext_in. intros i Hi. apply in_seq in Hi.
    replace (i - b) with (S (i - S b)) by lia. reflexivity. }
  cbn [length seq combine filter fst snd].
  rewrite E, <- IH, Nat.sub_diag. cbn [nth].
  destruct ((order <=? s) && (b <? order)); reflexivity.
Qed.

Lemma live_at_filter (ispans : list nat) (order : nat) :
  order <= length ispans ->
  Liveness.live_at ispans order =
  filter (fun i => order <=? nth i ispans 0) (seq 0 order).
Proof.
  intros Hle. unfold Liveness.live_at, Py.enumerate.
  rewrite live_at_filter_from.
  replace (length ispans) with (order + (length ispans - order)) by lia.
  rewrite seq_app, filter_app. simpl.
  rewrite (filter_none _ (seq order (length ispans - order))).
  - rewrite app_nil_r. apply filter_ext_in. intros i Hi. apply in_seq in Hi.
    rewrite Nat.sub_0_r.
    replace (i <? order) with true by (symmetry; apply Nat.ltb_lt; lia).
    apply andb_true_r.
  - intros i Hi. apply in_seq in Hi.
    replace (i <? order) with false by (symmetry; apply Nat.ltb_ge; lia).
    apply andb_false_r.
Qed.

Lemma in_live_at (ispans : list nat) (order i : nat) :
  order <= length ispans ->
  In i (Liveness.live_at ispans order) <-> i < order /\ order <= nth i ispans 0.
Proof.
  intros Hle. rewrite live_at_filter by assumption.
  rewrite filter_In, in_seq, Nat.leb_le. lia.
Qed.

Lemma NoDup_live_at (ispans : list nat) (order : nat) :
  order <= length ispans -> NoDup (Liveness.live_at ispans order).
Proof.
  intros Hle. rewrite live_at_filter by assumption.
  apply NoDup_filter, seq_NoDup.
Qed.

Lemma seq_ascending (a n : nat) : StronglySorted lt (seq a n).
Proof.
  revert a. induction n as [|n IH]; intros a; simpl; constructor.
  - apply IH.
  - apply Forall_forall. intros b Hb. apply in_seq in Hb. lia.
Qed.

Lemma filter_ascending (f : nat -> bool) (l : list nat) :
  StronglySorted lt l -> StronglySorted lt (filter f l).
Proof.
  induction 1 as [|a l Hl IH Hall]; simpl; [constructor|].
  destruct (f a); [|assumption]. constructor; [assumption|].
  apply Forall_forall. intros b Hb. apply filter_In in Hb as [Hb _].
  revert b Hb. now apply Forall_forall.
Qed.

Lemma live_at_ascending (ispans : list nat) (order : nat) :
  order <= length ispans -> StronglySorted lt (Liveness.live_at ispans order).
Proof.
  intros Hle. rewrite live_at_filter by assumption.
  apply filter_ascending, seq_ascending.
Qed.

Lemma live_sets_nth (ispans nxorder : list nat) (k : nat) :
  k < length nxorder ->
  nth_error (Liveness.live_sets ispans nxorder) k =
  Some (Liveness.live_at ispans k).
Proof.
  intros Hk. unfold Liveness.live_sets.
  rewrite nth_error_map.
  destruct (nth_error nxorder k) as [n|] eqn:En.
  2:{ apply nth_error_None in En. lia. }
  rewrite (enumerate_nth_error _ _ _ En). reflexivity.
Qed.

Lemma live_sets_length (ispans nxorder : list nat) :
  length (Liveness.live_sets ispans nxorder) = length nxorder.
Proof.
  unfold Liveness.live_sets. now rewrite length_map, enumerate_length.
Qed.

(** Position [k] stays live after its own step, and the others are those of
    the step before whose span reaches further. *)
Lemma live_at_succ (ispans : list nat) (k : nat) :
  S k <= length ispans ->
  S k <= nth k ispans 0 ->
  Liveness.live_at ispans (S k) =
  filter (fun i => S k <=? nth i ispans 0) (Liveness.live_at ispans k) ++ [k].
Proof.
  intros Hle Hk. rewrite !live_at_filter by lia.
  rewrite seq_S, filter_app. cbn [Nat.add filter].
  apply Nat.leb_le in Hk. rewrite Hk. f_equal.
  symmetry. apply filter_refine.
  intros i Hi. apply Nat.leb_le in Hi. apply Nat.leb_le. lia.
Qed.

Section Spans.

Variable G : Nx.DiGraph.
Variable order : list nat.
Hypothesis Hwf : Nx.wf G.
Hypothesis Htopo : Nx.topological G order.

(** What [span_of] computes for a node of the order. *)
Lemma span_of_spec (n : nat) :
  In n order ->
  exists s, Liveness.span_of G order n = Ok s /\
    (Nx.succ G n = [] -> s = Nx.number_of_nodes G) /\
    (Nx.succ G n <> [] ->
       (exists v, In v (Nx.succ G n) /\ Py.find_index v order = Some s) /\
       (forall w j, In w (Nx.succ G n) -> Py.find_index w order = Some j ->
                    j <= s)).
Proof.
  intros Hn. unfold Liveness.span_of.
  set (pos := fun v => match Py.find_index v order with Some i => i | None => 0 end).
  assert (Hpos : forall v, In v (Nx.succ G n) ->
                           Py.find_index v order = Some (pos v)).
  { intros v Hv. apply in_succ in Hv.
    destruct (edge_positions _ _ Htopo _ _ Hv) as [i [j [_ [_ [_ [Hj _]]]]]].
    unfold pos. now rewrite Hj. }
  rewrite (mapM_ok (fun v => Py.index v order) pos).
  2:{ intros v Hv. unfold Py.index. now rewrite (Hpos v Hv). }
  simpl. rewrite length_map.
  destruct (Nx.succ G n) as [|v l] eqn:Es.
  - simpl. eexists. split; [reflexivity|]. split; [reflexivity|congruence].
  - destruct (max_nonempty (map pos (v :: l))) as [m Hm]; [discriminate|].
    exists m. split; [exact Hm|]. split; [discriminate|]. intros _.
    apply max_spec in Hm as [Hin Hmax]. split.
    + apply in_map_iff in Hin as [w [Hw Hin]]. exists w. split; [assumption|].
      rewrite <- Hw. now apply Hpos.
    + intros w j Hw Hj. rewrite (Hpos w Hw) in Hj. injection Hj as <-.
      apply Hmax. now apply in_map.
Qed.

(** [ispans_of] succeeds and lists the span of every position. *)
Lemma ispans_of_spec :
  exists ispans, Liveness.ispans_of G order = Ok ispans /\
    length ispans = length order /\
    forall i n, nth_error order i = Some n ->
      exists s, nth_error ispans i = Some s /\
                Liveness.span_of G order n = Ok s.
Proof.
  unfold Liveness.ispans_of.
  set (sp := fun n => match Liveness.span_of G order n with
                      | Ok s => s | Raise _ => 0 end).
  exists (map sp order). split; [|split].
  - apply mapM_ok. intros n Hn.
    destruct (span_of_spec n Hn) as [s [Hs _]]. unfold sp. now rewrite Hs.
  - apply length_map.
  - intros i n Hi. exists (sp n). split.
    + rewrite nth_error_map, Hi. reflexivity.
    + destruct (span_of_spec n (nth_error_In _ _ Hi)) as [s [Hs _]].
      unfold sp. now rewrite Hs.
Qed.

Variable ispans : list nat.
Hypothesis Hispans : Liveness.ispans_of G order = Ok ispans.

Lemma ispans_length : length ispans = length order.
Proof.
  destruct ispans_of_spec as [sp [E [Hlen _]]]. congruence.
Qed.

Lemma ispans_nth (i n : nat) :
  nth_error order i = Some n ->
  Liveness.span_of G order n = Ok (nth i ispans 0).
Proof.
  intros Hi. destruct ispans_of_spec as [sp [E [_ H]]].
  assert (sp = ispans) by congruence. subst sp.
  destruct (H i n Hi) as [s [Hs Hspan]].
  rewrite (nth_error_nth _ _ 0 Hs). exact Hspan.
Qed.

(** A span lies beyond its own position and never beyond the node count. *)
Lemma span_bounds (i : nat) :
  i < length order -> i < nth i ispans 0 <= length order.
Proof.
  intros Hi. destruct (nth_error order i) as [n|] eqn:En.
  2:{ apply nth_error_None in En. lia. }
  pose proof (ispans_nth _ _ En) as Hs.
  destruct (span_of_spec n (nth_error_In _ _ En)) as [s [Hs' [Hnil Hcons]]].
  rewrite Hs in Hs'. injection Hs' as <-.
  destruct (Nx.succ G n) as [|v l] eqn:Es.
  - rewrite Hnil by reflexivity. rewrite <- (order_length _ _ Hwf Htopo). lia.
  - destruct Hcons as [[w [Hw Hpos]] _]; [discriminate|].
    rewrite <- Es in Hw. apply in_succ in Hw.
    destruct (edge_positions _ _ Htopo _ _ Hw) as [a [b [Ha [_ [Ha' [Hb [Hlt Hb']]]]]]].
    rewrite Hpos in Hb. injection Hb as <-.
    rewrite (position_unique _ _ Htopo _ _ En) in Ha'. injection Ha' as <-. lia.
Qed.

(** An edge keeps its source live up to the position of its target. *)
Lemma span_covers_edge (u v i j : nat) :
  In (u, v) (Nx.edges G) ->
  Py.find_index u order = Some i -> Py.find_index v order = Some j ->
  j <= nth i ispans 0.
Proof.
  intros He Hi Hj.
  pose proof (find_index_nth_error _ _ _ Hi) as En.
  pose proof (ispans_nth _ _ En) as Hs.
  destruct (span_of_spec u (nth_error_In _ _ En)) as [s [Hs' [_ Hcons]]].
  rewrite Hs in Hs'. injection Hs' as <-.
  apply in_succ in He.
  destruct Hcons as [_ Hmax].
  - intros E. rewrite E in He. contradiction.
  - eapply Hmax; eassumption.
Qed.

(** A span that is a position is the position of a successor. *)
Lemma span_is_successor (i k u : nat) :
  nth_error order i = Some u -> nth i ispans 0 = k -> k < length order ->
  exists v, nth_error order k = Some v /\ In (u, v) (Nx.edges G).
Proof.
  intros En Hk Hlt.
  pose proof (ispans_nth _ _ En) as Hs. rewrite Hk in Hs.
  destruct (span_of_spec u (nth_error_In _ _ En)) as [s [Hs' [Hnil Hcons]]].
  rewrite Hs in Hs'. injection Hs' as <-.
  destruct (Nx.succ G u) as [|w l] eqn:Es.
  - rewrite Hnil in Hlt by reflexivity.
    rewrite <- (order_length _ _ Hwf Htopo) in Hlt. lia.
  - destruct Hcons as [[v [Hv Hpos]] _]; [discriminate|].
    exists v. split; [now apply find_index_nth_error|].
    rewrite <- Es in Hv. now apply in_succ.
Qed.

End Spans.

End LivenessFacts.

Import Py PyFacts NxFacts LivenessFacts.

Module DeleteFacts.

Lemma insert_desc_perm (x : nat) (l : list nat) :
  Permutation (Py.insert_desc x l) (x :: l).
Proof.
  induction l as [|y l IH]; simpl; [reflexivity|].
  destruct (y <=? x); [reflexivity|].
  rewrite IH. apply perm_swap.
Qed.

Lemma sort_desc_perm (l : list nat) : Permutation (Py.sort_desc l) l.
Proof.
  induction l as [|x l IH]; simpl; [reflexivity|].
  rewrite insert_desc_perm. now constructor.
Qed.

Lemma insert_desc_sorted (x : nat) (l : list nat) :
  descending l -> descending (Py.insert_desc x l).
Proof.
  unfold Py.descending. induction l as [|y l IH]; simpl; intros H.
  - repeat constructor.
  - inversion H as [|? ? Hl Hall]; subst.
    destruct (Nat.leb_spec y x) as [Hle|Hgt].
    + constructor; [assumption|]. constructor; [assumption|].
      eapply Forall_impl; [|exact Hall]. simpl. intros; lia.
    + constructor; [now apply IH|].
      eapply Permutation_Forall; [symmetry; apply insert_desc_perm|].
      constructor; [lia | assumption].
Qed.

Lemma sort_desc_sorted (l : list nat) : descending (Py.sort_desc l).
Proof.
  induction l as [|x l IH]; simpl; [constructor|].
  now apply insert_desc_sorted.
Qed.

Lemma remove_at_map {A B} (f : A -> B) (i : nat) (l : list A) :
  Py.remove_at i (map f l) = map f (Py.remove_at i l).
Proof.
  revert i. induction l as [|a l IH]; intros [|i]; simpl; try reflexivity.
  now rewrite IH.
Qed.

Lemma remove_at_length {A} (i : nat) (l : list A) :
  i < length l -> length (Py.remove_at i l) = length l - 1.
Proof.
  revert i. induction l as [|a l IH]; intros [|i]; simpl; intros H; try lia.
  rewrite IH by lia. lia.
Qed.

Lemma remove_at_nth_lt (i j : nat) (l : list nat) :
  j < i -> nth j (Py.remove_at i l) 0 = nth j l 0.
Proof.
  revert i j. induction l as [|a l IH]; intros [|i] [|j] H; simpl;
    try reflexivity; try lia.
  apply IH. lia.
Qed.

Lemma remove_at_filter (i : nat) (l : list nat) :
  NoDup l -> i < length l ->
  Py.remove_at i l = filter (fun e => negb (e =? nth i l 0)) l.
Proof.
  revert i. induction l as [|a l IH]; intros i Hnd Hi; [simpl in Hi; lia|].
  inversion Hnd as [|? ? Hnotin Hnd']; subst.
  destruct i as [|i]; simpl.
  - rewrite Nat.eqb_refl. simpl. symmetry. now apply filter_other.
  - simpl in Hi. destruct (Nat.eqb_spec a (nth i l 0)) as [E|Hne].
    + exfalso. apply Hnotin. rewrite E. apply nth_In. lia.
    + simpl. f_equal. apply IH; [assumption | lia].
Qed.

(** Deleting the indices [D], largest first, removes the elements that sat
    at those indices and nothing else. *)
Lemma delete_descending {A} (f : nat -> A) (D L : list nat) :
  descending D -> NoDup D -> (forall d, In d D -> d < length L) -> NoDup L ->
  Py.foldM Py.delitem D (map f L) =
  Ok (map f (filter (fun e => negb (Py.mem e (map (fun d => nth d L 0) D))) L)).
Proof.
  revert L. induction D as [|d D IH]; intros L Hs Hnd Hlt HL.
  - simpl. f_equal. f_equal. symmetry. now apply filter_all.
  - inversion Hs as [|? ? Hs' Hall]; subst.
    inversion Hnd as [|? ? Hnotin Hnd']; subst.
    assert (Hd : d < length L) by (apply Hlt; now left).
    assert (Hsmall : forall d', In d' D -> d' < d).
    { intros d' Hd'. pose proof (proj1 (Forall_forall _ _) Hall d' Hd').
      simpl in *. assert (d' <> d) by (intros ->; contradiction). lia. }
    cbn [Py.foldM]. unfold Py.delitem at 1. rewrite length_map.
    replace (d <? length L) with true by (symmetry; now apply Nat.ltb_lt).
    cbn [Py.bind]. rewrite remove_at_map.
    rewrite IH.
    + f_equal. f_equal.
      rewrite (map_ext_in (fun d' => nth d' (Py.remove_at d L) 0)
                          (fun d' => nth d' L 0)).
      2:{ intros d' Hd'. apply remove_at_nth_lt. now apply Hsmall. }
      rewrite (remove_at_filter d L) by assumption.
      rewrite filter_and. apply filter_ext. intros e. cbn [map Py.mem existsb].
      unfold Py.mem. rewrite negb_orb. reflexivity.
    + assumption.
    + assumption.
    + intros d' Hd'. rewrite remove_at_length by assumption.
      specialize (Hsmall d' Hd'). lia.
    + rewrite (remove_at_filter d L) by assumption. now apply NoDup_filter.
Qed.

(** The same for an unsorted list of distinct indices, sorted by the code. *)
Lemma delete_sorted {A} (f : nat -> A) (D L : list nat) :
  NoDup D -> (forall d, In d D -> d < length L) -> NoDup L ->
  Py.foldM Py.delitem (Py.sort_desc D) (map f L) =
  Ok (map f (filter (fun e => negb (Py.mem e (map (fun d => nth d L 0) D))) L)).
Proof.
  intros Hnd Hlt HL.
  rewrite delete_descending.
  - f_equal. f_equal. apply filter_ext. intros e. f_equal.
    apply eq_true_iff_eq. rewrite !mem_In.
    split; apply Permutation_in; apply Permutation_map;
      [apply sort_desc_perm | symmetry; apply sort_desc_perm].
  - apply sort_desc_sorted.
  - eapply Permutation_NoDup; [symmetry; apply sort_desc_perm | assumption].
  - intros d Hd. apply Hlt. eapply Permutation_in; [apply sort_desc_perm|assumption].
  - assumption.
Qed.

End DeleteFacts.

Import Py PyFacts NxFacts LivenessFacts DeleteFacts.

Module ExecutorFacts.

Lemma foldM_app {A S} (f : S -> A -> result S) (l1 l2 : list A) (s : S) :
  Py.foldM f (l1 ++ l2) s = Py.bind (Py.foldM f l1 s) (Py.foldM f l2).
Proof.
  revert s. induction l1 as [|a l1 IH]; intros s; simpl; [reflexivity|].
  destruct (f s a); simpl; [apply IH | reflexivity].
Qed.

Lemma firstn_snoc {A} (l : list A) (k : nat) (a : A) :
  nth_error l k = Some a -> firstn (S k) l = firstn k l ++ [a].
Proof.
  revert k. induction l as [|b l IH]; intros [|k] H; simpl in *;
    try discriminate.
  - now injection H as ->.
  - now rewrite (IH k H).
Qed.

Section Run.

Variable Buf : Type.
Variable Node : nat -> list Buf -> Buf.
Variable G : Nx.DiGraph.
Variable order : list nat.
Hypothesis Hwf : Nx.wf G.
Hypothesis Htopo : Nx.topological G order.
Hypothesis Hdense : forall n, In n (Nx.nodes G) -> n < Nx.number_of_nodes G.
Variable ispans : list nat.
Hypothesis Hispans : Liveness.ispans_of G order = Ok ispans.
Variable x : Buf.

Let net : RandomNet.RandomNetwork :=
  {| RandomNet.nxgraph := G;
     RandomNet.bottom_layer :=
       filter (fun n => Nx.out_degree G n =? 0) (Nx.nodes G);
     RandomNet.nmodules := length (Nx.nodes G);
     RandomNet.nxorder := order;
     RandomNet.live := Liveness.live_sets ispans order |}.

Let buf : nat -> Buf := RandomNet.buffer Node net x.
Let pos (p : nat) : nat :=
  match Py.find_index p order with Some i => i | None => 0 end.
Let slot (l : list nat) (i : nat) : nat :=
  match Py.find_index i l with Some j => j | None => 0 end.

Lemma buffers_length (k : nat) : length (RandomNet.buffers Node net x k) = k.
Proof.
  induction k as [|k IH]; simpl; [reflexivity|].
  rewrite length_app, IH. simpl. lia.
Qed.

Lemma buffers_nth (k p : nat) :
  p < k -> nth p (RandomNet.buffers Node net x k) x = buf p.
Proof.
  induction k as [|k IH]; intros Hp; [lia|].
  destruct (Nat.eq_dec p k) as [->|Hne]; [reflexivity|].
  cbn [RandomNet.buffers]. rewrite app_nth1 by (rewrite buffers_length; lia).
  apply IH. lia.
Qed.

Lemma pos_pred (p n k : nat) :
  nth_error order k = Some n -> In p (Nx.pred G n) ->
  Py.find_index p order = Some (pos p) /\ pos p < k /\
  nth_error order (pos p) = Some p /\ k <= nth (pos p) ispans 0.
Proof.
  intros Hk Hp. apply in_pred in Hp.
  destruct (edge_positions _ _ Htopo _ _ Hp) as [i [j [Hi [Hj [Hi' [Hj' [Hlt _]]]]]]].
  rewrite (position_unique _ _ Htopo _ _ Hk) in Hj'. injection Hj' as <-.
  unfold pos. rewrite Hi'. repeat split; try assumption.
  eapply (span_covers_edge G order Htopo ispans Hispans); try eassumption.
  now apply (position_unique G order Htopo).
Qed.

(** The buffer of a position is its node applied to the buffers of the
    positions of its predecessors. *)
Lemma buffer_unfold (k n : nat) :
  nth_error order k = Some n ->
  buf k = if Nx.in_degree G n =? 0 then Node n [x]
          else Node n (map (fun p => buf (pos p)) (Nx.pred G n)).
Proof.
  intros Hk. unfold buf at 1, RandomNet.buffer. cbn [RandomNet.buffers].
  rewrite app_nth2 by (rewrite buffers_length; lia).
  rewrite buffers_length, Nat.sub_diag. cbn [nth].
  unfold RandomNet.compute_at. cbn [RandomNet.nxorder RandomNet.nxgraph net].
  rewrite (nth_error_nth _ _ 0 Hk).
  destruct (Nx.in_degree G n =? 0); [reflexivity|]. f_equal.
  apply map_ext_in. intros p Hp.
  destruct (pos_pred p n k Hk Hp) as [Hf [Hlt _]].
  rewrite Hf. now apply buffers_nth.
Qed.

Section Step.

Variable k n : nat.
Hypothesis Hk : nth_error order k = Some n.

Let Lk := Liveness.live_at ispans k.
Let Lk' := Liveness.live_at ispans (S k).
Let guard := Py.int_is_not k (length order - 1).
Hypothesis Hguard : guard = true -> S k < length order.

Let dropped (p : nat) : bool := guard && negb (Py.mem (pos p) Lk').

Lemma k_lt : k < length order.
Proof. apply nth_error_Some. congruence. Qed.

Lemma k_le_ispans : k <= length ispans.
Proof.
  rewrite (ispans_length G order Htopo ispans Hispans).
  pose proof k_lt. lia.
Qed.

Lemma pos_in_live (p : nat) :
  In p (Nx.pred G n) ->
  Py.find_index (pos p) Lk = Some (slot Lk (pos p)) /\
  nth_error Lk (slot Lk (pos p)) = Some (pos p).
Proof.
  intros Hp. destruct (pos_pred p n k Hk Hp) as [_ [Hlt [_ Hspan]]].
  assert (Hin : In (pos p) Lk).
  { apply in_live_at; [apply k_le_ispans | lia]. }
  destruct (find_index_In _ _ Hin) as [j Hj].
  unfold slot. rewrite Hj. split; [reflexivity|].
  now apply find_index_nth_error.
Qed.

(** Lines 78-85 on a live list aligned with [outs]. *)
Lemma gather_preds (ps : list nat) (y0 : list Buf) (d0 : list nat) :
  (forall p, In p ps -> In p (Nx.pred G n)) ->
  Py.foldM (RandomNet.gather_pred net (map buf Lk) k) ps (y0, d0) =
  Ok (y0 ++ map (fun p => buf (pos p)) ps,
      d0 ++ map (fun p => slot Lk (pos p)) (filter dropped ps)).
Proof.
  revert y0 d0. induction ps as [|p ps IH]; intros y0 d0 Hps.
  - simpl. now rewrite !app_nil_r.
  - cbn [Py.foldM]. unfold RandomNet.gather_pred at 1.
    cbn [RandomNet.nxorder RandomNet.live net].
    assert (Hp : In p (Nx.pred G n)) by (apply Hps; now left).
    destruct (pos_pred p n k Hk Hp) as [Hf _].
    destruct (pos_in_live p Hp) as [Hslot Hnth].
    unfold Py.index. rewrite Hf. cbn [Py.bind].
    unfold Py.getitem at 1. rewrite (live_sets_nth _ _ _ k_lt). cbn [Py.bind].
    fold Lk. rewrite Hslot. cbn [Py.bind].
    unfold Py.getitem at 1. rewrite nth_error_map, Hnth. cbn [option_map Py.bind].
    fold guard.
    assert (E : (if guard
                 then (lv' <- Py.getitem (Liveness.live_sets ispans order) (k + 1) ;;
                       Ok (negb (Py.mem (pos p) lv')))
                 else Ok false) = Ok (dropped p)).
    { unfold dropped. destruct guard eqn:Eg; [|reflexivity].
      unfold Py.getitem. rewrite Nat.add_1_r.
      rewrite (live_sets_nth _ _ _ (Hguard eq_refl)). reflexivity. }
    rewrite E. cbn [Py.bind].
    rewrite IH by (intros q Hq; apply Hps; now right).
    cbn [filter map]. rewrite <- !app_assoc. cbn [app].
    destruct (dropped p); cbn [map]; rewrite <- ?app_assoc; reflexivity.
Qed.

Lemma node_in_range : (n <? length (Nx.nodes G)) = true.
Proof.
  apply Nat.ltb_lt. apply Hdense. apply Htopo.
  eapply nth_error_In; eassumption.
Qed.

Lemma NoDup_dropped_positions :
  NoDup (map pos (filter dropped (Nx.pred G n))).
Proof.
  apply NoDup_map_NoDup_ForallPairs.
  - intros p q Hp Hq E. apply filter_In in Hp as [Hp _].
    apply filter_In in Hq as [Hq _].
    destruct (pos_pred p n k Hk Hp) as [_ [_ [Hp' _]]].
    destruct (pos_pred q n k Hk Hq) as [_ [_ [Hq' _]]].
    rewrite E in Hp'. congruence.
  - apply NoDup_filter. apply NoDup_pred. apply Hwf.
Qed.

Lemma slots_back :
  map (fun d => nth d Lk 0)
      (map (fun p => slot Lk (pos p)) (filter dropped (Nx.pred G n))) =
  map pos (filter dropped (Nx.pred G n)).
Proof.
  rewrite map_map. apply map_ext_in. intros p Hp.
  apply filter_In in Hp as [Hp _].
  destruct (pos_in_live p Hp) as [_ Hnth].
  now apply nth_error_nth.
Qed.

(** Lines 72-96 on a live list aligned with [outs]: the buffers of the
    dropped predecessors leave, the new buffer is appended. *)
Lemma step_aligned :
  RandomNet.step Node net x (map buf Lk) (k, n) =
  Ok (map buf (filter (fun i => negb (Py.mem i (map pos (filter dropped (Nx.pred G n)))))
                      Lk ++ [k])).
Proof.
  unfold RandomNet.step. cbn [RandomNet.nmodules RandomNet.nxgraph net].
  rewrite node_in_range.
  set (D := map (fun p => slot Lk (pos p)) (filter dropped (Nx.pred G n))).
  assert (Hr : (if Nx.in_degree G n =? 0 then Ok (Node n [x], [])
                else (yd <- Py.foldM (RandomNet.gather_pred net (map buf Lk) k)
                                     (Nx.pred G n) ([], []) ;;
                      Ok (Node n (fst yd), snd yd))) = Ok (buf k, D)).
  { rewrite (buffer_unfold k n Hk).
    destruct (Nat.eqb_spec (Nx.in_degree G n) 0) as [Hz|Hnz].
    - apply in_degree_zero in Hz. unfold D. rewrite Hz. reflexivity.
    - rewrite gather_preds by auto. reflexivity. }
  rewrite Hr. cbn [Py.bind fst snd].
  assert (Hdel : (if Py.int_is_not (length D) 0
                  then Py.foldM Py.delitem (Py.sort_desc D) (map buf Lk)
                  else Ok (map buf Lk)) =
                 Py.foldM Py.delitem (Py.sort_desc D) (map buf Lk)).
  { destruct D as [|d D']; reflexivity. }
  rewrite Hdel. rewrite delete_sorted.
  - cbn [Py.bind]. unfold D. rewrite slots_back.
    rewrite map_app. reflexivity.
  - apply (NoDup_map_inv (fun d => nth d Lk 0)). unfold D.
    rewrite slots_back. apply NoDup_dropped_positions.
  - intros d Hd. unfold D in Hd. apply in_map_iff in Hd as [p [<- Hp]].
    apply filter_In in Hp as [Hp _].
    destruct (pos_in_live p Hp) as [Hf _].
    eapply find_index_lt; eassumption.
  - apply NoDup_live_at. apply k_le_ispans.
Qed.

(** A step that is not the last one leaves [outs] aligned with the next
    live list. *)
Lemma step_inner :
  S k < length order ->
  RandomNet.step Node net x (map buf Lk) (k, n) = Ok (map buf Lk').
Proof.
  intros Hlt. rewrite step_aligned. f_equal. f_equal.
  assert (Hg : guard = true).
  { unfold guard, Py.int_is_not, Py.int_is.
    replace (k =? length order - 1) with false
      by (symmetry; apply Nat.eqb_neq; lia).
    reflexivity. }
  pose proof (ispans_length G order Htopo ispans Hispans) as Hlen.
  pose proof (span_bounds G order Hwf Htopo ispans Hispans k k_lt) as Hkb.
  unfold Lk'. rewrite live_at_succ by lia. f_equal.
  apply filter_ext_in. intros i Hi.
  apply in_live_at in Hi; [|apply k_le_ispans]. destruct Hi as [Hik Hspan].
  apply eq_true_iff_eq. rewrite negb_true_iff, mem_false, Nat.leb_le.
  split.
  - intros Hnot. destruct (Nat.le_gt_cases (S k) (nth i ispans 0)) as [|Hgt];
      [assumption|]. exfalso. apply Hnot.
    assert (Hi : nth_error order i <> None) by (apply nth_error_Some; lia).
    destruct (nth_error order i) as [u|] eqn:Eu; [|congruence].
    destruct (span_is_successor G order Hwf Htopo ispans Hispans i k u Eu)
      as [v [Hv He]]; [lia | apply k_lt |].
    rewrite Hk in Hv. injection Hv as <-.
    apply in_pred in He. apply in_map_iff. exists u. split.
    + unfold pos. now rewrite (position_unique G order Htopo i u Eu).
    + apply filter_In. split; [assumption|].
      unfold dropped. rewrite Hg. cbn [andb]. apply negb_true_iff, mem_false.
      unfold pos. rewrite (position_unique G order Htopo i u Eu).
      fold Lk'. unfold Lk'. rewrite in_live_at by lia. lia.
  - intros Hle Hin. apply in_map_iff in Hin as [p [Hp Hin]].
    apply filter_In in Hin as [Hin Hd]. unfold dropped in Hd.
    apply andb_true_iff in Hd as [_ Hd]. apply negb_true_iff, mem_false in Hd.
    apply Hd. rewrite Hp. unfold Lk'. apply in_live_at; lia.
Qed.

(** The last step, on at most 257 nodes, deletes nothing. *)
Lemma step_last :
  guard = false ->
  RandomNet.step Node net x (map buf Lk) (k, n) = Ok (map buf (Lk ++ [k])).
Proof.
  intros Hg. rewrite step_aligned. f_equal. f_equal. f_equal.
  assert (E : filter dropped (Nx.pred G n) = []).
  { apply filter_none. intros p _. unfold dropped. now rewrite Hg. }
  rewrite E. apply filter_all. reflexivity.
Qed.

End Step.

(** [outs] at the start of step [k] holds the buffers of the positions of
    [live[k]], in the order of that list. *)
Lemma outs_at_aligned (k : nat) :
  k < length order ->
  RandomNet.outs_at Node net x k =
  Ok (map buf (Liveness.live_at ispans k)).
Proof.
  induction k as [|k IH]; intros Hk.
  - rewrite live_at_filter by lia. reflexivity.
  - unfold RandomNet.outs_at in *. cbn [RandomNet.nxorder net] in *.
    destruct (nth_error order k) as [n|] eqn:En.
    2:{ apply nth_error_None in En. lia. }
    rewrite (firstn_snoc _ _ _ (enumerate_nth_error _ _ _ En)).
    rewrite foldM_app, IH by lia. cbn [Py.bind Py.foldM].
    rewrite (step_inner k n En) by lia. reflexivity.
Qed.

(** On at most 257 nodes the loop ends holding the last live list and the
    last buffer, and [forward] averages them. *)
Lemma outs_at_end :
  0 < length order -> length order - 1 <= Py.small_int_max ->
  RandomNet.outs_at Node net x (length order) =
  Ok (map buf (Liveness.live_at ispans (length order - 1)
               ++ [length order - 1])).
Proof.
  intros Hpos Hsmall. set (k := length order - 1).
  replace (length order) with (S k) at 1 by (unfold k; lia).
  unfold RandomNet.outs_at. cbn [RandomNet.nxorder net].
  destruct (nth_error order k) as [n|] eqn:En.
  2:{ apply nth_error_None in En. unfold k in En. lia. }
  rewrite (firstn_snoc _ _ _ (enumerate_nth_error _ _ _ En)).
  rewrite foldM_app.
  pose proof (outs_at_aligned k) as Hal. unfold RandomNet.outs_at in Hal.
  cbn [RandomNet.nxorder net] in Hal. rewrite Hal by (unfold k; lia).
  cbn [Py.bind Py.foldM].
  rewrite (step_last k n En).
  - reflexivity.
  - intros Hg. exfalso. unfold Py.int_is_not, Py.int_is in Hg. fold k in Hg.
    rewrite Nat.eqb_refl in Hg.
    replace (k <=? Py.small_int_max) with true in Hg
      by (symmetry; apply Nat.leb_le; exact Hsmall).
    discriminate.
  - unfold Py.int_is_not, Py.int_is. fold k. rewrite Nat.eqb_refl.
    replace (k <=? Py.small_int_max) with true
      by (symmetry; apply Nat.leb_le; exact Hsmall).
    reflexivity.
Qed.

Lemma forward_result (mean : list Buf -> Buf) :
  0 < length order -> length order - 1 <= Py.small_int_max ->
  RandomNet.forward Node mean net x =
  Ok (mean (map buf (Liveness.live_at ispans (length order - 1)
                     ++ [length order - 1]))).
Proof.
  intros Hpos Hsmall. unfold RandomNet.forward.
  pose proof (outs_at_end Hpos Hsmall) as E. unfold RandomNet.outs_at in E.
  cbn [RandomNet.nxorder net] in *.
  rewrite firstn_all2 in E by (rewrite enumerate_length; lia). rewrite E.
  cbn [Py.bind]. rewrite map_app.
  destruct (map buf (Liveness.live_at ispans (length order - 1))); reflexivity.
Qed.

(** When the identity test of line 83 lets the last step through, the first
    predecessor makes it read [live] one past its end. *)
Lemma gather_pred_past_end (k n : nat) (acc : list Buf * list nat) (p : nat) :
  nth_error order k = Some n ->
  Py.int_is_not k (length order - 1) = true -> S k = length order ->
  In p (Nx.pred G n) ->
  RandomNet.gather_pred net (map buf (Liveness.live_at ispans k)) k acc p =
  Raise IndexError.
Proof.
  intros Hk Hg Hend Hp. destruct acc as [y to_delete].
  unfold RandomNet.gather_pred. cbn [RandomNet.nxorder RandomNet.live net].
  destruct (pos_pred p n k Hk Hp) as [Hf [Hlt [_ Hspan]]].
  pose proof (ispans_length G order Htopo ispans Hispans) as Hlen.
  assert (Hin : In (pos p) (Liveness.live_at ispans k)).
  { apply in_live_at; lia. }
  destruct (find_index_In _ _ Hin) as [j Hj].
  pose proof (find_index_nth_error _ _ _ Hj) as Hnth.
  unfold Py.index. rewrite Hf. cbn [Py.bind].
  unfold Py.getitem at 1. rewrite live_sets_nth by lia. cbn [Py.bind].
  rewrite Hj. cbn [Py.bind].
  unfold Py.getitem at 1. rewrite nth_error_map, Hnth. cbn [option_map Py.bind].
  rewrite Hg. unfold Py.getitem.
  replace (nth_error (Liveness.live_sets ispans order) (k + 1)) with (@None (list nat)).
  - reflexivity.
  - symmetry. apply nth_error_None. rewrite live_sets_length. lia.
Qed.

Lemma step_past_end (k n : nat) :
  nth_error order k = Some n ->
  Py.int_is_not k (length order - 1) = true -> S k = length order ->
  Nx.pred G n <> [] ->
  RandomNet.step Node net x (map buf (Liveness.live_at ispans k)) (k, n) =
  Raise IndexError.
Proof.
  intros Hk Hg Hend Hpred. unfold RandomNet.step.
  cbn [RandomNet.nmodules RandomNet.nxgraph net].
  assert (Hrange : (n <? length (Nx.nodes G)) = true).
  { apply Nat.ltb_lt. apply Hdense. apply Htopo.
    eapply nth_error_In; eassumption. }
  rewrite Hrange.
  destruct (Nat.eqb_spec (Nx.in_degree G n) 0) as [Hz|_].
  { apply in_degree_zero in Hz. contradiction. }
  destruct (Nx.pred G n) as [|p ps] eqn:Ep; [contradiction|].
  cbn [Py.foldM].
  rewrite (gather_pred_past_end k n); [reflexivity | assumption | assumption
                                       | assumption |].
  rewrite Ep. now left.
Qed.

(** Beyond 257 nodes the last step fails as soon as the last node has a
    predecessor. *)
Lemma forward_past_small_ints (mean : list Buf -> Buf) (n : nat) :
  Py.small_int_max < length order - 1 ->
  nth_error order (length order - 1) = Some n -> Nx.pred G n <> [] ->
  RandomNet.forward Node mean net x = Raise IndexError.
Proof.
  intros Hbig Hn Hpred. set (k := length order - 1) in *.
  assert (Hend : S k = length order) by (unfold k in *; lia).
  unfold RandomNet.forward. cbn [RandomNet.nxorder net].
  rewrite <- (firstn_all (Py.enumerate order)), enumerate_length, <- Hend.
  rewrite (firstn_snoc _ _ _ (enumerate_nth_error _ _ _ Hn)).
  rewrite foldM_app.
  pose proof (outs_at_aligned k) as Hal. unfold RandomNet.outs_at in Hal.
  cbn [RandomNet.nxorder net] in Hal. rewrite Hal by lia.
  cbn [Py.bind Py.foldM].
  rewrite (step_past_end k n Hn); [reflexivity | | assumption | assumption].
  unfold Py.int_is_not, Py.int_is. rewrite <- Hend. cbn [Nat.sub].
  rewrite Nat.sub_0_r, Nat.eqb_refl.
  replace (k <=? Py.small_int_max) with false
    by (symmetry; apply Nat.leb_gt; exact Hbig).
  reflexivity.
Qed.

End Run.

End ExecutorFacts.

Import Py PyFacts NxFacts LivenessFacts.

(** * Topological sorting *)

Module SortFacts.

Ltac eqb_cases :=
  repeat match goal with
         | |- context [?a =? ?b] => destruct (Nat.eqb_spec a b)
         end;
  try reflexivity; try congruence; try lia.

Lemma lookup_store (m : Nx.imap) (k d k' : nat) :
  Nx.lookup (Nx.store m k d) k' =
  if k' =? k then match Nx.lookup m k with Some _ => Some d | None => None end
  else Nx.lookup m k'.
Proof.
  induction m as [|[a b] m IH]; simpl.
  - now destruct (k' =? k).
  - destruct (Nat.eqb_spec a k) as [Eak|Hak]; simpl; rewrite IH; eqb_cases.
Qed.

Lemma lookup_remove_key (m : Nx.imap) (k k' : nat) :
  Nx.lookup (Nx.remove_key m k) k' =
  if k' =? k then None else Nx.lookup m k'.
Proof.
  induction m as [|[a b] m IH]; simpl.
  - now destruct (k' =? k).
  - destruct (Nat.eqb_spec a k) as [Eak|Hak]; simpl; rewrite IH; eqb_cases.
Qed.

Lemma lookup_none_nil (m : Nx.imap) :
  (forall k, Nx.lookup m k = None) -> m = [].
Proof.
  destruct m as [|[a b] m]; [reflexivity|]. intros H.
  specialize (H a). simpl in H. rewrite Nat.eqb_refl in H. discriminate.
Qed.

Lemma lookup_initial (f : nat -> nat) (l : list nat) (v : nat) :
  Nx.lookup (filter (fun vd => 0 <? snd vd) (map (fun v => (v, f v)) l)) v =
  if Py.mem v l && (0 <? f v) then Some (f v) else None.
Proof.
  induction l as [|a l IH]; [reflexivity|].
  cbn [map filter snd Py.mem existsb]. fold (Py.mem v l).
  destruct (Nat.eqb_spec v a) as [E|Hne].
  - subst a. cbn [orb andb]. destruct (0 <? f v) eqn:E0.
    + cbn [Nx.lookup]. now rewrite Nat.eqb_refl.
    + rewrite IH. now rewrite andb_false_r.
  - cbn [orb]. destruct (0 <? f a); [|exact IH].
    cbn [Nx.lookup]. destruct (Nat.eqb_spec a v); [congruence | exact IH].
Qed.

Lemma pop_last_fair : Nx.fair Nx.pop_last.
Proof.
  intros l. unfold Nx.pop_last. destruct (rev l) as [|a r] eqn:E.
  - apply (f_equal (@rev nat)) in E. now rewrite rev_involutive in E.
  - apply (f_equal (@rev nat)) in E. rewrite rev_involutive in E. subst l.
    simpl. apply Permutation_sym, Permutation_cons_append.
Qed.

Lemma pop_first_fair : Nx.fair Nx.pop_first.
Proof. intros [|a l]; simpl; reflexivity. Qed.

Lemma fold_min_spec (l : list nat) (a : nat) :
  In (fold_left Nat.min l a) (a :: l) /\
  forall b, In b (a :: l) -> fold_left Nat.min l a <= b.
Proof.
  revert a. induction l as [|c l IH]; intros a; simpl.
  - split; [now left|]. intros b [<-|[]]. lia.
  - destruct (IH (Nat.min a c)) as [Hin Hle]. split.
    + destruct Hin as [Hin|Hin]; [|right; right; exact Hin].
      destruct (Nat.min_spec a c) as [[_ E]|[_ E]]; rewrite E in *;
        [left; exact Hin | right; left; exact Hin].
    + pose proof (Hle _ (or_introl eq_refl)) as Hm.
      intros b [<-|[<-|Hb]]; [lia | lia | apply Hle; now right].
Qed.

Lemma remove_first_perm (a : nat) (l : list nat) :
  In a l -> Permutation l (a :: Nx.remove_first a l).
Proof.
  induction l as [|b l IH]; simpl; [tauto|]. intros H.
  destruct (Nat.eqb_spec b a) as [->|Hne]; [reflexivity|].
  destruct H as [H|H]; [congruence|].
  rewrite (IH H) at 1. apply perm_swap.
Qed.

Lemma pop_min_fair : Nx.fair Nx.pop_min.
Proof.
  intros [|a l]; simpl; [reflexivity|].
  apply (remove_first_perm _ (a :: l)). apply fold_min_spec.
Qed.

Lemma pop_min_least (l r : list nat) (m : nat) :
  Nx.pop_min l = Some (m, r) -> forall b, In b l -> m <= b.
Proof.
  destruct l as [|a l]; simpl; [discriminate|]. intros H. injection H as <- _.
  apply fold_min_spec.
Qed.

Lemma find_index_app_l (x : nat) (l l' : list nat) (i : nat) :
  Py.find_index x l = Some i -> Py.find_index x (l ++ l') = Some i.
Proof.
  revert i. induction l as [|a l IH]; simpl; intros i H; [discriminate|].
  destruct (a =? x); [assumption|].
  destruct (Py.find_index x l) as [j|]; [|discriminate].
  now rewrite (IH j eq_refl).
Qed.

Lemma find_index_app_r (x : nat) (l l' : list nat) :
  ~ In x l ->
  Py.find_index x (l ++ l') = option_map (Nat.add (length l)) (Py.find_index x l').
Proof.
  induction l as [|a l IH]; simpl; intros H.
  - now destruct (Py.find_index x l').
  - destruct (Nat.eqb_spec a x) as [E|Hne]; [tauto|].
    rewrite IH by tauto. now destruct (Py.find_index x l').
Qed.

Lemma before_app (l l' : list nat) (u v : nat) :
  Nx.before l u v -> Nx.before (l ++ l') u v.
Proof.
  intros [i [j [Hi [Hj Hlt]]]]. exists i, j.
  repeat split; auto using find_index_app_l.
Qed.

Lemma before_snoc (l : list nat) (u v : nat) :
  In u l -> ~ In v l -> Nx.before (l ++ [v]) u v.
Proof.
  intros Hu Hv. destruct (find_index_In _ _ Hu) as [i Hi].
  exists i, (length l). split; [now apply find_index_app_l|]. split.
  - rewrite find_index_app_r by assumption. simpl. rewrite Nat.eqb_refl.
    simpl. f_equal. lia.
  - eapply find_index_lt; eassumption.
Qed.

Section Kahn.

Variable G : Nx.DiGraph.
Hypothesis Hwf : Nx.wf G.

Lemma remaining_nil (v : nat) : Nx.remaining G [] v = Nx.in_degree G v.
Proof.
  unfold Nx.remaining, Nx.in_degree. f_equal.
  apply filter_all. reflexivity.
Qed.

Lemma remaining_zero (out : list nat) (v : nat) :
  Nx.remaining G out v = 0 <-> forall u, In (u, v) (Nx.edges G) -> In u out.
Proof.
  unfold Nx.remaining. rewrite length_zero_iff_nil. split.
  - intros H u Hu. apply in_pred in Hu.
    destruct (Py.mem u out) eqn:E; [now apply mem_In|].
    assert (Hin : In u (filter (fun p => negb (Py.mem p out)) (Nx.pred G v))).
    { apply filter_In. split; [assumption|]. now rewrite E. }
    rewrite H in Hin. contradiction.
  - intros H. apply filter_none. intros u Hu.
    apply in_pred in Hu. apply H in Hu. apply mem_In in Hu. now rewrite Hu.
Qed.

Lemma count_snoc (out l : list nat) (node : nat) :
  ~ In node out -> NoDup l ->
  length (filter (fun p => negb (Py.mem p out)) l) =
  length (filter (fun p => negb (Py.mem p (out ++ [node]))) l)
  + (if Py.mem node l then 1 else 0).
Proof.
  intros Hout. induction l as [|a l IH]; intros Hnd; [reflexivity|].
  inversion Hnd as [|? ? Hnotin Hnd']; subst.
  specialize (IH Hnd'). cbn [filter Py.mem existsb]. fold (Py.mem node l).
  assert (Ha : Py.mem a (out ++ [node]) = Py.mem a out || (a =? node)).
  { unfold Py.mem. rewrite existsb_app. simpl. now rewrite orb_false_r. }
  rewrite Ha. destruct (Nat.eqb_spec node a) as [E|Hne].
  - subst a. rewrite Nat.eqb_refl, orb_true_r. cbn [negb orb].
    apply mem_false in Hout. rewrite Hout. cbn [negb length].
    apply mem_false in Hnotin. rewrite Hnotin in IH. lia.
  - replace (a =? node) with false by (symmetry; apply Nat.eqb_neq; congruence).
    rewrite orb_false_r. cbn [orb].
    destruct (negb (Py.mem a out)); cbn [length]; lia.
Qed.

Lemma remaining_snoc (out : list nat) (node v : nat) :
  ~ In node out ->
  Nx.remaining G out v =
  Nx.remaining G (out ++ [node]) v + (if Py.mem v (Nx.succ G node) then 1 else 0).
Proof.
  intros Hout. unfold Nx.remaining.
  rewrite (count_snoc out (Nx.pred G v) node Hout (NoDup_pred G v (proj1 (proj2 Hwf)))).
  f_equal. assert (E : Py.mem node (Nx.pred G v) = Py.mem v (Nx.succ G node)).
  { apply eq_true_iff_eq. now rewrite !mem_In, in_pred, in_succ. }
  now rewrite E.
Qed.

(** The [for] loop over the children, in closed form: every child loses one
    pending predecessor, and those left with none join the ready list. *)
Lemma visit_children (d : nat -> nat) (cs zero : list nat) (indeg : Nx.imap) :
  NoDup cs ->
  (forall c, In c cs -> Nx.lookup indeg c = Some (d c) /\ 0 < d c) ->
  exists indeg',
    Py.foldM Nx.visit_child cs (zero, indeg) =
    Ok (zero ++ filter (fun c => d c =? 1) cs, indeg') /\
    forall v, Nx.lookup indeg' v =
              if Py.mem v cs
              then (if d v =? 1 then None else Some (d v - 1))
              else Nx.lookup indeg v.
Proof.
  revert zero indeg. induction cs as [|c cs IH]; intros zero indeg Hnd Hd.
  - exists indeg. simpl. now rewrite app_nil_r.
  - inversion Hnd as [|? ? Hnotin Hnd']; subst.
    destruct (Hd c (or_introl eq_refl)) as [Hc Hpos].
    cbn [Py.foldM]. unfold Nx.visit_child at 1. rewrite Hc.
    set (indeg1 := if d c - 1 =? 0
                   then Nx.remove_key (Nx.store indeg c (d c - 1)) c
                   else Nx.store indeg c (d c - 1)).
    set (zero1 := if d c - 1 =? 0 then zero ++ [c] else zero).
    assert (E1 : (if d c - 1 =? 0
                  then Ok (zero ++ [c], Nx.remove_key (Nx.store indeg c (d c - 1)) c)
                  else Ok (zero, Nx.store indeg c (d c - 1))) = Ok (zero1, indeg1)).
    { unfold zero1, indeg1. now destruct (d c - 1 =? 0). }
    rewrite E1. cbn [Py.bind].
    assert (L1 : forall v, Nx.lookup indeg1 v =
                           if v =? c then (if d c =? 1 then None else Some (d c - 1))
                           else Nx.lookup indeg v).
    { intros v. unfold indeg1.
      destruct (Nat.eqb_spec (d c - 1) 0) as [E0|E0].
      - rewrite lookup_remove_key, lookup_store.
        destruct (Nat.eqb_spec v c); [|reflexivity].
        destruct (Nat.eqb_spec (d c) 1); [reflexivity | lia].
      - rewrite lookup_store, Hc.
        destruct (Nat.eqb_spec v c); [|reflexivity].
        destruct (Nat.eqb_spec (d c) 1); [lia | reflexivity]. }
    destruct (IH zero1 indeg1 Hnd') as [indeg' [Hrun Hlook]].
    { intros c' Hc'. rewrite L1.
      destruct (Nat.eqb_spec c' c) as [E|_]; [subst; contradiction|].
      apply Hd. now right. }
    exists indeg'. split.
    + rewrite Hrun. f_equal. f_equal. unfold zero1. cbn [filter].
      destruct (Nat.eqb_spec (d c - 1) 0) as [E0|E0];
        destruct (Nat.eqb_spec (d c) 1) as [E1'|E1']; try lia.
      * now rewrite <- app_assoc.
      * reflexivity.
    + intros v. rewrite Hlook, L1. cbn [Py.mem existsb]. fold (Py.mem v cs).
      destruct (Py.mem v cs) eqn:Em.
      * now rewrite orb_true_r.
      * rewrite orb_false_r. destruct (Nat.eqb_spec v c) as [E|_]; [|reflexivity].
        subst. reflexivity.
Qed.

Lemma initial_inv :
  Nx.kahn_inv G
    (filter (fun v => Nx.in_degree G v =? 0) (Nx.nodes G))
    (filter (fun vd => 0 <? snd vd)
            (map (fun v => (v, Nx.in_degree G v)) (Nx.nodes G)))
    [].
Proof.
  constructor.
  - simpl. apply NoDup_filter. apply Hwf.
  - intros v. simpl. rewrite filter_In, remaining_nil, Nat.eqb_eq. reflexivity.
  - intros v. rewrite lookup_initial, remaining_nil. reflexivity.
  - intros u v _ [].
Qed.

(** One iteration of the [while] loop keeps the invariant. *)
Lemma kahn_step (zero : list nat) (indeg : Nx.imap) (out : list nat)
  (node : nat) (rest : list nat) :
  Nx.kahn_inv G zero indeg out ->
  Permutation zero (node :: rest) ->
  exists zero' indeg',
    Py.foldM Nx.visit_child (Nx.succ G node) (rest, indeg) = Ok (zero', indeg') /\
    Nx.kahn_inv G zero' indeg' (out ++ [node]).
Proof.
  intros [Hnd Hready Hindeg Hprefix] Hperm.
  assert (Hnode_zero : In node zero).
  { eapply Permutation_in; [symmetry; exact Hperm | now left]. }
  assert (Hnode_out : ~ In node out).
  { intros Hin. exact (NoDup_app_disjoint _ _ _ Hnd Hin Hnode_zero). }
  assert (Hsucc : forall c, In c (Nx.succ G node) ->
                            In c (Nx.nodes G) /\ 0 < Nx.remaining G out c).
  { intros c Hc. split.
    - apply in_succ in Hc. now apply Hwf in Hc.
    - rewrite (remaining_snoc out node c Hnode_out).
      apply mem_In in Hc. rewrite Hc. lia. }
  destruct (visit_children (Nx.remaining G out) (Nx.succ G node) rest indeg)
    as [indeg' [Hrun Hlook]].
  { apply NoDup_succ. apply Hwf. }
  { intros c Hc. destruct (Hsucc c Hc) as [Hn Hpos]. split; [|assumption].
    rewrite Hindeg. apply mem_In in Hn. rewrite Hn.
    apply Nat.ltb_lt in Hpos. now rewrite Hpos. }
  eexists. exists indeg'. split; [exact Hrun|].
  set (newly := filter (fun c => Nx.remaining G out c =? 1) (Nx.succ G node)).
  assert (Hmember : forall v, In v ((out ++ [node]) ++ rest ++ newly) <->
                              In v (out ++ zero) \/ In v newly).
  { intros v. rewrite !in_app_iff. cbn [In].
    assert (Hz : In v zero <-> node = v \/ In v rest).
    { split; intros H.
      - apply (Permutation_in _ Hperm) in H. exact H.
      - apply (Permutation_in _ (Permutation_sym Hperm)). exact H. }
    rewrite Hz. tauto. }
  constructor.
  - (* nothing twice *)
    apply (Permutation_NoDup (l := (out ++ zero) ++ newly)).
    + rewrite <- !app_assoc. apply Permutation_app_head.
      rewrite Hperm. cbn [app]. apply perm_skip. reflexivity.
    + apply NoDup_app; [assumption | apply NoDup_filter, NoDup_succ, Hwf |].
      intros v Hv Hnew. apply filter_In in Hnew as [_ Hone].
      apply Nat.eqb_eq in Hone. apply Hready in Hv. lia.
  - (* yielded or ready = no predecessor pending *)
    intros v. rewrite Hmember.
    pose proof (remaining_snoc out node v Hnode_out) as Hrem. split.
    + intros [Hv|Hv].
      * apply Hready in Hv as [Hn Hz]. split; [assumption | lia].
      * apply filter_In in Hv as [Hv Hone]. apply Nat.eqb_eq in Hone.
        split; [now apply Hsucc|]. apply mem_In in Hv. rewrite Hv in Hrem. lia.
    + intros [Hn Hz]. destruct (Py.mem v (Nx.succ G node)) eqn:Em.
      * right. apply filter_In. split; [now apply mem_In|].
        apply Nat.eqb_eq. lia.
      * left. apply Hready. split; [assumption | lia].
  - (* the map *)
    intros v. rewrite Hlook.
    pose proof (remaining_snoc out node v Hnode_out) as Hrem.
    destruct (Py.mem v (Nx.succ G node)) eqn:Em.
    + apply mem_In in Em. destruct (Hsucc v Em) as [Hn Hpos].
      apply mem_In in Hn. rewrite Hn. cbn [andb].
      destruct (Nat.eqb_spec (Nx.remaining G out v) 1) as [E1|E1].
      * replace (Nx.remaining G (out ++ [node]) v) with 0 by lia. reflexivity.
      * replace (0 <? Nx.remaining G (out ++ [node]) v) with true
          by (symmetry; apply Nat.ltb_lt; lia).
        f_equal. lia.
    + rewrite Hindeg. replace (Nx.remaining G (out ++ [node]) v)
        with (Nx.remaining G out v) by lia. reflexivity.
  - (* edges into yielded nodes *)
    intros u v Huv Hv. apply in_app_iff in Hv as [Hv|[<-|[]]].
    + apply before_app. now apply Hprefix.
    + apply before_snoc; [|assumption].
      assert (Hz : Nx.remaining G out node = 0).
      { apply Hready. apply in_app_iff. now right. }
      rewrite remaining_zero in Hz. now apply Hz.
Qed.

Section Loop.

Variable pop : list nat -> option (nat * list nat).
Hypothesis Hpop : Nx.fair pop.

(** With as much fuel as nodes not yet yielded, the loop runs to its end
    without an exception and extends what it had yielded. *)
Lemma kahn_loop_total (fuel : nat) :
  forall zero indeg out,
    Nx.kahn_inv G zero indeg out ->
    Nx.number_of_nodes G <= fuel + length out ->
    exists out' indeg',
      Nx.kahn_loop pop G fuel zero indeg out = Some (Ok (out', indeg')) /\
      Nx.kahn_inv G [] indeg' out' /\
      exists t, out' = out ++ t.
Proof.
  induction fuel as [|fuel IH]; intros zero indeg out Hinv Hfuel;
    pose proof (Hpop zero) as Hp;
    destruct (pop zero) as [[node rest]|] eqn:Ep.
  - exfalso.
    assert (Hlen : length (out ++ zero) <= Nx.number_of_nodes G).
    { apply NoDup_incl_length; [apply Hinv|].
      intros v Hv. now apply (Nx.inv_ready Hinv) in Hv. }
    rewrite length_app, (Permutation_length Hp) in Hlen. simpl in Hlen. lia.
  - subst zero. exists out, indeg. simpl. rewrite Ep.
    split; [reflexivity|]. split; [assumption|]. exists []. now rewrite app_nil_r.
  - destruct (kahn_step zero indeg out node rest Hinv Hp)
      as [zero' [indeg' [Hrun Hinv']]].
    destruct (IH zero' indeg' (out ++ [node]) Hinv') as [out' [indeg'' [Hloop [Hfin [t Ht]]]]].
    { rewrite length_app. simpl. lia. }
    exists out', indeg''. simpl. rewrite Ep, Hrun.
    split; [assumption|]. split; [assumption|].
    exists (node :: t). rewrite Ht, <- app_assoc. reflexivity.
  - subst zero. exists out, indeg. simpl. rewrite Ep.
    split; [reflexivity|]. split; [assumption|]. exists []. now rewrite app_nil_r.
Qed.

(** The fuel [kahn] gives the loop is never used up. *)
Lemma kahn_fuel_suffices :
  exists out indeg,
    Nx.kahn_loop pop G (Nx.number_of_nodes G)
      (filter (fun v => Nx.in_degree G v =? 0) (Nx.nodes G))
      (filter (fun vd => 0 <? snd vd)
              (map (fun v => (v, Nx.in_degree G v)) (Nx.nodes G)))
      [] = Some (Ok (out, indeg)).
Proof.
  destruct (kahn_loop_total (Nx.number_of_nodes G) _ _ [] initial_inv)
    as [out [indeg [Hloop _]]]; [simpl; lia|].
  now exists out, indeg.
Qed.

(** When the loop ends on a graph that has a topological order, every node
    has been yielded and the map is empty. *)
Lemma kahn_complete (indeg : Nx.imap) (out sigma : list nat) :
  Nx.kahn_inv G [] indeg out -> Nx.topological G sigma ->
  (forall v, In v (Nx.nodes G) -> In v out) /\ indeg = [].
Proof.
  intros Hinv Hsigma.
  assert (Hpos : forall i v, nth_error sigma i = Some v -> In v out).
  { induction i as [i IHi] using lt_wf_ind. intros v Hv.
    pose proof (Nx.inv_ready Hinv v) as Hr. rewrite app_nil_r in Hr.
    apply Hr. split.
    - apply Hsigma. eapply nth_error_In; eassumption.
    - apply remaining_zero. intros u Hu.
      destruct (edge_positions G sigma Hsigma u v Hu)
        as [a [b [Ha [_ [_ [Hb [Hlt _]]]]]]].
      rewrite (position_unique G sigma Hsigma i v Hv) in Hb.
      injection Hb as <-. exact (IHi a Hlt u Ha). }
  assert (Hall : forall v, In v (Nx.nodes G) -> In v out).
  { intros v Hv. apply Hsigma in Hv. apply In_nth_error in Hv as [i Hi].
    exact (Hpos i v Hi). }
  split; [assumption|].
  apply lookup_none_nil. intros v. rewrite (Nx.inv_indeg Hinv).
  destruct (Py.mem v (Nx.nodes G)) eqn:Em; [|reflexivity].
  apply mem_In in Em. pose proof (Nx.inv_ready Hinv v) as Hr.
  rewrite app_nil_r in Hr. apply Hall, Hr in Em as [_ Hz]. now rewrite Hz.
Qed.

(** The sort returns a topological order of every graph that has one. *)
Lemma kahn_valid (sigma : list nat) :
  Nx.topological G sigma ->
  exists out, Nx.kahn pop G = Ok out /\ Nx.topological G out.
Proof.
  intros Hsigma. unfold Nx.kahn.
  destruct (kahn_loop_total (Nx.number_of_nodes G) _ _ [] initial_inv)
    as [out [indeg [Hloop [Hinv _]]]]; [simpl; lia|].
  rewrite Hloop.
  destruct (kahn_complete indeg out sigma Hinv Hsigma) as [Hall ->].
  exists out. split; [reflexivity|].
  pose proof (Nx.inv_nodup Hinv) as Hnd. rewrite app_nil_r in Hnd.
  split; [assumption|]. split.
  - intros n. split; [|apply Hall].
    intros Hn. pose proof (Nx.inv_ready Hinv n) as Hr. rewrite app_nil_r in Hr.
    now apply Hr.
  - intros u v Huv. apply (Nx.inv_prefix Hinv u v Huv). apply Hall.
    now apply Hwf in Huv.
Qed.

(** The loop only appends to what it has yielded. *)
Lemma kahn_loop_extends (fuel : nat) :
  forall zero indeg out out' indeg',
    Nx.kahn_loop pop G fuel zero indeg out = Some (Ok (out', indeg')) ->
    exists t, out' = out ++ t.
Proof.
  induction fuel as [|fuel IH]; intros zero indeg out out' indeg' H;
    simpl in H; destruct (pop zero) as [[node rest]|].
  - discriminate.
  - injection H as <- _. exists []. now rewrite app_nil_r.
  - destruct (Py.foldM Nx.visit_child (Nx.succ G node) (rest, indeg))
      as [[zero1 indeg1]|e]; [|discriminate].
    destruct (IH _ _ _ _ _ H) as [t Ht]. exists (node :: t).
    rewrite Ht, <- app_assoc. reflexivity.
  - injection H as <- _. exists []. now rewrite app_nil_r.
Qed.

End Loop.

Lemma lex_le_app_head (p l1 l2 : list nat) :
  Nx.lex_le l1 l2 -> Nx.lex_le (p ++ l1) (p ++ l2).
Proof.
  intros H. induction p as [|a p IH]; simpl; [assumption|].
  now apply Nx.lex_eq.
Qed.

Lemma lex_le_cons_inv (a b : nat) (l1 l2 : list nat) :
  Nx.lex_le (a :: l1) (b :: l2) -> a < b \/ (a = b /\ Nx.lex_le l1 l2).
Proof. intros H. inversion H; subst; auto. Qed.

Lemma lex_le_prefix (l t : list nat) : Nx.lex_le l (l ++ t).
Proof.
  rewrite <- (app_nil_r l) at 1. apply lex_le_app_head. constructor.
Qed.

(** Taking the least ready node each time yields an order that no
    topological order extending the same prefix undercuts. *)
Lemma kahn_loop_least (fuel : nat) :
  forall zero indeg out tau out' indeg',
    Nx.kahn_inv G zero indeg out ->
    Nx.topological G (out ++ tau) ->
    Nx.kahn_loop Nx.pop_min G fuel zero indeg out = Some (Ok (out', indeg')) ->
    Nx.lex_le out' (out ++ tau).
Proof.
  induction fuel as [|fuel IH]; intros zero indeg out tau out' indeg' Hinv Htau H;
    pose proof (pop_min_fair zero) as Hp;
    pose proof (pop_min_least zero) as Hleast;
    simpl in H; destruct (Nx.pop_min zero) as [[m rest]|].
  - discriminate.
  - injection H as <- _. apply lex_le_prefix.
  - destruct (kahn_step zero indeg out m rest Hinv Hp)
      as [zero1 [indeg1 [Hrun Hinv1]]].
    rewrite Hrun in H.
    assert (Hm_zero : In m zero).
    { eapply Permutation_in; [symmetry; exact Hp | now left]. }
    assert (Hm_out : ~ In m out).
    { intros Hin. exact (NoDup_app_disjoint _ _ _ (Nx.inv_nodup Hinv) Hin Hm_zero). }
    destruct tau as [|s tau].
    + exfalso. apply Hm_out. rewrite app_nil_r in Htau. apply Htau.
      assert (Hin : In m (out ++ zero)) by (apply in_app_iff; now right).
      now apply (Nx.inv_ready Hinv) in Hin.
    + destruct Htau as [Hnd [Hsame Hfwd]].
      assert (Hs_out : ~ In s out).
      { intros Hin. apply (NoDup_app_disjoint _ _ s Hnd Hin). now left. }
      assert (Hs_zero : In s zero).
      { assert (Hin : In s (out ++ zero)).
        { apply (Nx.inv_ready Hinv). split.
          - apply Hsame. apply in_app_iff. right. now left.
          - apply remaining_zero. intros u Hu.
            destruct (Hfwd u s Hu) as [i [j [Hi [Hj Hlt]]]].
            rewrite find_index_app_r in Hj by assumption.
            simpl in Hj. rewrite Nat.eqb_refl in Hj. simpl in Hj.
            injection Hj as <-. rewrite Nat.add_0_r in Hlt.
            apply find_index_nth_error in Hi.
            rewrite nth_error_app1 in Hi by assumption.
            eapply nth_error_In; eassumption. }
        apply in_app_iff in Hin as [Hin|Hin]; [contradiction | assumption]. }
      specialize (Hleast rest m eq_refl s Hs_zero).
      destruct (Nat.eq_dec m s) as [->|Hne].
      * replace (out ++ s :: tau) with ((out ++ [s]) ++ tau)
          by (rewrite <- app_assoc; reflexivity).
        apply (IH zero1 indeg1 (out ++ [s]) tau out' indeg' Hinv1); [|assumption].
        rewrite <- app_assoc. cbn [app]. split; [assumption | split; assumption].
      * destruct (kahn_loop_extends Nx.pop_min fuel _ _ _ _ _ H) as [t Ht].
        rewrite Ht, <- app_assoc. cbn [app]. apply lex_le_app_head.
        apply Nx.lex_lt. lia.
  - injection H as <- _. apply lex_le_prefix.
Qed.

(** The lexicographical sort returns a topological order that is least
    among the topological orders of the graph. *)
Lemma lexicographical_least (sigma : list nat) :
  Nx.topological G sigma ->
  exists out, Nx.lexicographical_topological_sort G = Ok out /\
              Nx.topological G out /\ Nx.lex_le out sigma.
Proof.
  intros Hsigma.
  destruct (kahn_valid Nx.pop_min pop_min_fair sigma Hsigma) as [out [Hout Htop]].
  exists out. split; [exact Hout|]. split; [exact Htop|].
  unfold Nx.lexicographical_topological_sort, Nx.kahn in Hout.
  destruct (Nx.kahn_loop _ _ _ _ _ _) as [[[o m]|e]|] eqn:Hloop;
    try discriminate.
  destruct m; [|discriminate]. injection Hout as ->.
  exact (kahn_loop_least _ _ _ [] sigma out [] initial_inv Hsigma Hloop).
Qed.


End Kahn.

End SortFacts.

Import Py PyFacts NxFacts LivenessFacts DeleteFacts ExecutorFacts SortFacts.

(** * The scheduler: topological order and live ranges *)

Module Scheduler.

Lemma topological_sort_valid (v : Nx.release) (G : Nx.DiGraph) (sigma : list nat) :
  Nx.wf G -> Nx.topological G sigma ->
  exists order, Nx.topological_sort v G = Ok order /\ Nx.topological G order.
Proof.
  intros Hwf Hsigma. destruct v; unfold Nx.topological_sort.
  - exact (kahn_valid G Hwf Nx.pop_last pop_last_fair sigma Hsigma).
  - exact (kahn_valid G Hwf Nx.pop_first pop_first_fair sigma Hsigma).
Qed.

Lemma init_spec (v : Nx.release) (G : Nx.DiGraph) (sigma : list nat) :
  Nx.wf G -> Nx.topological G sigma ->
  exists order ispans,
    Nx.topological_sort v G = Ok order /\ Nx.topological G order /\
    Liveness.ispans_of G order = Ok ispans /\
    RandomNet.init v G =
    Ok {| RandomNet.nxgraph := G;
          RandomNet.bottom_layer :=
            filter (fun n => Nx.out_degree G n =? 0) (Nx.nodes G);
          RandomNet.nmodules := length (Nx.nodes G);
          RandomNet.nxorder := order;
          RandomNet.live := Liveness.live_sets ispans order |}.
Proof.
  intros Hwf Hsigma.
  destruct (topological_sort_valid v G sigma Hwf Hsigma) as [order [Hsort Htopo]].
  destruct (ispans_of_spec G order Htopo) as [ispans [Hisp _]].
  exists order, ispans.
  split; [assumption|]. split; [assumption|]. split; [assumption|].
  unfold RandomNet.init. rewrite Hsort. cbn [Py.bind].
  unfold RandomNet.init_from_order. now rewrite Hisp.
Qed.

(** C4, as the code has it.  On every graph that has a topological order,
    [nx.topological_sort], which [RandomNetwork.__init__] uses, returns a
    topological order of the graph, and [nx.lexicographical_topological_sort],
    which the reordering search of [graph.py] uses, returns the topological
    order that is lexicographically least on node ids. *)
Theorem topological_orders (v : Nx.release) (G : Nx.DiGraph) (sigma : list nat) :
  Nx.wf G -> Nx.topological G sigma ->
  exists net lexorder,
    RandomNet.init v G = Ok net /\
    Nx.topological_sort v G = Ok (RandomNet.nxorder net) /\
    Nx.topological G (RandomNet.nxorder net) /\
    Nx.lexicographical_topological_sort G = Ok lexorder /\
    Nx.topological G lexorder /\
    Nx.lex_le lexorder sigma.
Proof.
  intros Hwf Hsigma.
  destruct (init_spec v G sigma Hwf Hsigma)
    as [order [ispans [Hsort [Htopo [_ Hinit]]]]].
  destruct (lexicographical_least G Hwf sigma Hsigma) as [lexorder [Hlex [Hlt Hle]]].
  eexists. exists lexorder. split; [exact Hinit|].
  cbn [RandomNet.nxorder].
  split; [assumption|]. split; [assumption|]. split; [assumption|].
  split; assumption.
Qed.

Lemma topological_orders_witness :
  exists net lexorder,
    RandomNet.init Nx.Nx3 Examples.fork = Ok net /\
    Nx.topological_sort Nx.Nx3 Examples.fork = Ok (RandomNet.nxorder net) /\
    Nx.topological Examples.fork (RandomNet.nxorder net) /\
    Nx.lexicographical_topological_sort Examples.fork = Ok lexorder /\
    Nx.topological Examples.fork lexorder /\
    Nx.lex_le lexorder [0; 2; 1; 4; 3].
Proof.
  apply (topological_orders Nx.Nx3 Examples.fork [0; 2; 1; 4; 3]).
  - apply wfb_sound. vm_compute. reflexivity.
  - apply topologicalb_sound. vm_compute. reflexivity.
Defined.

(** C4, as stated, fails for the executor: under either release of
    [nx.topological_sort] the order [RandomNetwork.__init__] computes on the
    two-branch tree is not the least topological order. *)
Lemma executor_order_not_least :
  ~ (forall (G : Nx.DiGraph) (net : RandomNet.RandomNetwork) (sigma : list nat),
        Nx.wf G -> RandomNet.init Nx.Nx2 G = Ok net -> Nx.topological G sigma ->
        Nx.lex_le (RandomNet.nxorder net) sigma) /\
  ~ (forall (G : Nx.DiGraph) (net : RandomNet.RandomNetwork) (sigma : list nat),
        Nx.wf G -> RandomNet.init Nx.Nx3 G = Ok net -> Nx.topological G sigma ->
        Nx.lex_le (RandomNet.nxorder net) sigma).
Proof.
  assert (Hwf : Nx.wf Examples.fork) by (apply wfb_sound; reflexivity).
  assert (Hid : Nx.topological Examples.fork [0; 1; 2; 3; 4])
    by (apply topologicalb_sound; reflexivity).
  split; intros H.
  - assert (H2 : Nx.lex_le [0; 2; 3; 1; 4] [0; 1; 2; 3; 4])
      by exact (H Examples.fork _ _ Hwf eq_refl Hid).
    apply lex_le_cons_inv in H2 as [Hlt|[_ H2]]; [lia|].
    apply lex_le_cons_inv in H2 as [Hlt|[E _]]; lia.
  - assert (H3 : Nx.lex_le [0; 1; 2; 4; 3] [0; 1; 2; 3; 4])
      by exact (H Examples.fork _ _ Hwf eq_refl Hid).
    apply lex_le_cons_inv in H3 as [Hlt|[_ H3]]; [lia|].
    apply lex_le_cons_inv in H3 as [Hlt|[_ H3]]; [lia|].
    apply lex_le_cons_inv in H3 as [Hlt|[_ H3]]; [lia|].
    apply lex_le_cons_inv in H3 as [Hlt|[E _]]; lia.
Qed.

(** C5, as the code has it.  For every node of the order, [ispans] holds the
    order position of its last successor when it has a successor, and the
    number of nodes, one past the final position, when its out-degree is 0. *)
Theorem span_of_every_node (G : Nx.DiGraph) (order : list nat) :
  Nx.wf G -> Nx.topological G order ->
  exists ispans,
    Liveness.ispans_of G order = Ok ispans /\
    length ispans = length order /\
    forall i n, nth_error order i = Some n ->
      (Nx.out_degree G n = 0 ->
         nth_error ispans i = Some (Nx.number_of_nodes G)) /\
      (Nx.out_degree G n <> 0 ->
         exists s last,
           nth_error ispans i = Some s /\
           In last (Nx.succ G n) /\ Py.find_index last order = Some s /\
           forall w j, In w (Nx.succ G n) -> Py.find_index w order = Some j ->
                       j <= s).
Proof.
  intros Hwf Htopo.
  destruct (ispans_of_spec G order Htopo) as [ispans [Hisp [Hlen Hnth]]].
  exists ispans. split; [assumption|]. split; [assumption|].
  intros i n Hi. destruct (Hnth i n Hi) as [s [Hs Hspan]].
  destruct (span_of_spec G order Htopo n (nth_error_In _ _ Hi))
    as [s' [Hs' [Hnil Hcons]]].
  assert (s' = s) by congruence. subst s'.
  unfold Nx.out_degree. split.
  - intros Hz. apply length_zero_iff_nil in Hz. now rewrite Hs, (Hnil Hz).
  - intros Hnz. destruct Hcons as [[last [Hlast Hpos]] Hmax].
    { intros E. rewrite E in Hnz. now apply Hnz. }
    exists s, last. repeat split; assumption.
Qed.

Lemma span_of_every_node_witness :
  exists ispans,
    Liveness.ispans_of Examples.fork [0; 1; 2; 3; 4] = Ok ispans /\
    length ispans = 5 /\
    forall i n, nth_error [0; 1; 2; 3; 4] i = Some n ->
      (Nx.out_degree Examples.fork n = 0 ->
         nth_error ispans i = Some (Nx.number_of_nodes Examples.fork)) /\
      (Nx.out_degree Examples.fork n <> 0 ->
         exists s last,
           nth_error ispans i = Some s /\
           In last (Nx.succ Examples.fork n) /\
           Py.find_index last [0; 1; 2; 3; 4] = Some s /\
           forall w j, In w (Nx.succ Examples.fork n) ->
                       Py.find_index w [0; 1; 2; 3; 4] = Some j -> j <= s).
Proof.
  apply (span_of_every_node Examples.fork [0; 1; 2; 3; 4]).
  - apply wfb_sound. vm_compute. reflexivity.
  - apply topologicalb_sound. vm_compute. reflexivity.
Defined.

(** C5, as stated, fails: on the star the four nodes of out-degree 0 get the
    span 5, the number of nodes, not the final position 4. *)
Lemma span_of_sink_not_final_position :
  ~ (forall (G : Nx.DiGraph) (order ispans : list nat) (i n : nat),
        Nx.wf G -> Nx.topological G order ->
        Liveness.ispans_of G order = Ok ispans ->
        nth_error order i = Some n -> Nx.out_degree G n = 0 ->
        nth_error ispans i = Some (Nx.number_of_nodes G - 1)).
Proof.
  intros H.
  assert (Hwf : Nx.wf Examples.star) by (apply wfb_sound; reflexivity).
  assert (Hid : Nx.topological Examples.star [0; 1; 2; 3; 4])
    by (apply topologicalb_sound; reflexivity).
  specialize (H Examples.star [0; 1; 2; 3; 4] [4; 5; 5; 5; 5] 4 4
                Hwf Hid eq_refl eq_refl eq_refl).
  discriminate H.
Qed.

(** C8, as the code has it.  On the star [0->1, 0->2, 0->3, 0->4] the live
    list of position [k] has [k] entries: the peak is 4 and is reached at the
    final position only, where the buffers of node 0 and of three sinks are
    held; at position 1, the step after node 0 ran, the only live buffer is
    that of node 0.  The search of [graph.py] finds the same live lists. *)
Theorem star_live_lists (v : Nx.release) :
  exists net,
    RandomNet.init v Examples.star = Ok net /\
    RandomNet.live net = [[]; [0]; [0; 1]; [0; 1; 2]; [0; 1; 2; 3]] /\
    Liveness.peak (RandomNet.live net) = Ok 4 /\
    (forall k, k < 5 -> length (nth k (RandomNet.live net) []) = k) /\
    (order <- Nx.lexicographical_topological_sort Examples.star ;;
     ispans <- Liveness.ispans_of Examples.star order ;;
     Ok (Liveness.live_sets ispans order)) = Ok (RandomNet.live net).
Proof.
  destruct v; eexists; (split; [reflexivity|]); cbn [RandomNet.live];
    (split; [reflexivity|]); (split; [reflexivity|]);
    (split; [|reflexivity]);
    intros k Hk; do 5 (destruct k as [|k]; [reflexivity|]); lia.
Qed.

(** C8, as stated, fails: at the step that follows node 0 the live count is
    1, not the peak. *)
Lemma star_peak_not_after_root :
  ~ (exists v net,
        RandomNet.init v Examples.star = Ok net /\
        Liveness.peak (RandomNet.live net) = Ok 4 /\
        length (nth 1 (RandomNet.live net) []) = 4).
Proof.
  intros [v [net [Hinit [_ Hlen]]]].
  destruct v; vm_compute in Hinit; injection Hinit as <-; discriminate Hlen.
Qed.

End Scheduler.

Import Py PyFacts NxFacts LivenessFacts DeleteFacts ExecutorFacts SortFacts.

(** * The executor *)

Module Executor.

(** C9.  [RandomNetwork.__init__] succeeds on a well-formed acyclic graph
    with dense node ids, and in [forward], when the loop reaches position
    [k], [outs] holds exactly the buffers of the positions of [live[k]], in
    the order of that list, which is ascending and lists the positions before
    [k] whose span reaches [k]: the buffer of the [j]-th live position is
    [outs[j]].  A step that is not the last one, deleting the collected
    indices largest first, takes the aligned [outs] of its position to the
    aligned [outs] of the next. *)
Theorem forward_live_alignment
  (Buf : Type) (Node : nat -> list Buf -> Buf) (x : Buf)
  (v : Nx.release) (G : Nx.DiGraph) (sigma : list nat) (k : nat) :
  Nx.wf G -> Nx.topological G sigma ->
  (forall n, In n (Nx.nodes G) -> n < Nx.number_of_nodes G) ->
  k < Nx.number_of_nodes G ->
  exists net ispans lv,
    RandomNet.init v G = Ok net /\
    Liveness.ispans_of G (RandomNet.nxorder net) = Ok ispans /\
    nth_error (RandomNet.live net) k = Some lv /\
    (forall i, In i lv <-> i < k /\ k <= nth i ispans 0) /\
    StronglySorted lt lv /\
    RandomNet.outs_at Node net x k = Ok (map (RandomNet.buffer Node net x) lv) /\
    (forall j p, nth_error lv j = Some p ->
       exists outs, RandomNet.outs_at Node net x k = Ok outs /\
                    nth_error outs j = Some (RandomNet.buffer Node net x p)) /\
    (forall n lv', nth_error (RandomNet.nxorder net) k = Some n ->
       nth_error (RandomNet.live net) (S k) = Some lv' ->
       RandomNet.step Node net x (map (RandomNet.buffer Node net x) lv) (k, n) =
       Ok (map (RandomNet.buffer Node net x) lv')).
Proof.
  intros Hwf Hsigma Hdense Hk.
  destruct (Scheduler.init_spec v G sigma Hwf Hsigma)
    as [order [ispans [_ [Htopo [Hisp Hinit]]]]].
  pose proof (order_length G order Hwf Htopo) as Hlen.
  pose proof (ispans_length G order Htopo ispans Hisp) as Hlen'.
  eexists. exists ispans, (Liveness.live_at ispans k).
  split; [exact Hinit|]. cbn [RandomNet.nxorder RandomNet.live].
  split; [exact Hisp|].
  split; [apply live_sets_nth; lia|].
  split; [intros i; apply in_live_at; lia|].
  split; [apply live_at_ascending; lia|].
  assert (Hal := outs_at_aligned Buf Node G order Hwf Htopo Hdense ispans Hisp x k).
  split; [apply Hal; lia|]. split.
  - intros j p Hj. eexists. split; [apply Hal; lia|].
    now rewrite nth_error_map, Hj.
  - intros n lv' Hn Hlv'.
    assert (Hlt : S k < length order).
    { rewrite <- (live_sets_length ispans order).
      apply nth_error_Some. congruence. }
    rewrite live_sets_nth in Hlv' by assumption. injection Hlv' as <-.
    exact (step_inner Buf Node G order Hwf Htopo Hdense ispans Hisp x k n Hn (fun _ => Hlt) Hlt).
Qed.

Lemma forward_live_alignment_witness :
  exists net ispans lv,
    RandomNet.init Nx.Nx3 Examples.fork = Ok net /\
    Liveness.ispans_of Examples.fork (RandomNet.nxorder net) = Ok ispans /\
    nth_error (RandomNet.live net) 3 = Some lv /\
    (forall i, In i lv <-> i < 3 /\ 3 <= nth i ispans 0) /\
    StronglySorted lt lv /\
    RandomNet.outs_at (fun n _ => n) net 7 3 =
    Ok (map (RandomNet.buffer (fun n _ => n) net 7) lv) /\
    (forall j p, nth_error lv j = Some p ->
       exists outs, RandomNet.outs_at (fun n _ => n) net 7 3 = Ok outs /\
                    nth_error outs j =
                    Some (RandomNet.buffer (fun n _ => n) net 7 p)) /\
    (forall n lv', nth_error (RandomNet.nxorder net) 3 = Some n ->
       nth_error (RandomNet.live net) 4 = Some lv' ->
       RandomNet.step (fun n _ => n) net 7
                      (map (RandomNet.buffer (fun n _ => n) net 7) lv) (3, n) =
       Ok (map (RandomNet.buffer (fun n _ => n) net 7) lv')).
Proof.
  apply (forward_live_alignment nat (fun n _ => n) 7 Nx.Nx3 Examples.fork
                                [0; 1; 2; 3; 4] 3).
  - apply wfb_sound. vm_compute. reflexivity.
  - apply topologicalb_sound. vm_compute. reflexivity.
  - intros n Hn. unfold Examples.fork, Nx.number_of_nodes in *. simpl in *. lia.
  - unfold Examples.fork, Nx.number_of_nodes. simpl. lia.
Defined.

(** The positions below [a], in ascending order, stay ascending with [a]
    after them. *)
Lemma ascending_snoc (l : list nat) (a : nat) :
  StronglySorted lt l -> (forall i, In i l -> i < a) ->
  StronglySorted lt (l ++ [a]).
Proof.
  induction 1 as [|b l Hl IH Hb]; intros Hlt; cbn [app].
  - constructor; [constructor|constructor].
  - constructor.
    + apply IH. intros i Hi. apply Hlt. now right.
    + apply Forall_app. split; [exact Hb|].
      constructor; [|constructor]. apply Hlt. now left.
Qed.

(** X6.  What [forward] averages on at most 257 nodes: the buffers of the
    positions whose span reaches the final position, the final one
    included, each once and in ascending order of position. *)
Lemma forward_aggregates
  (Buf : Type) (Node : nat -> list Buf -> Buf) (mean : list Buf -> Buf) (x : Buf)
  (v : Nx.release) (G : Nx.DiGraph) (sigma : list nat) :
  Nx.wf G -> Nx.topological G sigma ->
  (forall n, In n (Nx.nodes G) -> n < Nx.number_of_nodes G) ->
  0 < Nx.number_of_nodes G -> Nx.number_of_nodes G - 1 <= Py.small_int_max ->
  exists net ispans held,
    RandomNet.init v G = Ok net /\
    Liveness.ispans_of G (RandomNet.nxorder net) = Ok ispans /\
    StronglySorted lt held /\
    (forall i, In i held <->
               i < Nx.number_of_nodes G /\
               Nx.number_of_nodes G - 1 <= nth i ispans 0) /\
    RandomNet.forward Node mean net x =
    Ok (mean (map (RandomNet.buffer Node net x) held)).
Proof.
  intros Hwf Hsigma Hdense Hpos Hsmall.
  destruct (Scheduler.init_spec v G sigma Hwf Hsigma)
    as [order [ispans [_ [Htopo [Hisp Hinit]]]]].
  pose proof (order_length G order Hwf Htopo) as Hlen.
  pose proof (ispans_length G order Htopo ispans Hisp) as Hlen'.
  eexists. exists ispans.
  exists (Liveness.live_at ispans (length order - 1) ++ [length order - 1]).
  split; [exact Hinit|]. cbn [RandomNet.nxorder].
  split; [exact Hisp|]. split; [|split].
  - apply ascending_snoc; [apply live_at_ascending; lia|].
    intros i Hi. apply in_live_at in Hi; lia.
  - intros i. rewrite in_app_iff, in_live_at by lia. cbn [In].
    pose proof (span_bounds G order Hwf Htopo ispans Hisp (length order - 1)).
    rewrite <- Hlen. split.
    + intros [[H1 H2]|[<-|[]]]; lia.
    + intros [H1 H2]. destruct (Nat.eq_dec i (length order - 1)); [right; left|left]; lia.
  - apply (forward_result Buf Node G order Hwf Htopo Hdense ispans Hisp x mean); lia.
Qed.

(** C1 at the failing input.  On the chain [0->1], whose only node of
    out-degree 0 is node 1, the loop ends holding the buffers of both nodes
    and [forward] averages the two. *)
Theorem forward_averages_nonterminal
  (Buf : Type) (Node : nat -> list Buf -> Buf) (mean : list Buf -> Buf) (x : Buf)
  (v : Nx.release) :
  exists net,
    RandomNet.init v Examples.chain2 = Ok net /\
    RandomNet.bottom_layer net = [1] /\
    Nx.out_degree Examples.chain2 0 = 1 /\
    RandomNet.outs_at Node net x 2 = Ok [Node 0 [x]; Node 1 [Node 0 [x]]] /\
    RandomNet.forward Node mean net x =
    Ok (mean [Node 0 [x]; Node 1 [Node 0 [x]]]).
Proof.
  destruct v; eexists; repeat split; reflexivity.
Qed.

End Executor.

Import Py PyFacts NxFacts.

(** * Conversion to a DAG *)

Module DagFacts.

Lemma in_adj (G : Nx.Graph) (u v : nat) :
  In v (Nx.adj G u) <-> In (u, v) (Nx.gedges G) \/ In (v, u) (Nx.gedges G).
Proof.
  unfold Nx.adj. rewrite in_flat_map. split.
  - intros [[a b] [Hin Hv]]. simpl in Hv.
    destruct (Nat.eqb_spec a u) as [->|Ha].
    + destruct Hv as [<-|[]]. now left.
    + destruct (Nat.eqb_spec b u) as [->|Hb]; [|contradiction].
      destruct Hv as [<-|[]]. now right.
  - intros [H|H].
    + exists (u, v). split; [assumption|]. simpl. rewrite Nat.eqb_refl. now left.
    + exists (v, u). split; [assumption|]. simpl. rewrite Nat.eqb_refl.
      destruct (Nat.eqb_spec v u) as [->|_]; now left.
Qed.

Lemma in_pairs (f : nat -> list nat) (us : list nat) (u v : nat) :
  In (u, v) (flat_map (fun a => map (pair a) (f a)) us) <->
  In u us /\ In v (f u).
Proof.
  rewrite in_flat_map. split.
  - intros [a [Ha Hin]]. apply in_map_iff in Hin as [b [E Hb]].
    injection E as -> ->. now split.
  - intros [Hu Hv]. exists u. split; [assumption|]. now apply in_map.
Qed.

Lemma NoDup_pairs (f : nat -> list nat) (us : list nat) :
  NoDup us -> (forall a, NoDup (f a)) ->
  NoDup (flat_map (fun a => map (pair a) (f a)) us).
Proof.
  intros Hus Hf. induction Hus as [|a us Hnotin Hus IH]; simpl; [constructor|].
  apply NoDup_app.
  - apply NoDup_map_NoDup_ForallPairs; [|apply Hf].
    intros b c _ _ E. now injection E.
  - exact IH.
  - intros [b c] Hin Hin'. apply in_map_iff in Hin as [c' [E _]].
    injection E as -> ->. apply in_pairs in Hin' as [Hb _]. contradiction.
Qed.

Lemma in_edges_view (G : Nx.DiGraph) (u v : nat) :
  In (u, v) (Nx.edges_view G) <-> In u (Nx.nodes G) /\ In (u, v) (Nx.edges G).
Proof. unfold Nx.edges_view. now rewrite in_pairs, in_succ. Qed.

Lemma remove_edges_from_spec (eb : list (nat * nat)) (G : Nx.DiGraph) :
  Nx.nodes (Nx.remove_edges_from G eb) = Nx.nodes G /\
  Nx.edges (Nx.remove_edges_from G eb) =
  filter (fun e => negb (existsb (Nx.edge_eqb e) eb)) (Nx.edges G).
Proof.
  revert G. induction eb as [|e eb IH]; intros G; simpl.
  - split; [reflexivity|]. symmetry. now apply filter_all.
  - destruct (IH (Nx.remove_edge G e)) as [Hn He]. split; [exact Hn|].
    rewrite He. simpl. rewrite filter_and. apply filter_ext. intros e'.
    rewrite negb_orb. reflexivity.
Qed.

Lemma in_to_directed (G : Nx.Graph) (u v : nat) :
  In (u, v) (Nx.edges (Nx.to_directed G)) <->
  In u (Nx.gnodes G) /\
  (In (u, v) (Nx.gedges G) \/ In (v, u) (Nx.gedges G)).
Proof. unfold Nx.to_directed. simpl. now rewrite in_pairs, in_adj. Qed.

(** The edges [generate] keeps: those of [nx.DiGraph(G)] that go up. *)
Lemma to_dag_edges (G : Nx.Graph) :
  Nx.edges (GraphPy.to_dag G) =
  filter (fun e => fst e <? snd e) (Nx.edges (Nx.to_directed G)).
Proof.
  unfold GraphPy.to_dag.
  destruct (remove_edges_from_spec
              (filter (fun e => snd e <=? fst e) (Nx.edges_view (Nx.to_directed G)))
              (Nx.to_directed G)) as [_ ->].
  apply filter_ext_in. intros [u v] Hin. simpl.
  destruct (Nat.ltb_spec u v) as [Hlt|Hge].
  - apply negb_true_iff. apply not_true_is_false. intros H.
    apply existsb_exists in H as [[a b] [Hab Heq]].
    apply edge_eqb_eq in Heq. injection Heq as <- <-.
    apply filter_In in Hab as [_ Hle]. simpl in Hle. apply Nat.leb_le in Hle. lia.
  - apply negb_false_iff. apply existsb_exists. exists (u, v).
    split; [|now apply edge_eqb_eq]. apply filter_In. split.
    + apply in_edges_view. split; [|assumption].
      now apply in_to_directed in Hin.
    + simpl. now apply Nat.leb_le.
Qed.

Lemma to_dag_nodes (G : Nx.Graph) : Nx.nodes (GraphPy.to_dag G) = Nx.gnodes G.
Proof.
  unfold GraphPy.to_dag.
  now destruct (remove_edges_from_spec
                  (filter (fun e => snd e <=? fst e)
                          (Nx.edges_view (Nx.to_directed G)))
                  (Nx.to_directed G)) as [-> _].
Qed.

Lemma in_to_dag (G : Nx.Graph) (u v : nat) :
  In (u, v) (Nx.edges (GraphPy.to_dag G)) <->
  u < v /\ In u (Nx.gnodes G) /\
  (In (u, v) (Nx.gedges G) \/ In (v, u) (Nx.gedges G)).
Proof.
  rewrite to_dag_edges, filter_In, in_to_directed. simpl.
  rewrite Nat.ltb_lt. tauto.
Qed.

Lemma normal_In (l : list (nat * nat)) (a b : nat) :
  In (a, b) l \/ In (b, a) l -> In (Nx.normal (a, b)) (map Nx.normal l).
Proof.
  intros [H|H].
  - now apply in_map.
  - replace (Nx.normal (a, b)) with (Nx.normal (b, a)).
    + now apply in_map.
    + unfold Nx.normal. simpl. f_equal; lia.
Qed.

Lemma NoDup_adj (G : Nx.Graph) (u : nat) :
  NoDup (map Nx.normal (Nx.gedges G)) -> NoDup (Nx.adj G u).
Proof.
  unfold Nx.adj at 1. intros H.
  assert (Hin : forall v, In v (flat_map
                  (fun e => if fst e =? u then [snd e]
                            else if snd e =? u then [fst e] else [])
                  (Nx.gedges G)) ->
                In (u, v) (Nx.gedges G) \/ In (v, u) (Nx.gedges G)).
  { intros v Hv. now apply in_adj. }
  revert H Hin. induction (Nx.gedges G) as [|[a b] l IH]; intros H Hin;
    [constructor|].
  cbn [map] in H. inversion H as [|? ? Hnotin Hnd]; subst.
  assert (Hin' : forall v, In v (flat_map
                  (fun e => if fst e =? u then [snd e]
                            else if snd e =? u then [fst e] else []) l) ->
                In (u, v) l \/ In (v, u) l).
  { intros v Hv. apply in_flat_map in Hv as [[c d] [Hcd Hv]]. simpl in Hv.
    destruct (Nat.eqb_spec c u) as [->|Hc].
    - destruct Hv as [<-|[]]. now left.
    - destruct (Nat.eqb_spec d u) as [->|Hd]; [|contradiction].
      destruct Hv as [<-|[]]. now right. }
  specialize (IH Hnd Hin').
  cbn [flat_map fst snd].
  destruct (Nat.eqb_spec a u) as [->|Ha].
  - cbn [app]. constructor; [|assumption].
    intros Hb. apply Hnotin. apply normal_In. now apply Hin'.
  - destruct (Nat.eqb_spec b u) as [->|Hb]; [|assumption].
    cbn [app]. constructor; [|assumption].
    intros Hb. apply Hnotin. apply normal_In. apply Hin' in Hb. tauto.
Qed.

Lemma path_increasing (E : list (nat * nat)) (u v : nat) :
  (forall a b, In (a, b) E -> a < b) -> Nx.path E u v -> u < v.
Proof.
  intros HE. induction 1 as [u v H|u w v H _ IH].
  - now apply HE.
  - apply HE in H. lia.
Qed.

Lemma simpleb_sound (G : Nx.Graph) : Nx.simpleb G = true -> Nx.simple G.
Proof.
  unfold Nx.simpleb, Nx.simple. rewrite !andb_true_iff. intros [[Hn He] Hin].
  split; [now apply nodupb_sound|]. split; [now apply nodup_edgesb_sound|].
  intros u v Huv. rewrite forallb_forall in Hin. specialize (Hin _ Huv).
  simpl in Hin. apply andb_true_iff in Hin as [Hu Hv]. split; now apply mem_In.
Qed.

Lemma loop_freeb_sound (G : Nx.Graph) : Nx.loop_freeb G = true -> Nx.loop_free G.
Proof.
  unfold Nx.loop_freeb, Nx.loop_free. rewrite forallb_forall.
  intros H u v Huv. specialize (H _ Huv). simpl in H.
  apply negb_true_iff, Nat.eqb_neq in H. exact H.
Qed.

End DagFacts.

Import Py PyFacts NxFacts DagFacts.

(** * Graph generation *)

Module Generator.

(** C7.  On an undirected graph without self-loops, the directed graph
    [generate] returns keeps the nodes and, for every undirected edge, the
    one direction that goes from the lower to the higher id and not the
    other; it has no edge [(u, v)] with [u >= v], no edge twice, and no
    cycle. *)
Theorem to_dag_keeps_one_direction (G : Nx.Graph) :
  Nx.simple G -> Nx.loop_free G ->
  Nx.nodes (GraphPy.to_dag G) = Nx.gnodes G /\
  NoDup (Nx.edges (GraphPy.to_dag G)) /\
  (forall u v, In (u, v) (Nx.edges (GraphPy.to_dag G)) ->
     u < v /\ (In (u, v) (Nx.gedges G) \/ In (v, u) (Nx.gedges G))) /\
  (forall u v, In (u, v) (Nx.gedges G) ->
     In (Nat.min u v, Nat.max u v) (Nx.edges (GraphPy.to_dag G)) /\
     ~ In (Nat.max u v, Nat.min u v) (Nx.edges (GraphPy.to_dag G))) /\
  Nx.acyclic (GraphPy.to_dag G).
Proof.
  intros [Hnodes [Hedges Hends]] Hloop.
  split; [apply to_dag_nodes|]. split; [|split; [|split]].
  - rewrite to_dag_edges. apply NoDup_filter. unfold Nx.to_directed. simpl.
    apply NoDup_pairs; [assumption|]. intros a. now apply NoDup_adj.
  - intros u v H. apply in_to_dag in H. tauto.
  - intros u v Huv. pose proof (Hloop u v Huv) as Hne.
    destruct (Hends u v Huv) as [Hu Hv]. split.
    + apply in_to_dag. destruct (Nat.lt_ge_cases u v) as [Hlt|Hge].
      * rewrite Nat.min_l, Nat.max_r by lia. tauto.
      * rewrite Nat.min_r, Nat.max_l by lia. split; [lia|]. tauto.
    + intros H. apply in_to_dag in H as [Hlt _]. lia.
  - intros u Hpath. apply path_increasing in Hpath; [lia|].
    intros a b Hab. now apply in_to_dag in Hab.
Qed.

Lemma to_dag_keeps_one_direction_witness :
  Nx.nodes (GraphPy.to_dag Examples.triangle) = Nx.gnodes Examples.triangle /\
  NoDup (Nx.edges (GraphPy.to_dag Examples.triangle)) /\
  (forall u v, In (u, v) (Nx.edges (GraphPy.to_dag Examples.triangle)) ->
     u < v /\ (In (u, v) (Nx.gedges Examples.triangle) \/
               In (v, u) (Nx.gedges Examples.triangle))) /\
  (forall u v, In (u, v) (Nx.gedges Examples.triangle) ->
     In (Nat.min u v, Nat.max u v) (Nx.edges (GraphPy.to_dag Examples.triangle)) /\
     ~ In (Nat.max u v, Nat.min u v) (Nx.edges (GraphPy.to_dag Examples.triangle))) /\
  Nx.acyclic (GraphPy.to_dag Examples.triangle).
Proof.
  apply (to_dag_keeps_one_direction Examples.triangle).
  - apply simpleb_sound. vm_compute. reflexivity.
  - apply loop_freeb_sound. vm_compute. reflexivity.
Defined.

(** The directed graphs used as concrete inputs are graphs [generate] can
    return. *)
Lemma examples_generated :
  GraphPy.to_dag {| Nx.gnodes := seq 0 5;
                    Nx.gedges := [(0, 1); (0, 2); (0, 3); (0, 4)] |} =
  Examples.star /\
  GraphPy.to_dag {| Nx.gnodes := seq 0 2; Nx.gedges := [(0, 1)] |} =
  Examples.chain2 /\
  GraphPy.to_dag {| Nx.gnodes := seq 0 5;
                    Nx.gedges := [(0, 1); (0, 2); (1, 4); (2, 3)] |} =
  Examples.fork /\
  GraphPy.to_dag {| Nx.gnodes := seq 0 4;
                    Nx.gedges := [(0, 2); (0, 3); (1, 2)] |} =
  Examples.zigzag.
Proof. repeat split; reflexivity. Qed.

Section Loop.

Variable prng : Z -> Nx.rng.
Variable barabasi_albert_graph : Z -> Z -> Nx.rng -> result (Nx.Graph * Nx.rng).
Variable watts_strogatz_graph :
  Z -> Z -> Q -> Nx.rng -> result (Nx.Graph * Nx.rng).
Variable nnode : Z.
Variable p : Q.
Variable seed : option Z.

(** [k] disconnected draws cost the loop [k] iterations and leave it where
    it started, on the source those draws have used. *)
Lemma er_loop_skip (k fuel : nat) :
  forall global,
    (forall j, j < k ->
       Nx.is_connected (GraphPy.er_draw prng j nnode p seed global) = Ok false) ->
    GraphPy.er_loop prng (k + fuel) nnode p seed global =
    GraphPy.er_loop prng fuel nnode p seed
                    (GraphPy.er_global prng k nnode p seed global).
Proof.
  induction k as [|k IH]; intros global Hdis; [reflexivity|].
  cbn [Nat.add GraphPy.er_loop GraphPy.er_global].
  pose proof (Hdis 0 (Nat.lt_0_succ k)) as H0.
  unfold GraphPy.er_draw in H0. cbn [GraphPy.er_global] in H0.
  destruct (Nx.erdos_renyi_graph (Z.to_nat nnode) p (GraphPy.source prng seed global))
    as [G used] eqn:E.
  cbn [fst snd] in *. rewrite H0. apply IH.
  intros j Hj. specialize (Hdis (S j) (proj1 (Nat.succ_lt_mono j k) Hj)).
  unfold GraphPy.er_draw in *. cbn [GraphPy.er_global] in Hdis.
  rewrite E in Hdis. exact Hdis.
Qed.

Lemma er_loop_running (k fuel : nat) (global : Nx.rng) :
  (forall j, j < k ->
     Nx.is_connected (GraphPy.er_draw prng j nnode p seed global) = Ok false) ->
  fuel <= k ->
  GraphPy.er_loop prng fuel nnode p seed global = None.
Proof.
  intros Hdis Hle.
  rewrite <- (Nat.add_0_r fuel), er_loop_skip; [reflexivity|].
  intros j Hj. apply Hdis. lia.
Qed.

Lemma er_global_succ (k : nat) :
  forall global,
    GraphPy.er_global prng (S k) nnode p seed global =
    GraphPy.settle seed (GraphPy.er_global prng k nnode p seed global)
      (snd (Nx.erdos_renyi_graph (Z.to_nat nnode) p
              (GraphPy.source prng seed
                 (GraphPy.er_global prng k nnode p seed global)))).
Proof.
  induction k as [|k IH]; intros global; [reflexivity|].
  cbn [GraphPy.er_global] in *. now rewrite <- IH.
Qed.

(** The iteration that follows [k] disconnected draws. *)
Lemma er_loop_at (k fuel : nat) (global : Nx.rng) :
  (forall j, j < k ->
     Nx.is_connected (GraphPy.er_draw prng j nnode p seed global) = Ok false) ->
  k < fuel ->
  GraphPy.er_loop prng fuel nnode p seed global =
  match Nx.is_connected (GraphPy.er_draw prng k nnode p seed global) with
  | Raise e => Some (Raise e)
  | Ok true =>
      Some (Ok (GraphPy.er_draw prng k nnode p seed global,
                GraphPy.er_global prng (S k) nnode p seed global))
  | Ok false =>
      GraphPy.er_loop prng (fuel - S k) nnode p seed
                      (GraphPy.er_global prng (S k) nnode p seed global)
  end.
Proof.
  intros Hdis Hlt.
  replace fuel with (k + S (fuel - S k)) at 1 by lia.
  rewrite er_loop_skip by assumption.
  cbn [GraphPy.er_loop]. unfold GraphPy.er_draw. rewrite er_global_succ.
  destruct (Nx.erdos_renyi_graph (Z.to_nat nnode) p _) as [G used].
  reflexivity.
Qed.

End Loop.

Lemma er_global_seeded (prng : Z -> Nx.rng) (k : nat) (nnode : Z) (p : Q)
  (s : Z) (global : Nx.rng) :
  GraphPy.er_global prng k nnode p (Some s) global = global.
Proof. induction k as [|k IH]; simpl; [reflexivity | exact IH]. Qed.

Lemma generate_er
  (prng : Z -> Nx.rng)
  (ba : Z -> Z -> Nx.rng -> result (Nx.Graph * Nx.rng))
  (ws : Z -> Z -> Q -> Nx.rng -> result (Nx.Graph * Nx.rng))
  (fuel : nat) (self : GraphPy.GraphGenerator) (p : Q) (nnode : Z)
  (seed : option Z) (global : Nx.rng) :
  GraphPy.model self = "ER"%string -> GraphPy.P (GraphPy.params self) = Some p ->
  GraphPy.generate prng ba ws fuel self nnode seed global =
  match GraphPy.er_loop prng fuel nnode p seed global with
  | None => None
  | Some (Raise e) => Some (Raise e)
  | Some (Ok (G, global')) => Some (Ok (GraphPy.finish self G, global'))
  end.
Proof.
  intros Hm Hp. unfold GraphPy.generate. now rewrite Hm, Hp.
Qed.

Lemma erdos_renyi_nodes (n : nat) (p : Q) (r : Nx.rng) :
  Nx.gnodes (fst (Nx.erdos_renyi_graph n p r)) = seq 0 n.
Proof.
  unfold Nx.erdos_renyi_graph.
  destruct (Qle_bool p 0); [reflexivity|]. now destruct (Qle_bool 1 p).
Qed.

Lemma is_connected_defined (G : Nx.Graph) :
  Nx.gnodes G <> [] -> exists b, Nx.is_connected G = Ok b.
Proof.
  unfold Nx.is_connected. destruct (Nx.gnodes G); [congruence|].
  intros _. now eexists.
Qed.

(** C10.  With the ER model and an integer seed, every iteration of the
    loop draws the graph of the first iteration; [generate] returns, for
    some number of iterations followed, exactly when that graph is
    connected, and then it returns it after one draw; when that graph is
    disconnected the loop is still running after any number of iterations.
    With at least one node the connectivity test does not raise, so the call
    ends at all exactly when the first graph is connected. *)
Theorem seeded_er_first_draw_decides
  (prng : Z -> Nx.rng)
  (ba : Z -> Z -> Nx.rng -> result (Nx.Graph * Nx.rng))
  (ws : Z -> Z -> Q -> Nx.rng -> result (Nx.Graph * Nx.rng))
  (self : GraphPy.GraphGenerator) (p : Q) (nnode s : Z) (global : Nx.rng) :
  GraphPy.model self = "ER"%string -> GraphPy.P (GraphPy.params self) = Some p ->
  (forall k, GraphPy.er_draw prng k nnode p (Some s) global =
             GraphPy.er_draw prng 0 nnode p (Some s) global) /\
  ((exists fuel r,
      GraphPy.generate prng ba ws fuel self nnode (Some s) global = Some (Ok r)) <->
   Nx.is_connected (GraphPy.er_draw prng 0 nnode p (Some s) global) = Ok true) /\
  (Nx.is_connected (GraphPy.er_draw prng 0 nnode p (Some s) global) = Ok true ->
   forall fuel, 0 < fuel ->
     GraphPy.generate prng ba ws fuel self nnode (Some s) global =
     Some (Ok (GraphPy.finish self (GraphPy.er_draw prng 0 nnode p (Some s) global),
               global))) /\
  (Nx.is_connected (GraphPy.er_draw prng 0 nnode p (Some s) global) = Ok false ->
   forall fuel,
     GraphPy.generate prng ba ws fuel self nnode (Some s) global = None) /\
  ((0 < nnode)%Z ->
   ((exists fuel,
       GraphPy.generate prng ba ws fuel self nnode (Some s) global <> None) <->
    Nx.is_connected (GraphPy.er_draw prng 0 nnode p (Some s) global) = Ok true)).
Proof.
  intros Hm Hp.
  set (first := GraphPy.er_draw prng 0 nnode p (Some s) global).
  assert (Hsame : forall k, GraphPy.er_draw prng k nnode p (Some s) global = first).
  { intros k. unfold first, GraphPy.er_draw. now rewrite !er_global_seeded. }
  assert (Hret : Nx.is_connected first = Ok true -> forall fuel, 0 < fuel ->
            GraphPy.generate prng ba ws fuel self nnode (Some s) global =
            Some (Ok (GraphPy.finish self first, global))).
  { intros Hc fuel Hfuel. rewrite (generate_er prng ba ws fuel self p) by assumption.
    rewrite (er_loop_at prng nnode p (Some s) 0 fuel global) by (intros; lia).
    fold first. rewrite Hc. now rewrite er_global_seeded. }
  assert (Hspin : Nx.is_connected first = Ok false -> forall fuel,
            GraphPy.generate prng ba ws fuel self nnode (Some s) global = None).
  { intros Hd fuel. rewrite (generate_er prng ba ws fuel self p) by assumption.
    rewrite (er_loop_running prng nnode p (Some s) fuel fuel global);
      [reflexivity | intros j _; now rewrite Hsame | lia]. }
  split; [exact Hsame|]. split; [|split; [exact Hret|split; [exact Hspin|]]].
  - split.
    + intros [fuel [r Hr]].
      destruct (Nx.is_connected first) as [[|]|e] eqn:Hc; [reflexivity| |].
      * rewrite (Hspin eq_refl fuel) in Hr. discriminate.
      * destruct fuel as [|fuel].
        { rewrite (generate_er prng ba ws 0 self p) in Hr by assumption.
          discriminate. }
        rewrite (generate_er prng ba ws (S fuel) self p) in Hr by assumption.
        rewrite (er_loop_at prng nnode p (Some s) 0 (S fuel) global) in Hr
          by (intros; lia).
        fold first in Hr. rewrite Hc in Hr. discriminate.
    + intros Hc. exists 1. eexists. apply Hret; [assumption | lia].
  - intros Hn. split.
    + intros [fuel Hf].
      destruct (is_connected_defined first) as [b Hb].
      { unfold first, GraphPy.er_draw. rewrite erdos_renyi_nodes.
        destruct (Z.to_nat nnode) eqn:E; [lia | discriminate]. }
      destruct b; [assumption|]. now rewrite (Hspin Hb fuel) in Hf.
    + intros Hc. exists 1. rewrite (Hret Hc 1) by lia. discriminate.
Qed.

Lemma seeded_er_first_draw_decides_witness :
  (forall k, GraphPy.er_draw (fun _ => Examples.zeros) k 3 (1 # 2) (Some 7%Z) Examples.late =
             GraphPy.er_draw (fun _ => Examples.zeros) 0 3 (1 # 2) (Some 7%Z) Examples.late) /\
  ((exists fuel r,
      GraphPy.generate (fun _ => Examples.zeros) Examples.no_graph Examples.no_graph'
        fuel (Examples.er (1 # 2)) 3 (Some 7%Z) Examples.late = Some (Ok r)) <->
   Nx.is_connected
     (GraphPy.er_draw (fun _ => Examples.zeros) 0 3 (1 # 2) (Some 7%Z) Examples.late)
   = Ok true) /\
  (Nx.is_connected
     (GraphPy.er_draw (fun _ => Examples.zeros) 0 3 (1 # 2) (Some 7%Z) Examples.late)
   = Ok true ->
   forall fuel, 0 < fuel ->
     GraphPy.generate (fun _ => Examples.zeros) Examples.no_graph Examples.no_graph'
       fuel (Examples.er (1 # 2)) 3 (Some 7%Z) Examples.late =
     Some (Ok (GraphPy.finish (Examples.er (1 # 2))
                 (GraphPy.er_draw (fun _ => Examples.zeros) 0 3 (1 # 2) (Some 7%Z)
                                  Examples.late),
               Examples.late))) /\
  (Nx.is_connected
     (GraphPy.er_draw (fun _ => Examples.zeros) 0 3 (1 # 2) (Some 7%Z) Examples.late)
   = Ok false ->
   forall fuel,
     GraphPy.generate (fun _ => Examples.zeros) Examples.no_graph Examples.no_graph'
       fuel (Examples.er (1 # 2)) 3 (Some 7%Z) Examples.late = None) /\
  ((0 < 3)%Z ->
   ((exists fuel,
       GraphPy.generate (fun _ => Examples.zeros) Examples.no_graph Examples.no_graph'
         fuel (Examples.er (1 # 2)) 3 (Some 7%Z) Examples.late <> None) <->
    Nx.is_connected
      (GraphPy.er_draw (fun _ => Examples.zeros) 0 3 (1 # 2) (Some 7%Z) Examples.late)
    = Ok true)).
Proof.
  apply (seeded_er_first_draw_decides (fun _ => Examples.zeros)
           Examples.no_graph Examples.no_graph' (Examples.er (1 # 2)) (1 # 2)
           3%Z 7%Z Examples.late).
  - reflexivity.
  - reflexivity.
Defined.

(** C3, as the code has it, for a node count that is not negative.  The ER
    loop has no retry cap and no timeout signal: after [k] disconnected
    draws, for any [k], it is still running, and it ends at the first draw
    that is connected, which [generate] returns, or on which the connectivity
    test raises, which it does on the graph without nodes only, with
    [NetworkXPointlessConcept]. *)
Theorem er_loop_ends_at_first_connected_draw
  (prng : Z -> Nx.rng)
  (ba : Z -> Z -> Nx.rng -> result (Nx.Graph * Nx.rng))
  (ws : Z -> Z -> Q -> Nx.rng -> result (Nx.Graph * Nx.rng))
  (self : GraphPy.GraphGenerator) (p : Q) (nnode : Z) (seed : option Z)
  (global : Nx.rng) (k : nat) :
  GraphPy.model self = "ER"%string -> GraphPy.P (GraphPy.params self) = Some p ->
  (0 <= nnode)%Z ->
  (forall j, j < k ->
     Nx.is_connected (GraphPy.er_draw prng j nnode p seed global) = Ok false) ->
  (forall fuel, fuel <= k ->
     GraphPy.generate prng ba ws fuel self nnode seed global = None) /\
  (Nx.is_connected (GraphPy.er_draw prng k nnode p seed global) = Ok true ->
   forall fuel, k < fuel ->
     GraphPy.generate prng ba ws fuel self nnode seed global =
     Some (Ok (GraphPy.finish self (GraphPy.er_draw prng k nnode p seed global),
               GraphPy.er_global prng (S k) nnode p seed global))) /\
  (forall e,
     Nx.is_connected (GraphPy.er_draw prng k nnode p seed global) = Raise e ->
     e = NetworkXPointlessConcept /\ nnode = 0%Z /\
     forall fuel, k < fuel ->
       GraphPy.generate prng ba ws fuel self nnode seed global = Some (Raise e)).
Proof.
  intros Hm Hp Hn Hdis. split; [|split].
  - intros fuel Hle. rewrite (generate_er prng ba ws fuel self p) by assumption.
    now rewrite (er_loop_running prng nnode p seed k fuel global).
  - intros Hc fuel Hlt. rewrite (generate_er prng ba ws fuel self p) by assumption.
    rewrite (er_loop_at prng nnode p seed k fuel global) by assumption.
    now rewrite Hc.
  - intros e He.
    assert (Hnull : e = NetworkXPointlessConcept /\ nnode = 0%Z).
    { unfold Nx.is_connected, GraphPy.er_draw in He.
      rewrite erdos_renyi_nodes in He.
      destruct (Z.to_nat nnode) eqn:E; cbn [seq] in He; [|discriminate].
      injection He as <-. split; [reflexivity|lia]. }
    split; [apply Hnull|]. split; [apply Hnull|].
    intros fuel Hlt. rewrite (generate_er prng ba ws fuel self p) by assumption.
    rewrite (er_loop_at prng nnode p seed k fuel global) by assumption.
    now rewrite He.
Qed.

Lemma er_loop_ends_at_first_connected_draw_witness :
  (forall fuel, fuel <= 1 ->
     GraphPy.generate (fun _ => Examples.zeros) Examples.no_graph Examples.no_graph'
       fuel (Examples.er (1 # 2)) 2 None Examples.late = None) /\
  (Nx.is_connected
     (GraphPy.er_draw (fun _ => Examples.zeros) 1 2 (1 # 2) None Examples.late)
   = Ok true ->
   forall fuel, 1 < fuel ->
     GraphPy.generate (fun _ => Examples.zeros) Examples.no_graph Examples.no_graph'
       fuel (Examples.er (1 # 2)) 2 None Examples.late =
     Some (Ok (GraphPy.finish (Examples.er (1 # 2))
                 (GraphPy.er_draw (fun _ => Examples.zeros) 1 2 (1 # 2) None
                                  Examples.late),
               GraphPy.er_global (fun _ => Examples.zeros) 2 2 (1 # 2) None
                                 Examples.late))) /\
  (forall e,
     Nx.is_connected
       (GraphPy.er_draw (fun _ => Examples.zeros) 1 2 (1 # 2) None Examples.late)
     = Raise e ->
     e = NetworkXPointlessConcept /\ 2%Z = 0%Z /\
     forall fuel, 1 < fuel ->
       GraphPy.generate (fun _ => Examples.zeros) Examples.no_graph Examples.no_graph'
         fuel (Examples.er (1 # 2)) 2 None Examples.late = Some (Raise e)).
Proof.
  apply (er_loop_ends_at_first_connected_draw (fun _ => Examples.zeros)
           Examples.no_graph Examples.no_graph' (Examples.er (1 # 2)) (1 # 2)
           2%Z None Examples.late 1).
  - reflexivity.
  - reflexivity.
  - lia.
  - intros j Hj. assert (j = 0) as -> by lia. vm_compute. reflexivity.
Defined.

(** C3, as stated, fails: no number of draws bounds the loop.  With [P = 0]
    and two nodes every draw is the graph without edges, and the loop is
    still running after any number of draws. *)
Lemma er_loop_has_no_cap :
  ~ (exists cap : nat,
       forall (prng : Z -> Nx.rng)
              (ba : Z -> Z -> Nx.rng -> result (Nx.Graph * Nx.rng))
              (ws : Z -> Z -> Q -> Nx.rng -> result (Nx.Graph * Nx.rng))
              (self : GraphPy.GraphGenerator) (nnode : Z) (seed : option Z)
              (global : Nx.rng),
         GraphPy.GraphGenerator_init (GraphPy.model self) (GraphPy.params self)
                                     (GraphPy.directed self) = Ok self ->
         GraphPy.model self = "ER"%string ->
         GraphPy.generate prng ba ws cap self nnode seed global <> None).
Proof.
  intros [cap H].
  apply (H (fun _ => Examples.zeros) Examples.no_graph Examples.no_graph'
           (Examples.er 0) 2%Z None Examples.zeros eq_refl eq_refl).
  rewrite (generate_er _ _ _ cap (Examples.er 0) 0) by reflexivity.
  now rewrite (er_loop_running (fun _ => Examples.zeros) 2 0 None cap cap
                               Examples.zeros) by (intros; reflexivity || lia).
Qed.

End Generator.

Import Py PyFacts NxFacts LivenessFacts.

(** * Batches of graphs and the reordering search *)

Module Batch.

Section GetGraphs.

Variable prng : Z -> Nx.rng.
Variable barabasi_albert_graph : Z -> Z -> Nx.rng -> result (Nx.Graph * Nx.rng).
Variable watts_strogatz_graph :
  Z -> Z -> Q -> Nx.rng -> result (Nx.Graph * Nx.rng).

(** The loop of [get_graphs] cannot come to its end when some index of its
    range has no seed. *)
Lemma generate_each_short_seeds (fuel : nat) (gen : GraphPy.GraphGenerator)
  (nnodes : list Z) (seeds : list (option Z)) (range : list nat) :
  (exists i, In i range /\ length seeds <= i) ->
  forall Gs global r,
    GraphPy.generate_each prng barabasi_albert_graph watts_strogatz_graph
      fuel gen nnodes seeds range Gs global <> Some (Ok r).
Proof.
  induction range as [|a range IH]; intros [i [Hin Hi]] Gs global r.
  - contradiction.
  - cbn [GraphPy.generate_each].
    destruct (Py.getitem nnodes a) as [nnode|e]; [|discriminate].
    unfold Py.getitem at 1.
    destruct (nth_error seeds a) as [seed|] eqn:Ea; [|discriminate].
    destruct (GraphPy.generate _ _ _ fuel gen nnode seed global)
      as [[[G global']|e]|]; try discriminate.
    apply IH. destruct Hin as [->|Hin].
    + exfalso. apply nth_error_None in Hi. congruence.
    + now exists i.
Qed.

(** With an integer seed and at least one graph requested, [get_graphs]
    never returns: one seed is missing. *)
Lemma get_graphs_scalar_seed (fuel : nat) (model : String.string)
  (params : GraphPy.Params) (ngraphs : Z) (nnodes : Z + list Z) (s : Z)
  (global : Nx.rng) :
  (1 <= ngraphs)%Z ->
  forall r,
    GraphPy.get_graphs prng barabasi_albert_graph watts_strogatz_graph
      fuel model params ngraphs nnodes (Some (inl s)) global <> Some (Ok r).
Proof.
  intros Hn r. unfold GraphPy.get_graphs.
  destruct (GraphPy.GraphGenerator_init model params true) as [gen|e];
    [|discriminate].
  apply generate_each_short_seeds.
  exists (Z.to_nat ngraphs - 1). split.
  - apply in_seq. lia.
  - rewrite length_map, length_seq. lia.
Qed.

(** C6 at the failing input.  For one graph and the integer seed 42 the
    derived seed list is empty and [seeds[0]] raises [IndexError]; for two
    graphs the first is generated with seed 42 and [seeds[1]] raises. *)
Theorem get_graphs_scalar_seed_index_error (fuel : nat) (global : Nx.rng) :
  GraphPy.get_graphs prng barabasi_albert_graph watts_strogatz_graph
    fuel "ER"%string {| GraphPy.P := Some 1%Q; GraphPy.M := None; GraphPy.K := None |}
    1 (inl 3%Z) (Some (inl 42%Z)) global = Some (Raise IndexError) /\
  GraphPy.get_graphs prng barabasi_albert_graph watts_strogatz_graph
    (S fuel) "ER"%string {| GraphPy.P := Some 1%Q; GraphPy.M := None; GraphPy.K := None |}
    2 (inl 3%Z) (Some (inl 42%Z)) global = Some (Raise IndexError).
Proof. split; reflexivity. Qed.

End GetGraphs.

(** A live list at position [k] has at most [k] entries. *)
Lemma live_at_length (ispans : list nat) (k : nat) :
  k <= length ispans -> length (Liveness.live_at ispans k) <= k.
Proof.
  intros Hk. rewrite live_at_filter by assumption.
  etransitivity; [apply filter_length_le|]. now rewrite length_seq.
Qed.

Lemma peak_below_node_count (ispans nxorder : list nat) (m : nat) :
  length ispans = length nxorder ->
  Liveness.peak (Liveness.live_sets ispans nxorder) = Ok m ->
  m < length nxorder.
Proof.
  intros Hlen Hm. unfold Liveness.peak in Hm.
  apply max_spec in Hm as [Hin _].
  apply in_map_iff in Hin as [lv [<- Hlv]].
  apply In_nth_error in Hlv as [k Hk].
  assert (Hlt : k < length nxorder).
  { rewrite <- (live_sets_length ispans nxorder). apply nth_error_Some. congruence. }
  rewrite live_sets_nth in Hk by assumption. injection Hk as <-.
  pose proof (live_at_length ispans k). lia.
Qed.

(** One trial: the peak reported is that of the graph given, the graph
    returned is its relabelling. *)
Lemma search_one_trial (G : Nx.DiGraph) (sigma new_order mapping : list nat) :
  Nx.wf G -> Nx.topological G sigma ->
  Py.mapM (Py.getitem new_order) (seq 0 (Nx.number_of_nodes G)) = Ok mapping ->
  0 < Nx.number_of_nodes G ->
  exists m,
    GraphPy.plan_peak G = Ok m /\
    GraphPy.search G [new_order] =
    Ok (Nx.relabel_nodes G (fun n => nth n mapping n), m).
Proof.
  intros Hwf Hsigma Hmap Hpos.
  destruct (SortFacts.lexicographical_least G Hwf sigma Hsigma)
    as [order [Hsort [Htopo _]]].
  destruct (ispans_of_spec G order Htopo) as [ispans [Hisp [Hlen _]]].
  pose proof (order_length G order Hwf Htopo) as HN.
  destruct (max_nonempty (map (@length nat) (Liveness.live_sets ispans order)))
    as [m Hm].
  { destruct order; [simpl in HN; lia | discriminate]. }
  exists m. unfold GraphPy.plan_peak, GraphPy.search. cbn [GraphPy.reorder_loop].
  rewrite Hsort. cbn [Py.bind]. rewrite Hisp. cbn [Py.bind].
  split; [exact Hm|]. rewrite Hmap. cbn [Py.bind].
  unfold Liveness.peak. rewrite Hm. cbn [Py.bind].
  pose proof (peak_below_node_count ispans order m Hlen Hm) as Hlt.
  rewrite HN in Hlt. apply Nat.ltb_lt in Hlt. rewrite Hlt. reflexivity.
Qed.

(** C2 at the failing input.  One trial on the zigzag with the permutation
    that exchanges 2 and 3 reports the peak 2 of the zigzag and returns the
    relabelled graph, whose own peak is 3. *)
Theorem search_returns_next_relabeling :
  GraphPy.plan_peak Examples.zigzag = Ok 2 /\
  GraphPy.search Examples.zigzag [[0; 1; 3; 2]] = Ok (Examples.zigzag', 2) /\
  GraphPy.plan_peak Examples.zigzag' = Ok 3.
Proof. repeat split; reflexivity. Qed.

End Batch.

Import Py PyFacts NxFacts LivenessFacts DeleteFacts ExecutorFacts SortFacts.

(** * More on the live lists and on the executor *)

Module Plan.

(** X1.  A position is in [live[k]] exactly when its buffer is still needed:
    it was produced before step [k], and its node has no successor at all or
    has a successor placed at position [k] or later. *)
Theorem live_iff_needed (v : Nx.release) (G : Nx.DiGraph) (sigma : list nat)
  (k : nat) :
  Nx.wf G -> Nx.topological G sigma -> k < Nx.number_of_nodes G ->
  exists net lv,
    RandomNet.init v G = Ok net /\
    nth_error (RandomNet.live net) k = Some lv /\
    forall i,
      In i lv <->
      i < k /\
      exists n, nth_error (RandomNet.nxorder net) i = Some n /\
                (Nx.succ G n = [] \/
                 exists w j, In w (Nx.succ G n) /\
                             Py.find_index w (RandomNet.nxorder net) = Some j /\
                             k <= j).
Proof.
  intros Hwf Hsigma Hk.
  destruct (Scheduler.init_spec v G sigma Hwf Hsigma)
    as [order [ispans [_ [Htopo [Hisp Hinit]]]]].
  pose proof (order_length G order Hwf Htopo) as Hlen.
  pose proof (ispans_length G order Htopo ispans Hisp) as Hlen'.
  eexists. exists (Liveness.live_at ispans k).
  split; [exact Hinit|]. cbn [RandomNet.nxorder RandomNet.live].
  split; [apply live_sets_nth; lia|].
  intros i. rewrite in_live_at by lia. split.
  - intros [Hik Hspan]. split; [assumption|].
    destruct (nth_error order i) as [n|] eqn:En.
    2:{ apply nth_error_None in En. lia. }
    exists n. split; [reflexivity|].
    pose proof (ispans_nth G order Htopo ispans Hisp i n En) as Hs.
    destruct (span_of_spec G order Htopo n (nth_error_In _ _ En))
      as [s [Hs' [_ Hcons]]].
    assert (s = nth i ispans 0) by congruence. subst s.
    destruct (Nx.succ G n) as [|w l] eqn:Es; [now left|]. right.
    destruct Hcons as [[last [Hlast Hpos]] _]; [discriminate|].
    exists last, (nth i ispans 0). repeat split; assumption.
  - intros [Hik [n [En Hneed]]]. split; [assumption|].
    pose proof (ispans_nth G order Htopo ispans Hisp i n En) as Hs.
    destruct (span_of_spec G order Htopo n (nth_error_In _ _ En))
      as [s [Hs' [Hnil Hcons]]].
    assert (s = nth i ispans 0) by congruence. subst s.
    destruct Hneed as [Hsink|[w [j [Hw [Hj Hkj]]]]].
    + rewrite (Hnil Hsink). unfold Nx.number_of_nodes in *. lia.
    + destruct Hcons as [_ Hmax].
      { intros E. rewrite E in Hw. contradiction. }
      specialize (Hmax w j Hw Hj). lia.
Qed.

Lemma live_iff_needed_witness :
  exists net lv,
    RandomNet.init Nx.Nx3 Examples.fork = Ok net /\
    nth_error (RandomNet.live net) 3 = Some lv /\
    forall i,
      In i lv <->
      i < 3 /\
      exists n, nth_error (RandomNet.nxorder net) i = Some n /\
                (Nx.succ Examples.fork n = [] \/
                 exists w j, In w (Nx.succ Examples.fork n) /\
                             Py.find_index w (RandomNet.nxorder net) = Some j /\
                             3 <= j).
Proof.
  apply (live_iff_needed Nx.Nx3 Examples.fork [0; 1; 2; 3; 4] 3).
  - apply wfb_sound. vm_compute. reflexivity.
  - apply topologicalb_sound. vm_compute. reflexivity.
  - unfold Examples.fork, Nx.number_of_nodes. simpl. lia.
Defined.

Lemma no_isolatedb_sound (G : Nx.DiGraph) :
  Nx.no_isolatedb G = true -> Nx.no_isolated G.
Proof.
  unfold Nx.no_isolatedb, Nx.no_isolated. rewrite forallb_forall.
  intros H n Hn. specialize (H n Hn).
  apply negb_true_iff, Nat.eqb_neq in H. exact H.
Qed.

Lemma denseb_sound (G : Nx.DiGraph) : Nx.denseb G = true -> Nx.dense G.
Proof.
  unfold Nx.denseb, Nx.dense. rewrite forallb_forall.
  intros H n Hn. now apply Nat.ltb_lt, H.
Qed.

(** The peak of the live lists of a topological order. *)
Lemma peak_of_order (G : Nx.DiGraph) (order ispans : list nat) :
  Nx.wf G -> Nx.topological G order ->
  Liveness.ispans_of G order = Ok ispans -> 0 < length order ->
  exists m,
    Liveness.peak (Liveness.live_sets ispans order) = Ok m /\
    m <= length order - 1 /\ (2 <= length order -> 1 <= m) /\
    forall k, k < length order -> length (Liveness.live_at ispans k) <= m.
Proof.
  intros Hwf Htopo Hisp Hpos.
  pose proof (ispans_length G order Htopo ispans Hisp) as Hlen.
  destruct (max_nonempty (map (@length nat) (Liveness.live_sets ispans order)))
    as [m Hm].
  { destruct order; [simpl in Hpos; lia | discriminate]. }
  exists m. split; [exact Hm|].
  pose proof (Batch.peak_below_node_count ispans order m Hlen Hm) as Hup.
  apply max_spec in Hm as [_ Hmax].
  assert (Hk : forall k, k < length order ->
                         length (Liveness.live_at ispans k) <= m).
  { intros k Hk. apply Hmax. apply in_map.
    eapply nth_error_In. apply live_sets_nth. exact Hk. }
  split; [lia|]. split; [|exact Hk].
  intros H2. specialize (Hk 1 H2).
  pose proof (span_bounds G order Hwf Htopo ispans Hisp 0 Hpos) as Hb.
  rewrite live_at_filter in Hk by lia. cbn [seq filter] in Hk.
  replace (1 <=? nth 0 ispans 0) with true in Hk
    by (symmetry; apply Nat.leb_le; lia).
  exact Hk.
Qed.

(** X2.  On a non-empty acyclic graph the peak live count, for the executor's
    order as for the order of the search, is at most the number of nodes
    minus one, and at least one when there are two nodes or more. *)
Theorem peak_bounds (v : Nx.release) (G : Nx.DiGraph) (sigma : list nat) :
  Nx.wf G -> Nx.topological G sigma -> 0 < Nx.number_of_nodes G ->
  exists net m m',
    RandomNet.init v G = Ok net /\
    Liveness.peak (RandomNet.live net) = Ok m /\
    GraphPy.plan_peak G = Ok m' /\
    m <= Nx.number_of_nodes G - 1 /\ m' <= Nx.number_of_nodes G - 1 /\
    (2 <= Nx.number_of_nodes G -> 1 <= m /\ 1 <= m').
Proof.
  intros Hwf Hsigma Hpos.
  destruct (Scheduler.init_spec v G sigma Hwf Hsigma)
    as [order [ispans [_ [Htopo [Hisp Hinit]]]]].
  pose proof (order_length G order Hwf Htopo) as Hlen.
  destruct (peak_of_order G order ispans Hwf Htopo Hisp) as [m [Hm [Hup [Hlow _]]]];
    [lia|].
  destruct (lexicographical_least G Hwf sigma Hsigma) as [lorder [Hsort [Hlt _]]].
  destruct (ispans_of_spec G lorder Hlt) as [lspans [Hlisp _]].
  pose proof (order_length G lorder Hwf Hlt) as Hllen.
  destruct (peak_of_order G lorder lspans Hwf Hlt Hlisp) as [m' [Hm' [Hup' [Hlow' _]]]];
    [lia|].
  eexists. exists m, m'. split; [exact Hinit|]. cbn [RandomNet.live].
  split; [exact Hm|]. split.
  - unfold GraphPy.plan_peak. rewrite Hsort. cbn [Py.bind]. rewrite Hlisp. exact Hm'.
  - rewrite <- Hlen at 1. rewrite <- Hllen at 1. split; [exact Hup|].
    split; [exact Hup'|]. intros H2. split; [apply Hlow | apply Hlow']; lia.
Qed.

Lemma peak_bounds_witness :
  exists net m m',
    RandomNet.init Nx.Nx2 Examples.fork = Ok net /\
    Liveness.peak (RandomNet.live net) = Ok m /\
    GraphPy.plan_peak Examples.fork = Ok m' /\
    m <= Nx.number_of_nodes Examples.fork - 1 /\
    m' <= Nx.number_of_nodes Examples.fork - 1 /\
    (2 <= Nx.number_of_nodes Examples.fork -> 1 <= m /\ 1 <= m').
Proof.
  apply (peak_bounds Nx.Nx2 Examples.fork [0; 1; 2; 3; 4]).
  - apply wfb_sound. vm_compute. reflexivity.
  - apply topologicalb_sound. vm_compute. reflexivity.
  - unfold Examples.fork, Nx.number_of_nodes. simpl. lia.
Defined.

(** X3.  When the loop of [forward] reaches a position, [outs] holds as many
    buffers as the live list of the position has entries, which is never
    more than the peak of the plan. *)
Theorem outs_within_peak
  (Buf : Type) (Node : nat -> list Buf -> Buf) (x : Buf)
  (v : Nx.release) (G : Nx.DiGraph) (sigma : list nat) (k : nat) :
  Nx.wf G -> Nx.topological G sigma -> Nx.dense G ->
  k < Nx.number_of_nodes G ->
  exists net outs lv m,
    RandomNet.init v G = Ok net /\
    RandomNet.outs_at Node net x k = Ok outs /\
    nth_error (RandomNet.live net) k = Some lv /\
    Liveness.peak (RandomNet.live net) = Ok m /\
    length outs = length lv /\ length outs <= m.
Proof.
  intros Hwf Hsigma Hdense Hk.
  destruct (Scheduler.init_spec v G sigma Hwf Hsigma)
    as [order [ispans [_ [Htopo [Hisp Hinit]]]]].
  pose proof (order_length G order Hwf Htopo) as Hlen.
  destruct (peak_of_order G order ispans Hwf Htopo Hisp) as [m [Hm [_ [_ Hall]]]];
    [lia|].
  eexists. eexists. exists (Liveness.live_at ispans k), m.
  split; [exact Hinit|]. cbn [RandomNet.live].
  split; [apply (outs_at_aligned Buf Node G order Hwf Htopo Hdense ispans Hisp x k); lia|].
  split; [apply live_sets_nth; lia|]. split; [exact Hm|].
  rewrite length_map. split; [reflexivity | apply Hall; lia].
Qed.

Lemma outs_within_peak_witness :
  exists net outs lv m,
    RandomNet.init Nx.Nx3 Examples.fork = Ok net /\
    RandomNet.outs_at (fun n _ => n) net 7 4 = Ok outs /\
    nth_error (RandomNet.live net) 4 = Some lv /\
    Liveness.peak (RandomNet.live net) = Ok m /\
    length outs = length lv /\ length outs <= m.
Proof.
  apply (outs_within_peak nat (fun n _ => n) 7 Nx.Nx3 Examples.fork
                          [0; 1; 2; 3; 4] 4).
  - apply wfb_sound. vm_compute. reflexivity.
  - apply topologicalb_sound. vm_compute. reflexivity.
  - apply denseb_sound. vm_compute. reflexivity.
  - unfold Examples.fork, Nx.number_of_nodes. simpl. lia.
Defined.

End Plan.

(** * The executor at its limits *)

Module Limits.

(** X4.  On a graph without nodes [RandomNetwork.__init__] succeeds with an
    empty order and [forward] raises the [RuntimeError] of [torch.stack] on
    an empty list; the peak computation of [graph.py] raises the
    [ValueError] of [max] on an empty list, in every trial of the search,
    and the search without a trial fails on [Gopt = None]. *)
Theorem empty_graph
  (Buf : Type) (Node : nat -> list Buf -> Buf) (mean : list Buf -> Buf) (x : Buf)
  (v : Nx.release) (G : Nx.DiGraph) :
  Nx.wf G -> Nx.nodes G = [] ->
  exists net,
    RandomNet.init v G = Ok net /\
    RandomNet.nxorder net = [] /\ RandomNet.live net = [] /\
    RandomNet.forward Node mean net x = Raise RuntimeError /\
    GraphPy.plan_peak G = Raise ValueError /\
    GraphPy.search G [] = Raise AttributeError /\
    forall new_order perms,
      GraphPy.search G (new_order :: perms) = Raise ValueError.
Proof.
  intros [_ [_ Hends]] Hnodes. destruct G as [ns es]. simpl in *. subst ns.
  assert (es = []) as ->.
  { destruct es as [|[a b] es]; [reflexivity|].
    destruct (Hends a b (or_introl eq_refl)) as [[] _]. }
  destruct v; eexists; repeat split; reflexivity.
Qed.

Lemma empty_graph_witness :
  exists net,
    RandomNet.init Nx.Nx3 (Examples.chain 0) = Ok net /\
    RandomNet.nxorder net = [] /\ RandomNet.live net = [] /\
    RandomNet.forward (fun n _ => n) (fun _ => 0) net 7 = Raise RuntimeError /\
    GraphPy.plan_peak (Examples.chain 0) = Raise ValueError /\
    GraphPy.search (Examples.chain 0) [] = Raise AttributeError /\
    forall new_order perms,
      GraphPy.search (Examples.chain 0) (new_order :: perms) = Raise ValueError.
Proof.
  apply (empty_graph nat (fun n _ => n) (fun _ => 0) 7 Nx.Nx3 (Examples.chain 0)).
  - apply wfb_sound. vm_compute. reflexivity.
  - reflexivity.
Defined.

(** The last node of a topological order has no successor. *)
Lemma last_is_sink (G : Nx.DiGraph) (order : list nat) (n : nat) :
  Nx.topological G order ->
  nth_error order (length order - 1) = Some n -> Nx.succ G n = [].
Proof.
  intros Htopo Hn. destruct (Nx.succ G n) as [|w l] eqn:Es; [reflexivity|].
  assert (Hw : In (n, w) (Nx.edges G)) by (apply in_succ; rewrite Es; now left).
  destruct (edge_positions G order Htopo n w Hw)
    as [i [j [_ [_ [Hi [_ [Hlt Hj]]]]]]].
  rewrite (position_unique G order Htopo _ n Hn) in Hi. injection Hi as <-. lia.
Qed.

(** X5.  Beyond 257 nodes [forward] fails.  The test
    [order is not len(self.nxorder) - 1] compares two int objects, which are
    the same object only up to 256, so at the last position the loop goes on
    to read [self.live[order + 1]], one past the end, as soon as the last
    node has a predecessor, which it has when no node is isolated:
    [IndexError]. *)
Theorem forward_fails_beyond_small_ints
  (Buf : Type) (Node : nat -> list Buf -> Buf) (mean : list Buf -> Buf) (x : Buf)
  (v : Nx.release) (G : Nx.DiGraph) (sigma : list nat) :
  Nx.wf G -> Nx.topological G sigma -> Nx.dense G -> Nx.no_isolated G ->
  Py.small_int_max + 1 < Nx.number_of_nodes G ->
  exists net,
    RandomNet.init v G = Ok net /\
    RandomNet.forward Node mean net x = Raise IndexError.
Proof.
  intros Hwf Hsigma Hdense Hiso Hbig.
  destruct (Scheduler.init_spec v G sigma Hwf Hsigma)
    as [order [ispans [_ [Htopo [Hisp Hinit]]]]].
  pose proof (order_length G order Hwf Htopo) as Hlen.
  eexists. split; [exact Hinit|].
  destruct (nth_error order (length order - 1)) as [n|] eqn:En.
  2:{ apply nth_error_None in En. lia. }
  apply (forward_past_small_ints Buf Node G order Hwf Htopo Hdense ispans Hisp
                                 x mean n); [lia | exact En |].
  pose proof (last_is_sink G order n Htopo En) as Hsink.
  assert (Hn : In n (Nx.nodes G)).
  { apply Htopo. eapply nth_error_In; eassumption. }
  specialize (Hiso n Hn). unfold Nx.in_degree, Nx.out_degree in Hiso.
  rewrite Hsink in Hiso. intros E. rewrite E in Hiso. simpl in Hiso. lia.
Qed.

Lemma forward_fails_beyond_small_ints_witness :
  exists net,
    RandomNet.init Nx.Nx3 (Examples.chain 258) = Ok net /\
    RandomNet.forward (fun n _ => n) (fun _ => 0) net 7 = Raise IndexError.
Proof.
  apply (forward_fails_beyond_small_ints nat (fun n _ => n) (fun _ => 0) 7
           Nx.Nx3 (Examples.chain 258) (seq 0 258)).
  - apply wfb_sound. vm_compute. reflexivity.
  - apply topologicalb_sound. vm_compute. reflexivity.
  - apply Plan.denseb_sound. vm_compute. reflexivity.
  - apply Plan.no_isolatedb_sound. vm_compute. reflexivity.
  - vm_compute. lia.
Defined.

(** On one to 257 nodes [forward] returns. *)
Lemma forward_aggregates_witness :
  exists net ispans held,
    RandomNet.init Nx.Nx3 Examples.fork = Ok net /\
    Liveness.ispans_of Examples.fork (RandomNet.nxorder net) = Ok ispans /\
    StronglySorted lt held /\
    (forall i, In i held <->
               i < Nx.number_of_nodes Examples.fork /\
               Nx.number_of_nodes Examples.fork - 1 <= nth i ispans 0) /\
    RandomNet.forward (fun n _ => S n) (@list_sum) net 7 =
    Ok (list_sum (map (RandomNet.buffer (fun n _ => S n) net 7) held)).
Proof.
  apply (Executor.forward_aggregates nat (fun n _ => S n) (@list_sum) 7 Nx.Nx3
           Examples.fork [0; 1; 2; 3; 4]).
  - apply wfb_sound. vm_compute. reflexivity.
  - apply topologicalb_sound. vm_compute. reflexivity.
  - apply Plan.denseb_sound. vm_compute. reflexivity.
  - vm_compute. lia.
  - vm_compute. lia.
Defined.

End Limits.

Import Py PyFacts NxFacts LivenessFacts SortFacts.

(** * Cyclic graphs *)

Module Acyclicity.

(** A path goes forward in every topological order. *)
Lemma path_before (G : Nx.DiGraph) (sigma : list nat) (u v : nat) :
  Nx.topological G sigma -> Nx.path (Nx.edges G) u v -> Nx.before sigma u v.
Proof.
  intros Htopo. induction 1 as [u v H|u w v H _ IH].
  - now apply Htopo.
  - destruct Htopo as [_ [_ Hfwd]].
    destruct (Hfwd u w H) as [i [j [Hi [Hj Hlt]]]].
    destruct IH as [j' [l [Hj' [Hl Hlt']]]].
    exists i, l. repeat split; try assumption.
    rewrite Hj in Hj'. injection Hj' as <-. lia.
Qed.

Lemma cycle_no_order (G : Nx.DiGraph) (u : nat) :
  Nx.path (Nx.edges G) u u -> forall sigma, ~ Nx.topological G sigma.
Proof.
  intros Hpath sigma Htopo.
  destruct (path_before G sigma u u Htopo Hpath) as [i [j [Hi [Hj Hlt]]]].
  rewrite Hi in Hj. injection Hj as <-. lia.
Qed.

(** How the sort ends on a well-formed graph: with a topological order, or
    with [NetworkXUnfeasible] when the graph has none. *)
Lemma kahn_outcome (G : Nx.DiGraph) (pop : list nat -> option (nat * list nat)) :
  Nx.wf G -> Nx.fair pop ->
  (exists out, Nx.kahn pop G = Ok out /\ Nx.topological G out) \/
  (Nx.kahn pop G = Raise NetworkXUnfeasible /\
   forall sigma, ~ Nx.topological G sigma).
Proof.
  intros Hwf Hpop. unfold Nx.kahn.
  destruct (kahn_loop_total G Hwf pop Hpop (Nx.number_of_nodes G) _ _ []
                            (initial_inv G Hwf))
    as [out [indeg [Hloop [Hinv _]]]]; [simpl; lia|].
  rewrite Hloop. destruct indeg as [|[k d] indeg].
  - left. exists out. split; [reflexivity|].
    pose proof (Nx.inv_nodup Hinv) as Hnd. rewrite app_nil_r in Hnd.
    assert (Hall : forall v, In v (Nx.nodes G) -> In v out).
    { intros v Hv. pose proof (Nx.inv_ready Hinv v) as Hr.
      rewrite app_nil_r in Hr. apply Hr. split; [assumption|].
      pose proof (Nx.inv_indeg Hinv v) as Hl. simpl in Hl.
      apply mem_In in Hv. rewrite Hv in Hl. simpl in Hl.
      destruct (Nat.ltb_spec 0 (Nx.remaining G out v)); [discriminate | lia]. }
    split; [assumption|]. split.
    + intros n. split; [|apply Hall].
      intros Hn. pose proof (Nx.inv_ready Hinv n) as Hr. rewrite app_nil_r in Hr.
      now apply Hr.
    + intros u v Huv. apply (Nx.inv_prefix Hinv u v Huv). apply Hall.
      now apply Hwf in Huv.
  - right. split; [reflexivity|]. intros sigma Hsigma.
    destruct (kahn_complete G _ out sigma Hinv Hsigma) as [_ E].
    discriminate E.
Qed.

(** X7.  [RandomNetwork.__init__] accepts a well-formed graph exactly when
    the graph has a topological order; on a graph without one, in particular
    on one with a cycle, it fails with the [NetworkXUnfeasible] of the sort,
    and it fails in no other way. *)
Theorem init_iff_acyclic (v : Nx.release) (G : Nx.DiGraph) :
  Nx.wf G ->
  ((exists net, RandomNet.init v G = Ok net) <->
   (exists sigma, Nx.topological G sigma)) /\
  ((forall sigma, ~ Nx.topological G sigma) ->
   RandomNet.init v G = Raise NetworkXUnfeasible) /\
  ((exists u, Nx.path (Nx.edges G) u u) ->
   RandomNet.init v G = Raise NetworkXUnfeasible) /\
  (forall e, RandomNet.init v G = Raise e -> e = NetworkXUnfeasible).
Proof.
  intros Hwf.
  assert (Hpop : Nx.fair (match v with Nx.Nx2 => Nx.pop_last
                                     | Nx.Nx3 => Nx.pop_first end)).
  { destruct v; [apply pop_last_fair | apply pop_first_fair]. }
  assert (Hsort : Nx.topological_sort v G =
                  Nx.kahn (match v with Nx.Nx2 => Nx.pop_last
                                      | Nx.Nx3 => Nx.pop_first end) G).
  { now destruct v. }
  assert (Hnone : (forall sigma, ~ Nx.topological G sigma) ->
                  RandomNet.init v G = Raise NetworkXUnfeasible).
  { intros Hno. unfold RandomNet.init. rewrite Hsort.
    destruct (kahn_outcome G _ Hwf Hpop) as [[out [_ Hout]]|[E _]].
    - exfalso. exact (Hno out Hout).
    - now rewrite E. }
  split; [|split; [exact Hnone|split]].
  - split.
    + intros [net Hnet]. unfold RandomNet.init in Hnet. rewrite Hsort in Hnet.
      destruct (kahn_outcome G _ Hwf Hpop) as [[out [_ Hout]]|[E _]].
      * now exists out.
      * rewrite E in Hnet. discriminate.
    + intros [sigma Hsigma].
      destruct (Scheduler.init_spec v G sigma Hwf Hsigma)
        as [order [ispans [_ [_ [_ Hinit]]]]].
      eexists. exact Hinit.
  - intros [u Hu]. apply Hnone. now apply (cycle_no_order G u).
  - intros e He.
    destruct (kahn_outcome G _ Hwf Hpop) as [[out [_ Hout]]|[_ Hno]].
    + destruct (Scheduler.init_spec v G out Hwf Hout)
        as [order [ispans [_ [_ [_ Hinit]]]]].
      rewrite Hinit in He. discriminate.
    + rewrite (Hnone Hno) in He. now injection He.
Qed.

Lemma init_iff_acyclic_witness :
  ((exists net, RandomNet.init Nx.Nx3 Examples.cycle2 = Ok net) <->
   (exists sigma, Nx.topological Examples.cycle2 sigma)) /\
  ((forall sigma, ~ Nx.topological Examples.cycle2 sigma) ->
   RandomNet.init Nx.Nx3 Examples.cycle2 = Raise NetworkXUnfeasible) /\
  ((exists u, Nx.path (Nx.edges Examples.cycle2) u u) ->
   RandomNet.init Nx.Nx3 Examples.cycle2 = Raise NetworkXUnfeasible) /\
  (forall e, RandomNet.init Nx.Nx3 Examples.cycle2 = Raise e ->
             e = NetworkXUnfeasible).
Proof.
  apply (init_iff_acyclic Nx.Nx3 Examples.cycle2).
  apply wfb_sound. vm_compute. reflexivity.
Defined.

End Acyclicity.

Import Py PyFacts NxFacts LivenessFacts SortFacts DagFacts.

(** * What [generate] returns *)

Module Generated.

Lemma to_dag_acyclic (G : Nx.Graph) : Nx.acyclic (GraphPy.to_dag G).
Proof.
  intros u Hpath. apply path_increasing in Hpath; [lia|].
  intros a b Hab. now apply in_to_dag in Hab.
Qed.

(** X8.  The conversion of lines 50-56 needs nothing of the undirected graph:
    whatever its edge list, self-loops and repeated edges included, the
    result keeps the nodes, holds exactly the pairs [u < v] of a node [u] and
    a neighbour [v], so that a self-loop is dropped without an error, and
    has no cycle. *)
Theorem to_dag_any_graph (G : Nx.Graph) :
  Nx.nodes (GraphPy.to_dag G) = Nx.gnodes G /\
  (forall u v, In (u, v) (Nx.edges (GraphPy.to_dag G)) <->
               u < v /\ In u (Nx.gnodes G) /\
               (In (u, v) (Nx.gedges G) \/ In (v, u) (Nx.gedges G))) /\
  (forall u, ~ In (u, u) (Nx.edges (GraphPy.to_dag G))) /\
  Nx.acyclic (GraphPy.to_dag G).
Proof.
  split; [apply to_dag_nodes|]. split; [intros u v; apply in_to_dag|]. split.
  - intros u H. apply in_to_dag in H. lia.
  - apply to_dag_acyclic.
Qed.

Lemma find_index_seq (a n i : nat) :
  i < n -> Py.find_index (a + i) (seq a n) = Some i.
Proof.
  intros Hi. apply find_index_of_nth; [apply seq_NoDup|].
  rewrite nth_error_nth' with (d := 0) by (rewrite length_seq; lia).
  now rewrite seq_nth.
Qed.

(** The directed graph of a well-kept undirected graph is well kept. *)
Lemma to_dag_wf (G : Nx.Graph) : Nx.simple G -> Nx.wf (GraphPy.to_dag G).
Proof.
  intros [Hnodes [Hedges Hends]]. split; [|split].
  - rewrite to_dag_nodes. exact Hnodes.
  - rewrite to_dag_edges. apply NoDup_filter. unfold Nx.to_directed. simpl.
    apply NoDup_pairs; [assumption|]. intros a. now apply NoDup_adj.
  - intros u v Huv. rewrite to_dag_nodes. apply in_to_dag in Huv.
    destruct Huv as [_ [Hu [H|H]]]; split; try assumption; now apply Hends in H.
Qed.

(** On nodes [0 .. n-1] the id order is a topological order of it. *)
Lemma to_dag_id_order (G : Nx.Graph) (n : nat) :
  Nx.simple G -> Nx.gnodes G = seq 0 n ->
  Nx.topological (GraphPy.to_dag G) (seq 0 n) /\ Nx.dense (GraphPy.to_dag G).
Proof.
  intros Hsimple Hn. pose proof (to_dag_wf G Hsimple) as Hwf. split.
  - split; [apply seq_NoDup|]. split.
    + intros u. now rewrite to_dag_nodes, Hn.
    + intros u v Huv. destruct (proj2 (proj2 Hwf) u v Huv) as [Hu Hv].
      rewrite to_dag_nodes, Hn in Hu, Hv. apply in_seq in Hu, Hv.
      apply in_to_dag in Huv as [Hlt _].
      exists u, v. split; [|split; [|exact Hlt]].
      * apply (find_index_seq 0 n u). lia.
      * apply (find_index_seq 0 n v). lia.
  - intros u Hu. unfold Nx.number_of_nodes.
    rewrite to_dag_nodes, Hn in *. rewrite length_seq. apply in_seq in Hu. lia.
Qed.

(** No arrangement of [a .. a+n-1] comes before the ascending one. *)
Lemma lex_le_seq (n : nat) :
  forall a l,
    NoDup l -> (forall x, In x l <-> In x (seq a n)) ->
    Nx.lex_le l (seq a n) -> l = seq a n.
Proof.
  induction n as [|n IH]; intros a l Hnd Hsame Hle.
  - destruct l as [|x l]; [reflexivity|].
    destruct (proj1 (Hsame x) (or_introl eq_refl)).
  - cbn [seq] in *. destruct l as [|x l].
    + destruct (proj2 (Hsame a) (or_introl eq_refl)).
    + assert (Hx : a <= x).
      { destruct (proj1 (Hsame x) (or_introl eq_refl)) as [->|H]; [lia|].
        apply in_seq in H. lia. }
      apply lex_le_cons_inv in Hle as [Hlt|[-> Hle]]; [lia|].
      inversion Hnd as [|? ? Hnotin Hnd']; subst. f_equal.
      apply IH; [assumption| |assumption].
      intros y. split.
      * intros Hy. destruct (proj1 (Hsame y) (or_intror Hy)) as [->|H];
          [contradiction | assumption].
      * intros Hy. destruct (proj2 (Hsame y) (or_intror Hy)) as [->|H];
          [|assumption]. apply in_seq in Hy. lia.
Qed.

(** X9.  [RandomNetwork] and the search of [graph.py] accept every graph
    [generate] can build from a well-kept undirected graph on nodes
    [0 .. n-1]: [__init__] succeeds, on 1 to 257 nodes [forward] returns, the
    lexicographical sort of the search is the id order [0, 1, ..., n-1], and
    the peak is computed. *)
Theorem generated_dag_runs
  (Buf : Type) (Node : nat -> list Buf -> Buf) (mean : list Buf -> Buf) (x : Buf)
  (v : Nx.release) (G : Nx.Graph) (n : nat) :
  Nx.simple G -> Nx.gnodes G = seq 0 n ->
  0 < n -> n - 1 <= Py.small_int_max ->
  exists net out m,
    RandomNet.init v (GraphPy.to_dag G) = Ok net /\
    RandomNet.nmodules net = n /\
    Nx.topological (GraphPy.to_dag G) (RandomNet.nxorder net) /\
    RandomNet.forward Node mean net x = Ok out /\
    Nx.lexicographical_topological_sort (GraphPy.to_dag G) = Ok (seq 0 n) /\
    GraphPy.plan_peak (GraphPy.to_dag G) = Ok m.
Proof.
  intros Hsimple Hn Hpos Hsmall.
  pose proof (to_dag_wf G Hsimple) as Hwf.
  destruct (to_dag_id_order G n Hsimple Hn) as [Hid Hdense].
  assert (HN : Nx.number_of_nodes (GraphPy.to_dag G) = n).
  { unfold Nx.number_of_nodes. now rewrite to_dag_nodes, Hn, length_seq. }
  destruct (Scheduler.init_spec v (GraphPy.to_dag G) (seq 0 n) Hwf Hid)
    as [order [ispans [_ [Htopo [Hisp Hinit]]]]].
  pose proof (order_length (GraphPy.to_dag G) order Hwf Htopo) as Hlen.
  pose proof (ExecutorFacts.forward_result Buf Node (GraphPy.to_dag G) order
                Hwf Htopo Hdense ispans Hisp x mean) as Hfw.
  destruct (lexicographical_least (GraphPy.to_dag G) Hwf (seq 0 n) Hid)
    as [lorder [Hsort [Hlt Hle]]].
  assert (lorder = seq 0 n) as ->.
  { apply lex_le_seq; [apply Hlt | | assumption].
    intros y. destruct Hlt as [_ [Hsame _]]. rewrite Hsame.
    now rewrite to_dag_nodes, Hn. }
  destruct (ispans_of_spec (GraphPy.to_dag G) (seq 0 n) Hid) as [lspans [Hlisp _]].
  destruct (Plan.peak_of_order (GraphPy.to_dag G) (seq 0 n) lspans Hwf Hid Hlisp)
    as [m [Hm _]]; [rewrite length_seq; lia|].
  eexists. eexists. exists m. split; [exact Hinit|].
  cbn [RandomNet.nmodules RandomNet.nxorder].
  split; [now rewrite to_dag_nodes, Hn, length_seq|].
  split; [assumption|]. split; [apply Hfw; lia|]. split; [assumption|].
  unfold GraphPy.plan_peak. rewrite Hsort. cbn [Py.bind]. rewrite Hlisp. exact Hm.
Qed.

Lemma generated_dag_runs_witness :
  exists net out m,
    RandomNet.init Nx.Nx3 (GraphPy.to_dag Examples.triangle) = Ok net /\
    RandomNet.nmodules net = 3 /\
    Nx.topological (GraphPy.to_dag Examples.triangle) (RandomNet.nxorder net) /\
    RandomNet.forward (fun n _ => n) (fun _ => 0) net 7 = Ok out /\
    Nx.lexicographical_topological_sort (GraphPy.to_dag Examples.triangle) =
    Ok (seq 0 3) /\
    GraphPy.plan_peak (GraphPy.to_dag Examples.triangle) = Ok m.
Proof.
  apply (generated_dag_runs nat (fun n _ => n) (fun _ => 0) 7 Nx.Nx3
                            Examples.triangle 3).
  - apply simpleb_sound. vm_compute. reflexivity.
  - reflexivity.
  - lia.
  - vm_compute. lia.
Defined.

Lemma in_combinations2 (n u v : nat) :
  In (u, v) (Nx.combinations2 n) <-> u < v /\ v < n.
Proof.
  unfold Nx.combinations2. rewrite in_pairs, !in_seq. lia.
Qed.

Lemma NoDup_combinations2 (n : nat) : NoDup (Nx.combinations2 n).
Proof.
  unfold Nx.combinations2. apply NoDup_pairs; [apply seq_NoDup|].
  intros a. apply seq_NoDup.
Qed.

Lemma map_snd_enumerate {A} (l : list A) : map snd (Py.enumerate l) = l.
Proof.
  unfold Py.enumerate. generalize 0 as b.
  induction l as [|a l IH]; intros b; simpl; [reflexivity|]. now rewrite IH.
Qed.

Lemma NoDup_map_filter {A B} (g : A -> B) (f : A -> bool) (l : list A) :
  NoDup (map g l) -> NoDup (map g (filter f l)).
Proof.
  induction l as [|a l IH]; simpl; intros H; [constructor|].
  inversion H as [|? ? Hnotin Hnd]; subst.
  destruct (f a); [|now apply IH]. simpl. constructor; [|now apply IH].
  intros Hin. apply Hnotin. apply in_map_iff in Hin as [b [E Hb]].
  apply filter_In in Hb as [Hb _]. rewrite <- E. now apply in_map.
Qed.

(** The model of [nx.erdos_renyi_graph] builds well-kept graphs on the nodes
    [0 .. n-1], every edge from the lower to the higher id. *)
Lemma erdos_renyi_simple (n : nat) (p : Q) (r : Nx.rng) :
  Nx.simple (fst (Nx.erdos_renyi_graph n p r)) /\
  Nx.loop_free (fst (Nx.erdos_renyi_graph n p r)).
Proof.
  assert (H : forall es,
             NoDup es -> (forall u v, In (u, v) es -> u < v /\ v < n) ->
             Nx.simple {| Nx.gnodes := seq 0 n; Nx.gedges := es |} /\
             Nx.loop_free {| Nx.gnodes := seq 0 n; Nx.gedges := es |}).
  { intros es Hnd Hin. split; [split; [|split]|].
    - apply seq_NoDup.
    - simpl. rewrite (map_ext_in Nx.normal (fun e => e)), map_id; [assumption|].
      intros [u v] Huv. apply Hin in Huv. unfold Nx.normal. simpl.
      f_equal; lia.
    - simpl. intros u v Huv. apply Hin in Huv. rewrite !in_seq. lia.
    - intros u v Huv. simpl in Huv. apply Hin in Huv. lia. }
  unfold Nx.erdos_renyi_graph.
  destruct (Qle_bool p 0); [|destruct (Qle_bool 1 p)]; cbn [fst]; apply H.
  - constructor.
  - intros u v [].
  - apply NoDup_combinations2.
  - intros u v. apply in_combinations2.
  - apply NoDup_map_filter. rewrite map_snd_enumerate. apply NoDup_combinations2.
  - intros u v Huv. apply in_map_iff in Huv as [[i e] [E Hie]]. simpl in E. subst e.
    apply filter_In in Hie as [Hie _].
    apply in_combinations2. rewrite <- (map_snd_enumerate (Nx.combinations2 n)).
    apply in_map_iff. now exists (i, (u, v)).
Qed.

Section Returned.

Variable prng : Z -> Nx.rng.
Variable barabasi_albert_graph : Z -> Z -> Nx.rng -> result (Nx.Graph * Nx.rng).
Variable watts_strogatz_graph :
  Z -> Z -> Q -> Nx.rng -> result (Nx.Graph * Nx.rng).

(** The loop leaves with a graph it has drawn and found connected. *)
Lemma er_loop_leaves_connected (nnode : Z) (p : Q) (seed : option Z) (fuel : nat) :
  forall global G global',
    GraphPy.er_loop prng fuel nnode p seed global = Some (Ok (G, global')) ->
    Nx.is_connected G = Ok true /\
    exists r, G = fst (Nx.erdos_renyi_graph (Z.to_nat nnode) p r).
Proof.
  induction fuel as [|fuel IH]; intros global G global' H; [discriminate|].
  cbn [GraphPy.er_loop] in H.
  destruct (Nx.erdos_renyi_graph (Z.to_nat nnode) p (GraphPy.source prng seed global))
    as [G0 used] eqn:E.
  destruct (Nx.is_connected G0) as [[|]|e] eqn:Hc.
  - injection H as <- _. split; [assumption|].
    exists (GraphPy.source prng seed global). now rewrite E.
  - eapply IH. exact H.
  - discriminate.
Qed.

(** X10.  Whatever [generate] returns under the ER model with [directed]
    set is the directed form of a drawn graph that passed the connectivity
    test: a graph on the nodes [0 .. nnode-1], [nnode] at least 1, connected,
    turned into a well-kept directed graph without a cycle of which the id
    order is a topological order. *)
Theorem er_generate_returns (fuel : nat) (self : GraphPy.GraphGenerator)
  (p : Q) (nnode : Z) (seed : option Z) (global global' : Nx.rng)
  (A : GraphPy.AnyGraph) :
  GraphPy.model self = "ER"%string -> GraphPy.P (GraphPy.params self) = Some p ->
  GraphPy.directed self = true ->
  GraphPy.generate prng barabasi_albert_graph watts_strogatz_graph
                   fuel self nnode seed global = Some (Ok (A, global')) ->
  exists G,
    A = GraphPy.Directed (GraphPy.to_dag G) /\
    (0 < nnode)%Z /\
    Nx.gnodes G = seq 0 (Z.to_nat nnode) /\
    Nx.is_connected G = Ok true /\
    Nx.wf (GraphPy.to_dag G) /\
    Nx.acyclic (GraphPy.to_dag G) /\
    Nx.topological (GraphPy.to_dag G) (seq 0 (Z.to_nat nnode)).
Proof.
  intros Hm Hp Hd H.
  rewrite (Generator.generate_er prng _ _ fuel self p) in H by assumption.
  destruct (GraphPy.er_loop prng fuel nnode p seed global)
    as [[[G g]|e]|] eqn:Hloop; try discriminate.
  injection H as <- _.
  destruct (er_loop_leaves_connected nnode p seed fuel global G g Hloop)
    as [Hc [r ->]].
  destruct (erdos_renyi_simple (Z.to_nat nnode) p r) as [Hsimple _].
  pose proof (Generator.erdos_renyi_nodes (Z.to_nat nnode) p r) as Hnodes.
  eexists. split; [unfold GraphPy.finish; rewrite Hd; reflexivity|].
  split.
  - unfold Nx.is_connected in Hc. rewrite Hnodes in Hc.
    destruct (Z.to_nat nnode) eqn:E; [discriminate | lia].
  - split; [exact Hnodes|]. split; [exact Hc|].
    split; [now apply to_dag_wf|]. split; [apply to_dag_acyclic|].
    now apply to_dag_id_order.
Qed.

(** X11.  A generator that [__init__] has accepted is of one of the three
    models and has the parameters its model reads, so [generate] never fails
    on a missing key or an unknown model: under BA it fails with
    [AssertionError] exactly when [M >= nnode] and under WS exactly when
    [K >= nnode], before networkx is called and whatever the seed; otherwise
    it converts the graph networkx returns, or passes on the exception
    networkx raises. *)
Theorem generate_after_init (model : String.string) (params : GraphPy.Params)
  (directed : bool) (self : GraphPy.GraphGenerator)
  (fuel : nat) (nnode : Z) (seed : option Z) (global : Nx.rng) :
  GraphPy.GraphGenerator_init model params directed = Ok self ->
  self = {| GraphPy.model := model; GraphPy.params := params;
            GraphPy.directed := directed |} /\
  ((model = "ER"%string /\
    exists p, GraphPy.P params = Some p /\ GraphPy.unit_interval p = true /\
      GraphPy.generate prng barabasi_albert_graph watts_strogatz_graph
                       fuel self nnode seed global =
      match GraphPy.er_loop prng fuel nnode p seed global with
      | None => None
      | Some (Raise e) => Some (Raise e)
      | Some (Ok (G, global')) => Some (Ok (GraphPy.finish self G, global'))
      end) \/
   (model = "BA"%string /\
    exists m, GraphPy.M params = Some m /\
      GraphPy.generate prng barabasi_albert_graph watts_strogatz_graph
                       fuel self nnode seed global =
      if (m <? nnode)%Z then
        match barabasi_albert_graph nnode m (GraphPy.source prng seed global) with
        | Ok (G, used) =>
            Some (Ok (GraphPy.finish self G, GraphPy.settle seed global used))
        | Raise e => Some (Raise e)
        end
      else Some (Raise AssertionError)) \/
   (model = "WS"%string /\
    exists k p, GraphPy.K params = Some k /\ GraphPy.P params = Some p /\
      (k mod 2 = 0)%Z /\ GraphPy.unit_interval p = true /\
      GraphPy.generate prng barabasi_albert_graph watts_strogatz_graph
                       fuel self nnode seed global =
      if (k <? nnode)%Z then
        match watts_strogatz_graph nnode k p (GraphPy.source prng seed global) with
        | Ok (G, used) =>
            Some (Ok (GraphPy.finish self G, GraphPy.settle seed global used))
        | Raise e => Some (Raise e)
        end
      else Some (Raise AssertionError))).
Proof.
  unfold GraphPy.GraphGenerator_init. intros H.
  destruct (String.eqb_spec model "ER") as [Hm|Hner].
  - destruct (GraphPy.P params) as [p|] eqn:Hp; [|discriminate].
    destruct (GraphPy.unit_interval p) eqn:Hu; [|discriminate].
    injection H as <-. split; [reflexivity|]. left. split; [assumption|].
    exists p. split; [reflexivity|]. split; [assumption|].
    unfold GraphPy.generate. cbn [GraphPy.model GraphPy.params].
    rewrite Hm, Hp. reflexivity.
  - destruct (String.eqb_spec model "BA") as [Hm|Hnba].
    + destruct (GraphPy.M params) as [m|] eqn:HM; [|discriminate].
      injection H as <-. split; [reflexivity|]. right. left.
      split; [assumption|]. exists m. split; [reflexivity|].
      unfold GraphPy.generate. cbn [GraphPy.model GraphPy.params].
      rewrite Hm, HM. cbn [String.eqb Ascii.eqb Bool.eqb].
      destruct (m <? nnode)%Z; [|reflexivity].
      destruct (barabasi_albert_graph nnode m (GraphPy.source prng seed global))
        as [[G used]|e]; reflexivity.
    + destruct (String.eqb_spec model "WS") as [Hm|Hnws]; [|discriminate].
      destruct (GraphPy.K params) as [k|] eqn:HK; [|discriminate].
      destruct (GraphPy.P params) as [p|] eqn:HP; [|discriminate].
      destruct (Z.eqb_spec (k mod 2) 0) as [Hk|]; [|discriminate].
      destruct (GraphPy.unit_interval p) eqn:Hu; [|discriminate].
      injection H as <-. split; [reflexivity|]. right. right.
      split; [assumption|]. exists k, p.
      split; [reflexivity|]. split; [reflexivity|].
      split; [assumption|]. split; [assumption|].
      unfold GraphPy.generate. cbn [GraphPy.model GraphPy.params].
      rewrite Hm, HK, HP. cbn [String.eqb Ascii.eqb Bool.eqb].
      destruct (k <? nnode)%Z; [|reflexivity].
      destruct (watts_strogatz_graph nnode k p (GraphPy.source prng seed global))
        as [[G used]|e]; reflexivity.
Qed.

End Returned.

Lemma generate_after_init_witness :
  Examples.ba4 =
  {| GraphPy.model := "BA"%string; GraphPy.params := Examples.m4;
     GraphPy.directed := true |} /\
  (("BA"%string = "ER"%string /\
    exists p, GraphPy.P Examples.m4 = Some p /\ GraphPy.unit_interval p = true /\
      GraphPy.generate (fun _ => Examples.zeros) Examples.no_graph
                       Examples.no_graph' 1 Examples.ba4 4 None Examples.zeros =
      match GraphPy.er_loop (fun _ => Examples.zeros) 1 4 p None Examples.zeros with
      | None => None
      | Some (Raise e) => Some (Raise e)
      | Some (Ok (G, global')) =>
          Some (Ok (GraphPy.finish Examples.ba4 G, global'))
      end) \/
   ("BA"%string = "BA"%string /\
    exists m, GraphPy.M Examples.m4 = Some m /\
      GraphPy.generate (fun _ => Examples.zeros) Examples.no_graph
                       Examples.no_graph' 1 Examples.ba4 4 None Examples.zeros =
      if (m <? 4)%Z then
        match Examples.no_graph 4 m
                (GraphPy.source (fun _ => Examples.zeros) None Examples.zeros) with
        | Ok (G, used) =>
            Some (Ok (GraphPy.finish Examples.ba4 G,
                      GraphPy.settle None Examples.zeros used))
        | Raise e => Some (Raise e)
        end
      else Some (Raise AssertionError)) \/
   ("BA"%string = "WS"%string /\
    exists k p, GraphPy.K Examples.m4 = Some k /\ GraphPy.P Examples.m4 = Some p /\
      (k mod 2 = 0)%Z /\ GraphPy.unit_interval p = true /\
      GraphPy.generate (fun _ => Examples.zeros) Examples.no_graph
                       Examples.no_graph' 1 Examples.ba4 4 None Examples.zeros =
      if (k <? 4)%Z then
        match Examples.no_graph' 4 k p
                (GraphPy.source (fun _ => Examples.zeros) None Examples.zeros) with
        | Ok (G, used) =>
            Some (Ok (GraphPy.finish Examples.ba4 G,
                      GraphPy.settle None Examples.zeros used))
        | Raise e => Some (Raise e)
        end
      else Some (Raise AssertionError))).
Proof.
  apply (generate_after_init (fun _ => Examples.zeros) Examples.no_graph
           Examples.no_graph' "BA"%string Examples.m4 true Examples.ba4 1 4%Z
           None Examples.zeros).
  reflexivity.
Defined.

Lemma er_generate_returns_witness :
  exists G,
    GraphPy.Directed (GraphPy.to_dag
       {| Nx.gnodes := [0; 1]; Nx.gedges := [(0, 1)] |}) =
    GraphPy.Directed (GraphPy.to_dag G) /\
    (0 < 2)%Z /\
    Nx.gnodes G = seq 0 (Z.to_nat 2) /\
    Nx.is_connected G = Ok true /\
    Nx.wf (GraphPy.to_dag G) /\
    Nx.acyclic (GraphPy.to_dag G) /\
    Nx.topological (GraphPy.to_dag G) (seq 0 (Z.to_nat 2)).
Proof.
  apply (er_generate_returns (fun _ => Examples.zeros) Examples.no_graph
           Examples.no_graph' 2 (Examples.er (1 # 2)) (1 # 2) 2%Z None
                             Examples.late (Nx.advance 1 (Nx.advance 1 Examples.late))).
  - reflexivity.
  - reflexivity.
  - reflexivity.
  - reflexivity.
Defined.

End Generated.


Import Py PyFacts NxFacts LivenessFacts DagFacts.

(** * What [get_graphs] returns *)

Module Batches.

Section GetGraphs.

Variable prng : Z -> Nx.rng.
Variable barabasi_albert_graph : Z -> Z -> Nx.rng -> result (Nx.Graph * Nx.rng).
Variable watts_strogatz_graph :
  Z -> Z -> Q -> Nx.rng -> result (Nx.Graph * Nx.rng).

Lemma generate_finishes (fuel : nat) (gen : GraphPy.GraphGenerator)
  (nnode : Z) (seed : option Z) (global global' : Nx.rng)
  (A : GraphPy.AnyGraph) :
  GraphPy.generate prng barabasi_albert_graph watts_strogatz_graph
                   fuel gen nnode seed global = Some (Ok (A, global')) ->
  exists G, A = GraphPy.finish gen G.
Proof.
  unfold GraphPy.generate.
  match goal with
  | |- match ?u with _ => _ end = _ -> _ => destruct u as [[[G g]|e]|]
  end; try discriminate.
  intros H. injection H as <- _. now exists G.
Qed.

Lemma generate_each_appends (fuel : nat) (gen : GraphPy.GraphGenerator)
  (nnodes : list Z) (seeds : list (option Z)) (range : list nat) :
  forall Gs global Gs' global',
    GraphPy.generate_each prng barabasi_albert_graph watts_strogatz_graph
      fuel gen nnodes seeds range Gs global = Some (Ok (Gs', global')) ->
    exists new,
      Gs' = Gs ++ new /\ length new = length range /\
      (forall A, In A new -> exists G, A = GraphPy.finish gen G) /\
      forall i, In i range -> i < length nnodes /\ i < length seeds.
Proof.
  induction range as [|a range IH]; intros Gs global Gs' global' H.
  - injection H as <- _. exists []. rewrite app_nil_r.
    repeat split; try contradiction; reflexivity.
  - cbn [GraphPy.generate_each] in H.
    unfold Py.getitem in H.
    destruct (nth_error nnodes a) as [nnode|] eqn:En; [|discriminate].
    destruct (nth_error seeds a) as [seed|] eqn:Es; [|discriminate].
    destruct (GraphPy.generate _ _ _ fuel gen nnode seed global)
      as [[[A g]|e]|] eqn:Eg; try discriminate.
    apply IH in H as [new [-> [Hlen [Hall Hrange]]]].
    exists (A :: new). split; [now rewrite <- app_assoc|].
    split; [simpl; now rewrite Hlen|]. split.
    + intros B [<-|HB]; [|now apply Hall].
      exact (generate_finishes fuel gen nnode seed global g A Eg).
    + intros i [<-|Hi]; [|now apply Hrange].
      split; apply nth_error_Some; congruence.
Qed.

Lemma init_keeps_arguments (model : String.string) (params : GraphPy.Params)
  (directed : bool) (gen : GraphPy.GraphGenerator) :
  GraphPy.GraphGenerator_init model params directed = Ok gen ->
  gen = {| GraphPy.model := model; GraphPy.params := params;
           GraphPy.directed := directed |}.
Proof.
  unfold GraphPy.GraphGenerator_init.
  repeat match goal with
         | |- context [if ?b then _ else _] => destruct b
         | |- context [match ?o with Some _ => _ | None => _ end] => destruct o
         end; intros H; try discriminate; now injection H as <-.
Qed.

(** X12.  When [get_graphs] returns, its list has one entry for each of the
    [ngraphs] requested (none when [ngraphs] is negative), every entry is the
    directed graph lines 50-56 make of an undirected one and has no cycle, a
    list given for [nnodes] or [seeds] has at least [ngraphs] entries, and
    with an integer for [seeds] no graph was requested. *)
Theorem get_graphs_returns (fuel : nat) (model : String.string)
  (params : GraphPy.Params) (ngraphs : Z) (nnodes : Z + list Z)
  (seeds : option (Z + list Z)) (global global' : Nx.rng)
  (Gs : list GraphPy.AnyGraph) :
  GraphPy.get_graphs prng barabasi_albert_graph watts_strogatz_graph
    fuel model params ngraphs nnodes seeds global = Some (Ok (Gs, global')) ->
  length Gs = Z.to_nat ngraphs /\
  (forall A, In A Gs ->
     exists G, A = GraphPy.Directed (GraphPy.to_dag G) /\
               Nx.acyclic (GraphPy.to_dag G)) /\
  (forall l, nnodes = inr l -> Z.to_nat ngraphs <= length l) /\
  (forall l, seeds = Some (inr l) -> Z.to_nat ngraphs <= length l) /\
  (forall s, seeds = Some (inl s) -> (ngraphs <= 0)%Z /\ Gs = []).
Proof.
  intros H.
  assert (Hscalar : forall s, seeds = Some (inl s) -> (ngraphs <= 0)%Z).
  { intros s ->. destruct (Z_le_gt_dec ngraphs 0) as [Hle|Hgt]; [assumption|].
    exfalso. revert H.
    apply (Batch.get_graphs_scalar_seed prng barabasi_albert_graph
             watts_strogatz_graph). lia. }
  unfold GraphPy.get_graphs in H.
  destruct (GraphPy.GraphGenerator_init model params true) as [gen|e] eqn:Egen;
    [|discriminate].
  apply init_keeps_arguments in Egen.
  apply generate_each_appends in H as [new [-> [Hlen [Hall Hrange]]]].
  rewrite length_seq in Hlen. cbn [app].
  assert (Hneed : 0 < Z.to_nat ngraphs -> In (Z.to_nat ngraphs - 1)
                                            (seq 0 (Z.to_nat ngraphs))).
  { intros Hpos. apply in_seq. lia. }
  split; [exact Hlen|]. split; [|split; [|split]].
  - intros A HA. destruct (Hall A HA) as [G ->]. exists G.
    unfold GraphPy.finish. rewrite Egen. cbn [GraphPy.directed].
    split; [reflexivity|]. apply Generated.to_dag_acyclic.
  - intros l ->. destruct (Z.to_nat ngraphs) as [|k] eqn:Ek; [lia|].
    destruct (Hrange k) as [Hk _]; [apply in_seq; lia|]. lia.
  - intros l ->. destruct (Z.to_nat ngraphs) as [|k] eqn:Ek; [lia|].
    destruct (Hrange k) as [_ Hk]; [apply in_seq; lia|].
    rewrite length_map in Hk. lia.
  - intros s Hs. pose proof (Hscalar s Hs) as Hle. split; [assumption|].
    destruct new; [reflexivity|]. simpl in Hlen. lia.
Qed.

End GetGraphs.

Lemma get_graphs_returns_witness :
  exists G1 G2,
    length [GraphPy.Directed G1; GraphPy.Directed G2] = Z.to_nat 2 /\
    (forall A, In A [GraphPy.Directed G1; GraphPy.Directed G2] ->
       exists G, A = GraphPy.Directed (GraphPy.to_dag G) /\
                 Nx.acyclic (GraphPy.to_dag G)) /\
    (forall l, @inl Z (list Z) 3%Z = inr l -> Z.to_nat 2 <= length l) /\
    (forall l, @None (Z + list Z) = Some (inr l) -> Z.to_nat 2 <= length l) /\
    (forall s, @None (Z + list Z) = Some (inl s) ->
       (2 <= 0)%Z /\ [GraphPy.Directed G1; GraphPy.Directed G2] = []).
Proof.
  eexists. eexists.
  eapply (get_graphs_returns (fun _ => Examples.zeros) Examples.no_graph
            Examples.no_graph' 1 "ER"%string
            {| GraphPy.P := Some 1%Q; GraphPy.M := None; GraphPy.K := None |}
            2%Z (inl 3%Z) None Examples.zeros).
  vm_compute. reflexivity.
Defined.

End Batches.

Import Py PyFacts NxFacts LivenessFacts DagFacts.

(** * The reordering search over any number of trials *)

Module Reorder.

Lemma find_index_map (f : nat -> nat) (l : list nat) (x : nat) :
  (forall y, In y l -> f y = f x -> y = x) ->
  forall i, Py.find_index x l = Some i ->
            Py.find_index (f x) (map f l) = Some i.
Proof.
  induction l as [|y l IH]; intros Hinj i H; [discriminate|].
  cbn [Py.find_index map] in *.
  destruct (y =? x) eqn:E.
  - apply Nat.eqb_eq in E as ->. now rewrite Nat.eqb_refl.
  - apply Nat.eqb_neq in E.
    destruct (f y =? f x) eqn:E'.
    + apply Nat.eqb_eq in E'. exfalso. apply E. apply Hinj; [now left|assumption].
    + destruct (Py.find_index x l) as [i'|]; [|discriminate].
      rewrite (IH (fun z Hz => Hinj z (or_intror Hz)) i' eq_refl). exact H.
Qed.

Lemma mapM_getitem_seq {A} (p : list A) :
  forall n, n <= length p ->
            Py.mapM (Py.getitem p) (seq 0 n) = Ok (firstn n p).
Proof.
  induction p as [|a p IH]; intros [|n] Hn; simpl in Hn; try reflexivity; try lia.
  cbn [seq Py.mapM firstn]. unfold Py.getitem at 1. cbn [nth_error Py.bind].
  rewrite <- seq_shift.
  assert (E : forall l, Py.mapM (Py.getitem (a :: p)) (map S l)
                        = Py.mapM (Py.getitem p) l).
  { induction l as [|i l IHl]; [reflexivity|].
    cbn [map Py.mapM]. rewrite IHl. reflexivity. }
  rewrite E, IH by lia. reflexivity.
Qed.

Section Relabel.

Variable G : Nx.DiGraph.
Variable f : nat -> nat.
Hypothesis Hwf : Nx.wf G.
Hypothesis Hinj :
  forall a b, In a (Nx.nodes G) -> In b (Nx.nodes G) -> f a = f b -> a = b.

Lemma relabel_wf : Nx.wf (Nx.relabel_nodes G f).
Proof.
  destruct Hwf as [Hn [He Hin]]. unfold Nx.wf, Nx.relabel_nodes. cbn [Nx.nodes Nx.edges].
  split; [|split].
  - apply NoDup_map_NoDup_ForallPairs; [|assumption].
    intros a b Ha Hb. now apply Hinj.
  - apply NoDup_map_NoDup_ForallPairs.
    + intros [a b] [c d] H1 H2 E. cbn [fst snd] in E.
      apply in_edges_view in H1 as [_ H1]. apply in_edges_view in H2 as [_ H2].
      apply Hin in H1 as [Ha Hb]. apply Hin in H2 as [Hc Hd].
      injection E as E1 E2.
      f_equal; now apply Hinj.
    + unfold Nx.edges_view. apply NoDup_pairs; [assumption|].
      intros a. now apply NoDup_succ.
  - intros u v H. apply in_map_iff in H as [[a b] [E H]].
    cbn [fst snd] in E. injection E as <- <-.
    apply in_edges_view in H as [_ H]. apply Hin in H as [Ha Hb].
    split; now apply in_map.
Qed.

Lemma relabel_topological (sigma : list nat) :
  Nx.topological G sigma -> Nx.topological (Nx.relabel_nodes G f) (map f sigma).
Proof.
  intros [Hnd [Hmem Hfwd]]. destruct Hwf as [Hn [He Hin]].
  unfold Nx.topological, Nx.relabel_nodes. cbn [Nx.nodes Nx.edges].
  split; [|split].
  - apply NoDup_map_NoDup_ForallPairs; [|assumption].
    intros a b Ha Hb. apply Hinj; now apply Hmem.
  - intros n. rewrite !in_map_iff. split; intros [a [E Ha]]; exists a;
      (split; [assumption|now apply Hmem]).
  - intros u v H. apply in_map_iff in H as [[a b] [E H]].
    cbn [fst snd] in E. injection E as <- <-.
    apply in_edges_view in H as [_ H].
    destruct (Hfwd a b H) as [i [j [Hi [Hj Hlt]]]].
    apply Hin in H as [Ha Hb].
    exists i, j. split; [|split; [|assumption]].
    + apply find_index_map; [|assumption].
      intros y Hy. apply Hinj; [now apply Hmem|assumption].
    + apply find_index_map; [|assumption].
      intros y Hy. apply Hinj; [now apply Hmem|assumption].
Qed.

End Relabel.

(** A permutation of [range(n)] read as a mapping is one to one below [n]
    and stays below [n]. *)
Lemma permutation_mapping (n : nat) (p : list nat) :
  Permutation p (seq 0 n) ->
  firstn n p = p /\
  (forall i, i < n -> nth i p i < n) /\
  (forall i j, i < n -> j < n -> nth i p i = nth j p j -> i = j).
Proof.
  intros Hp.
  assert (Hlen : length p = n).
  { apply Permutation_length in Hp. now rewrite length_seq in Hp. }
  assert (Hnd : NoDup p).
  { apply (Permutation_NoDup (Permutation_sym Hp)), seq_NoDup. }
  split; [|split].
  - apply firstn_all2. lia.
  - intros i Hi. rewrite (nth_indep p i 0) by lia.
    assert (Hin : In (nth i p 0) p) by (apply nth_In; lia).
    apply (Permutation_in _ Hp) in Hin. apply in_seq in Hin. lia.
  - intros i j Hi Hj E.
    rewrite (nth_indep p i 0), (nth_indep p j 0) in E by lia.
    apply (proj1 (NoDup_nth p 0) Hnd); [lia|lia|assumption].
Qed.

(** Relabelling along a permutation keeps what a trial needs. *)
Lemma relabelled_keeps (G : Nx.DiGraph) (sigma p : list nat) :
  Nx.wf G -> Nx.dense G -> Nx.topological G sigma ->
  Permutation p (seq 0 (Nx.number_of_nodes G)) ->
  Nx.wf (GraphPy.relabelled G p) /\ Nx.dense (GraphPy.relabelled G p) /\
  (exists sigma', Nx.topological (GraphPy.relabelled G p) sigma') /\
  Nx.number_of_nodes (GraphPy.relabelled G p) = Nx.number_of_nodes G.
Proof.
  intros Hwf Hdense Hsigma Hp.
  destruct (permutation_mapping _ p Hp) as [Hfirst [Hlt Hinj]].
  unfold GraphPy.relabelled. rewrite Hfirst.
  assert (Hinj' : forall a b, In a (Nx.nodes G) -> In b (Nx.nodes G) ->
                              nth a p a = nth b p b -> a = b).
  { intros a b Ha Hb. apply Hinj; now apply Hdense. }
  assert (Hcount : Nx.number_of_nodes
                     (Nx.relabel_nodes G (fun n => nth n p n))
                   = Nx.number_of_nodes G).
  { unfold Nx.number_of_nodes, Nx.relabel_nodes. cbn [Nx.nodes].
    apply length_map. }
  split; [|split; [|split]].
  - now apply relabel_wf.
  - intros n Hn. rewrite Hcount.
    unfold Nx.relabel_nodes in Hn. cbn [Nx.nodes] in Hn.
    apply in_map_iff in Hn as [a [<- Ha]]. apply Hlt. now apply Hdense.
  - exists (map (fun n => nth n p n) sigma). now apply relabel_topological.
  - exact Hcount.
Qed.

(** A well-kept graph with a node and a topological order has a peak, which
    is below its node count. *)
Lemma plan_peak_defined (G : Nx.DiGraph) (sigma : list nat) :
  Nx.wf G -> Nx.topological G sigma -> 0 < Nx.number_of_nodes G ->
  exists m, GraphPy.plan_peak G = Ok m /\ m < Nx.number_of_nodes G.
Proof.
  intros Hwf Hsigma Hpos.
  destruct (SortFacts.lexicographical_least G Hwf sigma Hsigma)
    as [order [Hsort [Htopo _]]].
  destruct (ispans_of_spec G order Htopo) as [ispans [Hisp [Hlen _]]].
  pose proof (order_length G order Hwf Htopo) as HN.
  destruct (max_nonempty (map (@length nat) (Liveness.live_sets ispans order)))
    as [m Hm].
  { destruct order; [simpl in HN; lia | discriminate]. }
  exists m. unfold GraphPy.plan_peak.
  rewrite Hsort. cbn [Py.bind]. rewrite Hisp. cbn [Py.bind].
  split; [exact Hm|]. rewrite <- HN.
  exact (Batch.peak_below_node_count ispans order m Hlen Hm).
Qed.

(** One trial of the loop, on a graph that has a peak. *)
Lemma reorder_loop_trial (G : Nx.DiGraph) (p : list nat)
  (perms : list (list nat)) (m0 m1 : nat) (Gopt0 : option Nx.DiGraph) :
  GraphPy.plan_peak G = Ok m1 -> Nx.number_of_nodes G <= length p ->
  GraphPy.reorder_loop (p :: perms) G m0 Gopt0 =
  if m1 <? m0
  then GraphPy.reorder_loop perms (GraphPy.relabelled G p) m1
                            (Some (GraphPy.relabelled G p))
  else GraphPy.reorder_loop perms (GraphPy.relabelled G p) m0 Gopt0.
Proof.
  intros Hpeak Hlen. unfold GraphPy.plan_peak in Hpeak.
  cbn [GraphPy.reorder_loop].
  destruct (Nx.lexicographical_topological_sort G) as [order|e]; [|discriminate].
  cbn [Py.bind] in *.
  destruct (Liveness.ispans_of G order) as [ispans|e]; [|discriminate].
  cbn [Py.bind] in *.
  rewrite (mapM_getitem_seq p _ Hlen). cbn [Py.bind].
  rewrite Hpeak. cbn [Py.bind]. reflexivity.
Qed.

Lemma reorder_loop_spec (n : nat) (perms : list (list nat)) :
  Forall (fun p => Permutation p (seq 0 n)) perms ->
  forall G sigma m0 Gopt0,
    Nx.wf G -> Nx.dense G -> Nx.topological G sigma ->
    Nx.number_of_nodes G = n -> 0 < n ->
    exists m Gopt,
      GraphPy.reorder_loop perms G m0 Gopt0 = Ok (m, Gopt) /\
      (forall j Gj, nth_error (GraphPy.trial_graphs perms G) j = Some Gj ->
         exists mj, GraphPy.plan_peak Gj = Ok mj /\ mj < n /\ m <= mj) /\
      ((m = m0 /\ Gopt = Gopt0) \/
       exists i Gi p,
         nth_error (GraphPy.trial_graphs perms G) i = Some Gi /\
         nth_error perms i = Some p /\
         GraphPy.plan_peak Gi = Ok m /\ m < m0 /\
         Gopt = Some (GraphPy.relabelled Gi p) /\
         forall j Gj mj, j < i ->
           nth_error (GraphPy.trial_graphs perms G) j = Some Gj ->
           GraphPy.plan_peak Gj = Ok mj -> m < mj).
Proof.
  induction 1 as [|p perms Hp Hperms IH]; intros G sigma m0 Gopt0 Hwf Hdense Hsigma Hn Hpos.
  - exists m0, Gopt0. cbn [GraphPy.reorder_loop GraphPy.trial_graphs].
    split; [reflexivity|]. split; [|now left].
    intros [|j] Gj Hj; discriminate.
  - destruct (plan_peak_defined G sigma Hwf Hsigma) as [m1 [Hm1 Hlt1]]; [lia|].
    rewrite Hn in Hlt1. rewrite <- Hn in Hp.
    destruct (relabelled_keeps G sigma p Hwf Hdense Hsigma Hp)
      as [Hwf' [Hdense' [[sigma' Hsigma'] Hn']]].
    rewrite Hn in Hn'.
    rewrite (reorder_loop_trial G p perms m0 m1 Gopt0 Hm1)
      by (apply Permutation_length in Hp; rewrite length_seq in Hp; lia).
    cbn [GraphPy.trial_graphs].
    destruct (m1 <? m0) eqn:Ecmp.
    + apply Nat.ltb_lt in Ecmp.
      destruct (IH (GraphPy.relabelled G p) sigma' m1
                   (Some (GraphPy.relabelled G p)) Hwf' Hdense' Hsigma' Hn' Hpos)
        as [m [Gopt [Hrun [Hall Hcase]]]].
      exists m, Gopt. split; [exact Hrun|].
      assert (Hle : m <= m1).
      { destruct Hcase as [[-> _]|[i [Gi [q [_ [_ [_ [Hlt _]]]]]]]]; lia. }
      split.
      * intros [|j] Gj Hj; cbn [nth_error] in Hj.
        -- injection Hj as <-. exists m1. repeat split; assumption.
        -- exact (Hall j Gj Hj).
      * right. destruct Hcase as [[-> ->]|[i [Gi [q [Hi [Hq [Hpk [Hlt [-> Hbefore]]]]]]]]].
        -- exists 0, G, p. cbn [nth_error].
           repeat split; try assumption; try reflexivity.
           intros j Gj mj Hj. lia.
        -- exists (S i), Gi, q. cbn [nth_error].
           repeat split; try assumption; try reflexivity; [lia|].
           intros [|j] Gj mj Hj Hnth Hmj; cbn [nth_error] in Hnth.
           ++ injection Hnth as <-. rewrite Hm1 in Hmj. injection Hmj as <-. lia.
           ++ apply (Hbefore j Gj mj); [lia|assumption|assumption].
    + apply Nat.ltb_ge in Ecmp.
      destruct (IH (GraphPy.relabelled G p) sigma' m0 Gopt0
                   Hwf' Hdense' Hsigma' Hn' Hpos)
        as [m [Gopt [Hrun [Hall Hcase]]]].
      exists m, Gopt. split; [exact Hrun|].
      assert (Hle : m <= m0).
      { destruct Hcase as [[-> _]|[i [Gi [q [_ [_ [_ [Hlt _]]]]]]]]; lia. }
      split.
      * intros [|j] Gj Hj; cbn [nth_error] in Hj.
        -- injection Hj as <-. exists m1. repeat split; [assumption|assumption|lia].
        -- exact (Hall j Gj Hj).
      * destruct Hcase as [[-> ->]|[i [Gi [q [Hi [Hq [Hpk [Hlt [-> Hbefore]]]]]]]]].
        -- left. now split.
        -- right. exists (S i), Gi, q. cbn [nth_error].
           repeat split; try assumption; try reflexivity.
           intros [|j] Gj mj Hj Hnth Hmj; cbn [nth_error] in Hnth.
           ++ injection Hnth as <-. rewrite Hm1 in Hmj. injection Hmj as <-. lia.
           ++ apply (Hbefore j Gj mj); [lia|assumption|assumption].
Qed.

(** X13.  The search of [test] over any number of trials.  On a well-kept
    graph with a node, a topological order and the node ids [0 .. n-1], and
    with a permutation of [range(n)] drawn in each of at least one trial,
    the search raises nothing; every trial graph has a peak; the count
    returned is the least of these peaks; and the graph returned is the
    relabelling that follows the first trial graph with that peak, not that
    graph. *)
Theorem search_least_measured_peak (G : Nx.DiGraph) (sigma : list nat)
  (perms : list (list nat)) :
  Nx.wf G -> Nx.dense G -> Nx.topological G sigma ->
  0 < Nx.number_of_nodes G -> perms <> [] ->
  Forall (fun p => Permutation p (seq 0 (Nx.number_of_nodes G))) perms ->
  exists i Gi p m,
    nth_error (GraphPy.trial_graphs perms G) i = Some Gi /\
    nth_error perms i = Some p /\
    GraphPy.plan_peak Gi = Ok m /\
    GraphPy.search G perms = Ok (GraphPy.relabelled Gi p, m) /\
    forall j Gj, nth_error (GraphPy.trial_graphs perms G) j = Some Gj ->
      exists mj, GraphPy.plan_peak Gj = Ok mj /\ m <= mj /\ (j < i -> m < mj).
Proof.
  intros Hwf Hdense Hsigma Hpos Hne Hperms.
  destruct (reorder_loop_spec _ perms Hperms G sigma (Nx.number_of_nodes G) None
              Hwf Hdense Hsigma eq_refl Hpos)
    as [m [Gopt [Hrun [Hall Hcase]]]].
  destruct Hcase as [[-> _]|[i [Gi [p [Hi [Hp [Hpk [Hlt [-> Hbefore]]]]]]]]].
  - exfalso. destruct perms as [|p perms]; [now apply Hne|].
    destruct (Hall 0 G eq_refl) as [m0 [_ [H1 H2]]]. lia.
  - exists i, Gi, p, m. repeat split; try assumption.
    + unfold GraphPy.search. rewrite Hrun. reflexivity.
    + intros j Gj Hj. destruct (Hall j Gj Hj) as [mj [Hmj [_ Hle]]].
      exists mj. repeat split; try assumption.
      intros Hji. exact (Hbefore j Gj mj Hji Hj Hmj).
Qed.

Lemma search_least_measured_peak_witness :
  exists i Gi p m,
    nth_error (GraphPy.trial_graphs [[0; 1; 3; 2]; [0; 1; 2; 3]]
                                    Examples.zigzag') i = Some Gi /\
    nth_error [[0; 1; 3; 2]; [0; 1; 2; 3]] i = Some p /\
    GraphPy.plan_peak Gi = Ok m /\
    GraphPy.search Examples.zigzag' [[0; 1; 3; 2]; [0; 1; 2; 3]]
      = Ok (GraphPy.relabelled Gi p, m) /\
    forall j Gj,
      nth_error (GraphPy.trial_graphs [[0; 1; 3; 2]; [0; 1; 2; 3]]
                                      Examples.zigzag') j = Some Gj ->
      exists mj, GraphPy.plan_peak Gj = Ok mj /\ m <= mj /\ (j < i -> m < mj).
Proof.
  apply (search_least_measured_peak Examples.zigzag' [0; 1; 3; 2]
           [[0; 1; 3; 2]; [0; 1; 2; 3]]).
  - apply wfb_sound. vm_compute. reflexivity.
  - apply Plan.denseb_sound. vm_compute. reflexivity.
  - apply topologicalb_sound. vm_compute. reflexivity.
  - unfold Examples.zigzag', Nx.number_of_nodes. simpl. lia.
  - discriminate.
  - repeat constructor.
Defined.

End Reorder.

Import Py PyFacts NxFacts LivenessFacts DagFacts.

(** * The ER model at the ends of its parameters *)

Module Extremes.

Lemma in_union (new : list nat) :
  forall seen x, In x (Nx.union seen new) <-> In x seen \/ In x new.
Proof.
  induction new as [|a new IH]; intros seen x; cbn [Nx.union].
  - simpl. tauto.
  - destruct (Py.mem a seen) eqn:E; rewrite IH.
    + apply mem_In in E. simpl. split; [tauto|].
      intros [H|[<-|H]]; tauto.
    + rewrite in_app_iff. simpl. tauto.
Qed.

Lemma NoDup_union (new : list nat) :
  forall seen, NoDup seen -> NoDup (Nx.union seen new).
Proof.
  induction new as [|a new IH]; intros seen H; cbn [Nx.union]; [assumption|].
  destruct (Py.mem a seen) eqn:E; apply IH; [assumption|].
  apply mem_false in E.
  apply NoDup_app; [assumption|constructor; [intros []|constructor]|].
  intros x Hx [<-|[]]. contradiction.
Qed.

Lemma bfs_keeps (G : Nx.Graph) (r : nat) :
  forall seen x, In x seen -> In x (Nx.bfs G r seen).
Proof.
  induction r as [|r IH]; intros seen x H; cbn [Nx.bfs]; [assumption|].
  apply IH, in_union. now left.
Qed.

Lemma NoDup_bfs (G : Nx.Graph) (r : nat) :
  forall seen, NoDup seen -> NoDup (Nx.bfs G r seen).
Proof.
  induction r as [|r IH]; intros seen H; cbn [Nx.bfs]; [assumption|].
  apply IH, NoDup_union, H.
Qed.

Lemma bfs_within (G : Nx.Graph) (r : nat) :
  (forall u v, In v (Nx.adj G u) -> In v (Nx.gnodes G)) ->
  forall seen, incl seen (Nx.gnodes G) -> incl (Nx.bfs G r seen) (Nx.gnodes G).
Proof.
  intros Hadj. induction r as [|r IH]; intros seen H; cbn [Nx.bfs]; [assumption|].
  apply IH. intros x Hx. apply in_union in Hx as [Hx|Hx]; [now apply H|].
  apply in_flat_map in Hx as [u [_ Hx]]. now apply (Hadj u).
Qed.

Lemma bfs_no_edges (ns : list nat) (r : nat) :
  forall seen, Nx.bfs {| Nx.gnodes := ns; Nx.gedges := [] |} r seen = seen.
Proof.
  induction r as [|r IH]; intros seen; cbn [Nx.bfs]; [reflexivity|].
  assert (E : flat_map (Nx.adj {| Nx.gnodes := ns; Nx.gedges := [] |}) seen = []).
  { induction seen as [|a seen IHs]; [reflexivity|]. simpl. exact IHs. }
  rewrite E. cbn [Nx.union]. apply IH.
Qed.

(** The graph without edges is connected on one node only. *)
Lemma edgeless_connected (n : nat) :
  0 < n ->
  Nx.is_connected {| Nx.gnodes := seq 0 n; Nx.gedges := [] |} = Ok (n =? 1).
Proof.
  intros Hn. unfold Nx.is_connected. cbn [Nx.gnodes].
  destruct n as [|n]; [lia|]. cbn [seq].
  rewrite bfs_no_edges. cbn [length]. rewrite length_seq.
  now rewrite Nat.eqb_sym.
Qed.

(** The complete graph is connected. *)
Lemma complete_connected (n : nat) :
  0 < n ->
  Nx.is_connected {| Nx.gnodes := seq 0 n; Nx.gedges := Nx.combinations2 n |}
  = Ok true.
Proof.
  intros Hn. set (G := {| Nx.gnodes := seq 0 n; Nx.gedges := Nx.combinations2 n |}).
  unfold Nx.is_connected. cbn [Nx.gnodes G].
  destruct n as [|n]; [lia|]. cbn [seq]. fold (seq 0 (S n)).
  change (0 :: seq 1 n) with (seq 0 (S n)). rewrite length_seq.
  f_equal. apply Nat.eqb_eq.
  assert (Hnd : NoDup (Nx.bfs G (S n) [0])).
  { apply NoDup_bfs. constructor; [intros []|constructor]. }
  assert (Hsub : incl (Nx.bfs G (S n) [0]) (seq 0 (S n))).
  { apply (bfs_within G (S n)).
    - intros u v Hv. apply in_adj in Hv. cbn [G Nx.gnodes Nx.gedges] in *.
      apply in_seq. destruct Hv as [Hv|Hv]; apply Generated.in_combinations2 in Hv; lia.
    - intros x [<-|[]]. apply in_seq. lia. }
  assert (Hsup : incl (seq 0 (S n)) (Nx.bfs G (S n) [0])).
  { intros x Hx. apply in_seq in Hx. cbn [Nx.bfs].
    apply bfs_keeps, in_union.
    destruct x as [|x]; [left; now left|right].
    apply in_flat_map. exists 0. split; [now left|].
    apply in_adj. left. apply Generated.in_combinations2. lia. }
  pose proof (NoDup_incl_length Hnd Hsub) as H1.
  pose proof (NoDup_incl_length (seq_NoDup (S n) 0) Hsup) as H2.
  rewrite length_seq in H1, H2. lia.
Qed.

(** X14.  The ER model at the ends of its parameters.  With no node the
    connectivity test raises at the first draw; with one node the first draw
    is returned whatever [P] is; with [P <= 0] and two nodes or more every
    draw is the graph without edges and the loop never ends, whatever the
    seed; with [P >= 1] and a node or more the first draw is the complete
    graph, which is returned with an edge from [u] to [v] exactly for
    [u < v].  None of these draws takes a number from the random source. *)
Theorem er_extremes
  (prng : Z -> Nx.rng)
  (ba : Z -> Z -> Nx.rng -> result (Nx.Graph * Nx.rng))
  (ws : Z -> Z -> Q -> Nx.rng -> result (Nx.Graph * Nx.rng))
  (self : GraphPy.GraphGenerator) (p : Q) (seed : option Z)
  (global : Nx.rng) :
  GraphPy.model self = "ER"%string -> GraphPy.P (GraphPy.params self) = Some p ->
  (forall fuel, 0 < fuel ->
     GraphPy.generate prng ba ws fuel self 0 seed global =
     Some (Raise NetworkXPointlessConcept)) /\
  (forall fuel, 0 < fuel ->
     GraphPy.generate prng ba ws fuel self 1 seed global =
     Some (Ok (GraphPy.finish self {| Nx.gnodes := [0]; Nx.gedges := [] |},
               global))) /\
  ((p <= 0)%Q ->
   forall nnode fuel, (2 <= nnode)%Z ->
     GraphPy.generate prng ba ws fuel self nnode seed global = None) /\
  ((1 <= p)%Q ->
   forall nnode, (1 <= nnode)%Z ->
     (forall fuel, 0 < fuel ->
        GraphPy.generate prng ba ws fuel self nnode seed global =
        Some (Ok (GraphPy.finish self
                    {| Nx.gnodes := seq 0 (Z.to_nat nnode);
                       Nx.gedges := Nx.combinations2 (Z.to_nat nnode) |},
                  global))) /\
     forall u v,
       In (u, v) (Nx.edges (GraphPy.to_dag
                              {| Nx.gnodes := seq 0 (Z.to_nat nnode);
                                 Nx.gedges := Nx.combinations2 (Z.to_nat nnode) |}))
       <-> u < v /\ v < Z.to_nat nnode).
Proof.
  intros Hm Hp.
  assert (Hsettle : GraphPy.settle seed global
                      (GraphPy.source prng seed global) = global).
  { destruct seed; reflexivity. }
  split; [|split; [|split]].
  - intros [|fuel] Hfuel; [lia|].
    rewrite (Generator.generate_er prng ba ws _ self p) by assumption.
    cbn [GraphPy.er_loop]. change (Z.to_nat 0) with 0.
    unfold Nx.erdos_renyi_graph.
    destruct (Qle_bool p 0); [reflexivity|].
    destruct (Qle_bool 1 p); reflexivity.
  - intros [|fuel] Hfuel; [lia|].
    rewrite (Generator.generate_er prng ba ws _ self p) by assumption.
    cbn [GraphPy.er_loop].
    change (Z.to_nat 1) with 1.
    unfold Nx.erdos_renyi_graph.
    destruct (Qle_bool p 0); [|destruct (Qle_bool 1 p)].
    + cbn. now rewrite Hsettle.
    + cbn. now rewrite Hsettle.
    + cbn. destruct seed; reflexivity.
  - intros Hle nnode fuel Hn.
    rewrite (Generator.generate_er prng ba ws _ self p) by assumption.
    rewrite (Generator.er_loop_running prng nnode p seed fuel fuel global);
      [reflexivity| |lia].
    intros j _. unfold GraphPy.er_draw, Nx.erdos_renyi_graph.
    apply Qle_bool_iff in Hle. rewrite Hle. cbn [fst].
    rewrite edgeless_connected by lia.
    f_equal. f_equal. apply Nat.eqb_neq. lia.
  - intros Hle nnode Hn.
    assert (H0 : Qle_bool p 0 = false).
    { destruct (Qle_bool p 0) eqn:E; [|reflexivity].
      apply Qle_bool_iff in E. pose proof (Qle_trans _ _ _ Hle E) as Habs.
      unfold Qle in Habs. simpl in Habs. lia. }
    apply Qle_bool_iff in Hle. split.
    + intros fuel Hfuel.
      rewrite (Generator.generate_er prng ba ws _ self p) by assumption.
      rewrite (Generator.er_loop_at prng nnode p seed 0 fuel global);
        [|intros j Hj; lia|assumption].
      unfold GraphPy.er_draw. cbn [GraphPy.er_global].
      unfold Nx.erdos_renyi_graph. rewrite H0, Hle. cbn [fst snd].
      rewrite complete_connected by lia.
      now rewrite Hsettle.
    + intros u v. rewrite in_to_dag. cbn [Nx.gnodes Nx.gedges].
      rewrite !Generated.in_combinations2, in_seq. lia.
Qed.

Lemma er_extremes_witness :
  (forall fuel, 0 < fuel ->
     GraphPy.generate (fun _ => Examples.zeros) Examples.no_graph
       Examples.no_graph' fuel (Examples.er 1) 0 None Examples.zeros =
     Some (Raise NetworkXPointlessConcept)) /\
  (forall fuel, 0 < fuel ->
     GraphPy.generate (fun _ => Examples.zeros) Examples.no_graph
       Examples.no_graph' fuel (Examples.er 1) 1 None Examples.zeros =
     Some (Ok (GraphPy.finish (Examples.er 1)
                 {| Nx.gnodes := [0]; Nx.gedges := [] |},
               Examples.zeros))) /\
  ((1 <= 0)%Q ->
   forall nnode fuel, (2 <= nnode)%Z ->
     GraphPy.generate (fun _ => Examples.zeros) Examples.no_graph
       Examples.no_graph' fuel (Examples.er 1) nnode None Examples.zeros = None) /\
  ((1 <= 1)%Q ->
   forall nnode, (1 <= nnode)%Z ->
     (forall fuel, 0 < fuel ->
        GraphPy.generate (fun _ => Examples.zeros) Examples.no_graph
          Examples.no_graph' fuel (Examples.er 1) nnode None Examples.zeros =
        Some (Ok (GraphPy.finish (Examples.er 1)
                    {| Nx.gnodes := seq 0 (Z.to_nat nnode);
                       Nx.gedges := Nx.combinations2 (Z.to_nat nnode) |},
                  Examples.zeros))) /\
     forall u v,
       In (u, v) (Nx.edges (GraphPy.to_dag
                              {| Nx.gnodes := seq 0 (Z.to_nat nnode);
                                 Nx.gedges := Nx.combinations2 (Z.to_nat nnode) |}))
       <-> u < v /\ v < Z.to_nat nnode).
Proof.
  apply (er_extremes (fun _ => Examples.zeros) Examples.no_graph
           Examples.no_graph' (Examples.er 1) 1%Q None Examples.zeros).
  - reflexivity.
  - reflexivity.
Defined.

End Extremes.
